(** * USD imaging and Maya translator: edge identification and skeleton rigging

    A shallow embedding of
    - [pxr/imaging/lib/hdSt/shaders/edgeId.glslfx], the GLSL mixins that
      identify the edge of a primitive a fragment lies on, and
    - the usdMaya skeleton translator ([translatorSkel.cpp]), which builds
      Maya joints, bind poses and skin clusters from UsdSkel data.

    GLSL [float] is IEEE 754 binary32 and C++ [double] is binary64; both are
    modelled with the Standard Library's [spec_float], whose operations are the
    correctly rounded (round to nearest, ties to even) ones. *)

From Stdlib Require Import ZArith Lia Bool Ascii String.
From Stdlib Require Import Floats.SpecFloat.
From stdpp Require Import base list option strings.

Local Open Scope Z_scope.

(** ** Machine numbers *)

Module Float32.
(** GLSL [float] and C++ [float]: binary32, 24 bits of precision. *)
Definition prec : Z := 24.
Definition emax : Z := 128.
Definition float : Type := spec_float.

(** An integer constant converted to [float], as in [vec3(1,0,0)] or the
    literal [1] of [1 - bc.x - bc.y]. *)
Definition of_Z (n : Z) : float := binary_normalize prec emax n 0 false.

Definition sub (a b : float) : float := SFsub prec emax a b.
Definition div (a b : float) : float := SFdiv prec emax a b.
Definition ltb (a b : float) : bool := SFltb a b.
Definition gtb (a b : float) : bool := SFltb b a.

(** The float nearest to the fraction n/d. *)
Definition ratio (n d : Z) : float := div (of_Z n) (of_Z d).
End Float32.

Abbreviation float := Float32.float.

Module Float64.
(** C++ [double]: binary64, 53 bits of precision. *)
Definition prec : Z := 53.
Definition emax : Z := 1024.
Definition double : Type := spec_float.

Definition of_Z (n : Z) : double := binary_normalize prec emax n 0 false.
Definition add (a b : double) : double := SFadd prec emax a b.
Definition sub (a b : double) : double := SFsub prec emax a b.
Definition mul (a b : double) : double := SFmul prec emax a b.
Definition div (a b : double) : double := SFdiv prec emax a b.
Definition sqrt (a : double) : double := SFsqrt prec emax a.

(** The implicit conversion [float] to [double], which is exact. *)
Definition of_float (w : float) : double :=
  match w with
  | S754_finite s m e => binary_normalize prec emax (cond_Zopp s (Z.pos m)) e s
  | _ => w
  end.

(** The conversion [double] to [float], rounding to nearest. *)
Definition to_float (d : double) : float :=
  match d with
  | S754_finite s m e =>
      binary_normalize Float32.prec Float32.emax (cond_Zopp s (Z.pos m)) e s
  | _ => d
  end.
End Float64.

Abbreviation double := Float64.double.

(** [unsigned int]: arithmetic is modulo 2^32. *)
Definition u32 (z : Z) : Z := z mod 2 ^ 32.

(** Element access of [std::vector], [VtArray] and Maya arrays: none checks
    its index, so an access outside the array has no defined result. *)
Definition at_index {T : Type} (a : list T) (i : Z) : option T :=
  if bool_decide (0 <= i) then a !! Z.to_nat i else None.

Definition set_index {T : Type} (a : list T) (i : Z) (v : T) : option (list T) :=
  if bool_decide (0 <= i < Z.of_nat (length a))
  then Some (<[Z.to_nat i := v]> a) else None.

(** [for (i = start; i < start + n; ++i) body], where the body may have no
    defined result. *)
Fixpoint for_range {S : Type} (n : nat) (i : Z) (body : Z -> S -> option S)
    (s : S) : option S :=
  match n with
  | O => Some s
  | Datatypes.S n' =>
      match body i s with
      | Some s' => for_range n' (i + 1) body s'
      | None => None
      end
  end.

(** ** edgeId.glslfx *)

Module EdgeId.

(** GLSL vector types. *)
Record vec2 : Type := mkvec2 { v2x : float; v2y : float }.
Record vec3 : Type := mkvec3 { v3x : float; v3y : float; v3z : float }.
Record bvec2 : Type := mkbvec2 { b2x : bool; b2y : bool }.
Record bvec3 : Type := mkbvec3 { b3x : bool; b3y : bool; b3z : bool }.

(** [vec3(a,b,c)] with integer arguments. *)
Definition ivec3 (a b c : Z) : vec3 :=
  mkvec3 (Float32.of_Z a) (Float32.of_Z b) (Float32.of_Z c).
(** [vec2(s)] and [vec3(s)]: the scalar in every component. *)
Definition splat2 (s : float) : vec2 := mkvec2 s s.
Definition splat3 (s : float) : vec3 := mkvec3 s s s.
(** The swizzle [.yz]. *)
Definition yz (v : vec3) : vec2 := mkvec2 (v3y v) (v3z v).

(** Built-in component-wise comparisons and [any]. *)
Definition lessThan2 (a b : vec2) : bvec2 :=
  mkbvec2 (Float32.ltb (v2x a) (v2x b)) (Float32.ltb (v2y a) (v2y b)).
Definition greaterThan2 (a b : vec2) : bvec2 :=
  mkbvec2 (Float32.gtb (v2x a) (v2x b)) (Float32.gtb (v2y a) (v2y b)).
Definition lessThan3 (a b : vec3) : bvec3 :=
  mkbvec3 (Float32.ltb (v3x a) (v3x b)) (Float32.ltb (v3y a) (v3y b))
          (Float32.ltb (v3z a) (v3z b)).
Definition any2 (b : bvec2) : bool := b2x b || b2y b.
Definition any3 (b : bvec3) : bool := b3x b || b3y b || b3z b.

(** A local array [T a[n]]: its elements are unset until stored; a load or
    store outside [0, n) has no defined result. *)
Definition array (T : Type) : Type := list (option T).
Definition array_new (T : Type) (n : nat) : array T := replicate n None.
Definition array_store {T} (a : array T) (i : Z) (v : T) : option (array T) :=
  if bool_decide (0 <= i < Z.of_nat (length a))
  then Some (<[Z.to_nat i := Some v]> a) else None.
Definition array_load {T} (a : array T) (i : Z) : option T :=
  if bool_decide (0 <= i) then mjoin (a !! Z.to_nat i) else None.

(** [const float pickRadius = 0.02;] the literal denotes the binary32
    number nearest to 1/50, which is 10737418 * 2^-29 (0x3CA3D70A). *)
Definition pickRadius : float := S754_finite false 10737418 (-29).

(** The interface the code generator calls in a fragment shader; each
    [EdgeId.Fragment.*] mixin is one implementation.  [Inputs] holds the
    interpolated [in] variables the mixin declares. *)
Class FragmentMixin : Type := {
  Inputs : Type;
  GetPrimitiveEdgeId : Inputs -> Z;
  IsFragmentOnEdge : Inputs -> bool
  }.

(** -- glsl EdgeId.Geometry.Bary *)
Module GeometryBary.
Definition GetBaryCoord (index : Z) : option vec2 :=
  barys0 ← array_store (array_new vec3 3) 0 (ivec3 1 0 0);
  barys1 ← array_store barys0 1 (ivec3 0 1 0);
  barys2 ← array_store barys1 2 (ivec3 0 0 1);
  yz <$> array_load barys2 index.

(** [ProcessTriEdgeId] writes the output variable [gsBaryCoord]. *)
Definition ProcessTriEdgeId (index : Z) : option vec2 := GetBaryCoord index.
Definition ProcessEdgeId (index : Z) (faceUV : vec2) : option vec2 :=
  ProcessTriEdgeId index.
End GeometryBary.

(** -- glsl EdgeId.Geometry.Rect *)
Module GeometryRect.
Definition ProcessQuadEdgeId (faceUV : vec2) : vec2 := faceUV.
Definition ProcessEdgeId (index : Z) (faceUV : vec2) : vec2 :=
  ProcessQuadEdgeId faceUV.
End GeometryRect.

(** -- glsl EdgeId.Fragment.BaryFallback: no [in] variable is declared. *)
Module FragmentBaryFallback.
Definition GetPrimitiveEdgeId (_ : unit) : Z := -1.
Definition IsFragmentOnEdge (_ : unit) : bool := false.
Definition mixin : FragmentMixin :=
  {| Inputs := unit;
     EdgeId.GetPrimitiveEdgeId := GetPrimitiveEdgeId;
     EdgeId.IsFragmentOnEdge := IsFragmentOnEdge |}.
End FragmentBaryFallback.

(** -- glsl EdgeId.Fragment.Bary *)
Module FragmentBary.
Definition ExpandBaryCoord (bc : vec2) : vec3 :=
  mkvec3 (Float32.sub (Float32.sub (Float32.of_Z 1) (v2x bc)) (v2y bc))
         (v2x bc) (v2y bc).

Definition GetPrimitiveEdgeId (gsBaryCoord : vec2) : Z :=
  let baryCoord := ExpandBaryCoord gsBaryCoord in
  let edgeId := -1 in
  if Float32.ltb (v3z baryCoord) pickRadius then 0
  else if Float32.ltb (v3x baryCoord) pickRadius then 1
  else if Float32.ltb (v3y baryCoord) pickRadius then 2
  else edgeId.

Definition IsFragmentOnEdge (gsBaryCoord : vec2) : bool :=
  let bc := ExpandBaryCoord gsBaryCoord in
  any3 (lessThan3 bc (splat3 pickRadius)).

Definition mixin : FragmentMixin :=
  {| Inputs := vec2;
     EdgeId.GetPrimitiveEdgeId := GetPrimitiveEdgeId;
     EdgeId.IsFragmentOnEdge := IsFragmentOnEdge |}.
End FragmentBary.

(** -- glsl EdgeId.Fragment.Rect *)
Module FragmentRect.
Definition delLow : float := pickRadius.
Definition delHigh : float := Float32.sub (Float32.of_Z 1) delLow.

Definition GetPrimitiveEdgeId (gsRect : vec2) : Z :=
  let edgeId := -1 in
  let uv := gsRect in
  if Float32.ltb (v2y uv) delLow then 0
  else if Float32.gtb (v2x uv) delHigh then 1
  else if Float32.gtb (v2y uv) delHigh then 2
  else if Float32.ltb (v2x uv) delLow then 3
  else edgeId.

Definition IsFragmentOnEdge (gsRect : vec2) : bool :=
  let uv := gsRect in
  let e0_e3 := any2 (lessThan2 uv (splat2 pickRadius)) in
  let e1_e2 :=
    any2 (greaterThan2 uv
            (splat2 (Float32.sub (Float32.of_Z 1) pickRadius))) in
  e0_e3 || e1_e2.

Definition mixin : FragmentMixin :=
  {| Inputs := vec2;
     EdgeId.GetPrimitiveEdgeId := GetPrimitiveEdgeId;
     EdgeId.IsFragmentOnEdge := IsFragmentOnEdge |}.
End FragmentRect.

(** The two tests of a mixin agree when a fragment is on an edge exactly
    when it is given an edge id. *)
Definition tests_agree (m : FragmentMixin) : Prop :=
  forall i : @Inputs m,
    @IsFragmentOnEdge m i = true <-> @GetPrimitiveEdgeId m i <> -1.

(** The barycentric coordinate of corner [index] of a triangle. *)
Definition bary_basis (index : Z) : vec3 :=
  ivec3 (if index =? 0 then 1 else 0)
        (if index =? 1 then 1 else 0)
        (if index =? 2 then 1 else 0).

End EdgeId.

(** ** translatorSkel.cpp: skin cluster weights *)

Module SkinWeights.

(** The body of the inner loop of [_SetVaryingJointInfluences]: influence
    slot [c] of point [pt] is added to the weight of its joint. *)
Definition accumulate (indices : list Z) (weights : list float)
    (numInfluencesPerPoint : Z) (numJoints : Z) (pt c : Z)
    (vertOrderedWeights : list double) : option (list double) :=
  let slot := u32 (u32 (pt * u32 numInfluencesPerPoint) + u32 c) in
  jointIdx ← at_index indices slot;
  if bool_decide (0 <= jointIdx) && bool_decide (u32 jointIdx < numJoints)
  then
    w ← at_index weights slot;
    let k := u32 (u32 (pt * numJoints) + u32 jointIdx) in
    old ← at_index vertOrderedWeights k;
    set_index vertOrderedWeights k (Float64.add old (Float64.of_float w))
  else Some vertOrderedWeights.

(** The vertex-ordered weight array computed by
    [_SetVaryingJointInfluences]; [numJoints] is
    [static_cast<unsigned int>(joints.size())]. *)
Definition vertOrderedWeights (numJoints : Z) (indices : list Z)
    (weights : list float) (numInfluencesPerPoint : Z) (numPoints : Z)
    : option (list double) :=
  let init :=
    replicate (Z.to_nat (u32 (numPoints * numJoints)))
              (Float64.of_float (Float32.of_Z 0)) in
  for_range (Z.to_nat numPoints) 0
    (fun pt vw =>
       for_range (Z.to_nat numInfluencesPerPoint) 0
         (accumulate indices weights numInfluencesPerPoint numJoints pt) vw)
    init.

(** [influenceIndices[i] = i] for [i < numJoints]. *)
Definition influenceIndices (numJoints : Z) : list Z :=
  seqZ 0 numJoints.

(** What influence slot [c] of point [pt] gives joint [j]: its weight when
    the slot names the joint. *)
Definition selected (indices : list Z) (weights : list float)
    (numInfluencesPerPoint : Z) (pt j c : Z) : option double :=
  let slot := pt * numInfluencesPerPoint + c in
  jointIdx ← at_index indices slot;
  if bool_decide (jointIdx = j)
  then Float64.of_float <$> at_index weights slot else None.

(** One more slot added to a running sum. *)
Definition step (indices : list Z) (weights : list float)
    (numInfluencesPerPoint : Z) (pt j : Z) (a : double) (c : Z) : double :=
  match selected indices weights numInfluencesPerPoint pt j c with
  | Some w => Float64.add a w
  | None => a
  end.

(** The weights of point [pt] that name joint [j], in slot order. *)
Definition influences_of (indices : list Z) (weights : list float)
    (numInfluencesPerPoint : Z) (pt j : Z) : list double :=
  omap (selected indices weights numInfluencesPerPoint pt j)
       (seqZ 0 numInfluencesPerPoint).

(** Their sum, accumulated in [double] from 0.0 in slot order. *)
Definition influence_sum (indices : list Z) (weights : list float)
    (numInfluencesPerPoint : Z) (pt j : Z) : double :=
  foldl Float64.add (Float64.of_Z 0)
        (influences_of indices weights numInfluencesPerPoint pt j).

End SkinWeights.

(** ** translatorSkel.cpp: the libraries it is built on

    The translator is written against pxr (Sdf, Gf, UsdSkel), the Maya API
    and usdMaya helpers, none of which is part of the translated sources.
    Pure library functions are taken as parameters ([SdfPathOps], [GfOps]);
    UsdSkel queries are records of the values their accessors return; calls
    into Maya and into the usdMaya reader context are requests to a host. *)

Definition TfToken : Type := string.
Definition MString : Type := string.

(** [SdfPath] and the operations the translator uses. *)
Class SdfPathOps : Type := {
  SdfPath : Type;
  SdfPath_of_token : TfToken -> SdfPath;
  IsEmpty : SdfPath -> bool;
  AppendPath : SdfPath -> SdfPath -> SdfPath;
  AppendChild : SdfPath -> TfToken -> SdfPath;
  GetParentPath : SdfPath -> SdfPath
}.

(** [GfVec3d] is three doubles. *)
Record GfVec3d : Type := mkGfVec3d { gx : double; gy : double; gz : double }.

(** [v[c]] for [c] in 0..2. *)
Definition GfVec3d_at (v : GfVec3d) (c : Z) : option double :=
  at_index [gx v; gy v; gz v] c.

(** [GfMatrix4d] and the Gf and usdMaya matrix functions the translator
    uses; [ConvertUsdMatrixToComponents] yields translation, rotation and
    scale when it succeeds. *)
Class GfOps : Type := {
  GfMatrix4d : Type;
  GfMatrix4d_identity : GfMatrix4d;
  ExtractTranslation : GfMatrix4d -> GfVec3d;
  GetInverse : GfMatrix4d -> GfMatrix4d;
  GfVec3d_minus : GfVec3d -> GfVec3d -> GfVec3d;
  GetLength : GfVec3d -> double;
  ConvertUsdMatrixToComponents :
    GfMatrix4d -> option (GfVec3d * GfVec3d * GfVec3d)
}.

(** Maya handles.  An [MObject] is null or refers to a node; a plug is named
    by the node and attribute it was found on, and by the element or child
    taken from it; a DAG path by how it was obtained. *)
Inductive MObject : Type :=
| kNullObj
| MNode (handle : positive).

#[export] Instance MObject_eq_dec : EqDecision MObject.
Proof. solve_decision. Defined.

Definition isNull (o : MObject) : bool :=
  match o with kNullObj => true | MNode _ => false end.

Inductive MPlug : Type :=
| Plug (node : MObject) (attr : MString)
| Element (array : MPlug) (index : Z)
| Child (parent : MPlug) (name : MString).

Inductive MDagPath : Type :=
| PathTo (node : MObject)
| ShapeBelow (path : MDagPath)
| PathOfMesh (meshFn : MObject).

Inductive MFnType : Type :=
| kMesh
| kOtherType (code : positive).

#[export] Instance MFnType_eq_dec : EqDecision MFnType.
Proof. solve_decision. Defined.

Inductive MFnSet : Type :=
| FnDependencyNode
| FnMesh
| FnSkinCluster.

(** Component data built with [MFnSingleIndexedComponent]. *)
Inductive Components : Type :=
| CompleteData (numElements : Z)
| Complete (flag : bool).

(** [const PxrUsdMayaPrimReaderContext*]. *)
Inductive ContextPtr : Type :=
| nullContext
| theContext.

(** *** [_MayaTokens] and [_tokens] *)

Module MayaTokens.
Local Open Scope string_scope.
Definition dagPoseType : MString := "dagPose".
Definition groupIdType : MString := "groupId".
Definition groupPartsType : MString := "groupParts".
Definition jointType : MString := "joint".
Definition meshType : MString := "mesh".
Definition skinClusterType : MString := "skinCluster".
Definition transformType : MString := "transform".
Definition bindPose : MString := "bindPose".
Definition bindPreMatrix : MString := "bindPreMatrix".
Definition geomMatrix : MString := "geomMatrix".
Definition groupId : MString := "groupId".
Definition inheritsTransform : MString := "inheritsTransform".
Definition inputComponents : MString := "inputComponents".
Definition input : MString := "input".
Definition inputGeometry : MString := "inputGeometry".
Definition inMesh : MString := "inMesh".
Definition intermediateObject : MString := "intermediateObject".
Definition instObjGroups : MString := "instObjGroups".
Definition matrix : MString := "matrix".
Definition members : MString := "members".
Definition message : MString := "message".
Definition objectGroups : MString := "objectGroups".
Definition objectGroupId : MString := "objectGroupId".
Definition outputGeometry : MString := "outputGeometry".
Definition outMesh : MString := "outMesh".
Definition parents : MString := "parents".
Definition radius : MString := "radius".
Definition segmentScaleCompensate : MString := "segmentScaleCompensate".
Definition skinClusterGroupId : MString := "skinClusterGroupId".
Definition skinClusterGroupParts : MString := "skinClusterGroupParts".
Definition Skeleton : MString := "Skeleton".
Definition weightList : MString := "weightList".
Definition world : MString := "world".
Definition worldMatrix : MString := "worldMatrix".
Definition xformMatrix : MString := "xformMatrix".
Definition translates : list MString :=
  ["translateX"; "translateY"; "translateZ"].
Definition rotates : list MString := ["rotateX"; "rotateY"; "rotateZ"].
Definition scales : list MString := ["scaleX"; "scaleY"; "scaleZ"].
End MayaTokens.

Section Translator.
Context {sdf : SdfPathOps} {gf : GfOps}.

Inductive PlugValue : Type :=
| VBool (b : bool)
| VDouble (d : double)
| VMatrix (m : GfMatrix4d)
| VComponentList (l : list Components).

(** The requests the translator makes of its host. *)
Inductive HostCall : Type :=
| Context_GetMayaNode (path : SdfPath) (findAncestors : bool)
| Context_RegisterNewMayaNode (path : MString) (node : MObject)
| TranslatorUtil_CreateNode (path : SdfPath) (nodeTypeName : MString)
    (parentNode : MObject) (context : ContextPtr)
| Util_setPlugValue (node : MObject) (attr : MString) (v : PlugValue)
| Util_setPlugMatrix (node : MObject) (attr : MString) (m : GfMatrix4d)
| Util_setPlugMatrix_plug (m : GfMatrix4d) (plug : MPlug)
| MFn_setObject (fn : MFnSet) (o : MObject)
| MFnDependencyNode_name (o : MObject)
| MFnDependencyNode_findPlug (o : MObject) (attr : MString)
| MObject_apiType (o : MObject)
| MPlug_isKeyable (plug : MPlug)
| MPlug_setKeyable (plug : MPlug) (keyable : bool)
| MPlug_setNumElements (plug : MPlug) (n : Z)
| MPlug_elementByLogicalIndex (plug : MPlug) (index : Z)
| MPlug_setValue (plug : MPlug) (v : PlugValue)
| MPlug_connectedTo (plug : MPlug) (asDst asSrc : bool)
| MFnAnimCurve_create (plug : MPlug)
| MFnAnimCurve_addKeys (curve : MObject) (times values : list double)
| MFnComponentListData_add (c : Components)
| MDGModifier_createNode (type : MString)
| MDGModifier_renameNode (node : MObject) (name : MString)
| MDGModifier_connect (src dst : MPlug)
| MDGModifier_disconnect (src dst : MPlug)
| MDGModifier_doIt
| MFnMesh_getPath (mesh : MObject)
| MFnMesh_numVertices (mesh : MObject)
| MFnMesh_copy (mesh parent : MObject)
| MDagPath_getAPathTo (node : MObject)
| MDagPath_extendToShape (path : MDagPath)
| MDagPath_node (path : MDagPath)
| MDagPath_transform (path : MDagPath)
| MFnSkinCluster_setWeights (skinCluster : MObject) (path : MDagPath)
    (components : Components) (influenceIndices : list Z)
    (weights : list double) (normalize : bool).

(** What the host answers: the [MStatus] or boolean result of the call and
    whatever it returns besides; a call uses the fields it has. *)
Record Reply : Type := mkReply {
  r_status : bool;
  r_obj : MObject;
  r_name : MString;
  r_num : Z;
  r_plugs : list MPlug;
  r_type : MFnType
}.

(** A run of translator code: it returns, or asks the host and goes on with
    the answer, or steps outside defined behaviour (an element access out of
    range, a null context dereferenced). *)
Inductive Prog (R : Type) : Type :=
| Ret (r : R)
| Call (c : HostCall) (k : Reply -> Prog R)
| Undefined.
Arguments Ret {R} r.
Arguments Call {R} c k.
Arguments Undefined {R}.

Fixpoint bind {A B : Type} (p : Prog A) (f : A -> Prog B) : Prog B :=
  match p with
  | Ret a => f a
  | Call c k => Call c (fun r => bind (k r) f)
  | Undefined => Undefined
  end.

#[export] Instance Prog_ret : MRet Prog := @Ret.
#[export] Instance Prog_bind : MBind Prog := fun A B f p => bind p f.

Definition call (c : HostCall) : Prog Reply := Call c Ret.

Definition lift {A : Type} (o : option A) : Prog A :=
  match o with Some a => Ret a | None => Undefined end.

(** [CHECK_MSTATUS_AND_RETURN(status, false)] after a call, and
    [if(!f(...)) return false;]. *)
Definition checked (c : HostCall) (k : Reply -> Prog bool) : Prog bool :=
  Call c (fun r => if r_status r then k r else Ret false).

Definition require (p : Prog bool) (k : Prog bool) : Prog bool :=
  bind p (fun ok => if ok then k else Ret false).

(** [context->...]. *)
Definition deref {R : Type} (context : ContextPtr) (p : Prog R) : Prog R :=
  match context with theContext => p | nullContext => Undefined end.

(** A loop over the elements of a list whose body can leave the function
    with [return false]. *)
Fixpoint for_all {A : Type} (l : list A) (body : A -> Prog bool) : Prog bool :=
  match l with
  | [] => Ret true
  | a :: l' => bind (body a) (fun ok => if ok then for_all l' body else Ret false)
  end.

(** The same with a local variable carried through the iterations. *)
Fixpoint for_each {A S : Type} (l : list A) (body : A -> S -> Prog (bool * S))
    (s : S) : Prog (bool * S) :=
  match l with
  | [] => Ret (true, s)
  | a :: l' =>
      bind (body a s)
           (fun r => if r.1 then for_each l' body r.2 else Ret (false, r.2))
  end.

(** [(0, l[0]), (1, l[1]), ...]: the index a loop runs over with its element. *)
Fixpoint indexed_from {A : Type} (i : Z) (l : list A) : list (Z * A) :=
  match l with
  | [] => []
  | a :: l' => (i, a) :: indexed_from (i + 1) l'
  end.

Definition indexed {A : Type} (l : list A) : list (Z * A) :=
  indexed_from 0 l.

(** Running a program against a host: the host answers every call from its
    state; the answered calls are recorded in order. *)
Definition Event : Type := HostCall * Reply.

Fixpoint run {W R : Type} (host : HostCall -> W -> Reply * W) (p : Prog R)
    (w : W) : option (R * W * list Event) :=
  match p with
  | Ret r => Some (r, w, [])
  | Call c k =>
      let (reply, w1) := host c w in
      match run host (k reply) w1 with
      | Some (r, w2, trace) => Some (r, w2, (c, reply) :: trace)
      | None => None
      end
  | Undefined => None
  end.

Notation "'CHECK' r ← c ; k" := (checked c (fun r => k))
  (at level 20, r name, c at level 100, k at level 200, only parsing).
Notation "'REQUIRE' p ; k" := (require p k)
  (at level 20, p at level 100, k at level 200, only parsing).

(** *** USD-side inputs *)

Inductive UsdTimeCode : Type :=
| Default
| TimeCode (t : double).

(** [UsdTimeCode::EarliestTime().GetValue()]: the lowest finite double. *)
Definition EarliestTime : double := S754_finite true (2 ^ 53 - 1) 971.

Record UsdSkelAnimQuery : Type := {
  GetJointTransformTimeSamples : list double;
  GetJointTransformTimeSamplesInInterval : double -> double -> list double
}.

(** A skeleton query: [sq_valid] is its [operator bool], [GetParents] the
    parent indices of [GetTopology()], [GetAnimQuery] is [None] when the
    skeleton has no valid animation query; a [Compute...] function yields
    [None] when the call returns false. *)
Record UsdSkelSkeletonQuery : Type := {
  sq_valid : bool;
  GetPrimPath : SdfPath;
  GetJointOrder : list TfToken;
  GetParents : list Z;
  GetAnimQuery : option UsdSkelAnimQuery;
  ComputeJointSkelTransforms : UsdTimeCode -> bool -> option (list GfMatrix4d);
  ComputeJointLocalTransforms : UsdTimeCode -> bool -> option (list GfMatrix4d);
  ComputeAnimTransform : UsdTimeCode -> option GfMatrix4d
}.

(** [skelQuery.GetTopology().GetParent(i)]. *)
Definition GetParent (skelQuery : UsdSkelSkeletonQuery) (i : Z) : option Z :=
  at_index (GetParents skelQuery) i.

Record UsdSkelSkinningQuery : Type := {
  skq_valid : bool;
  ComputeVaryingJointInfluences : Z -> option (list Z * list float);
  GetNumInfluencesPerComponent : Z;
  GetGeomBindTransform : GfMatrix4d
}.

Record UsdPrim : Type := {
  prim_valid : bool;
  GetPath : SdfPath
}.

Record PxrUsdMayaPrimReaderArgs : Type := {
  GetReadAnimData : bool;
  HasCustomFrameRange : bool;
  GetStartTime : double;
  GetEndTime : double
}.

(** *** Joints *)

(** Set keyframes on [depNode] using [values] keyed at [times]. *)
Definition _SetAnimPlugData (depNode : MObject) (attr : MString)
    (values times : list double) (context : ContextPtr) : Prog bool :=
  CHECK _ ← MFnDependencyNode_findPlug depNode attr;
  let plug := Plug depNode attr in
  keyable ← call (MPlug_isKeyable plug);
  REQUIRE (if r_status keyable then Ret true
           else CHECK _ ← MPlug_setKeyable plug true; Ret true);
  CHECK created ← MFnAnimCurve_create plug;
  let animObj := r_obj created in
  CHECK _ ← MFnAnimCurve_addKeys animObj times values;
  match context with
  | theContext =>
      name ← call (MFnDependencyNode_name animObj);
      _ ← call (Context_RegisterNewMayaNode (r_name name) animObj);
      Ret true
  | nullContext => Ret true
  end.

(** One channel of the decomposed transforms: [dflt] where the
    decomposition failed. *)
Definition channel (c : Z) (dflt : double)
    (pick : GfVec3d * GfVec3d * GfVec3d -> GfVec3d)
    (xforms : list GfMatrix4d) : option (list double) :=
  mapM (fun xform =>
          match ConvertUsdMatrixToComponents xform with
          | Some trs => GfVec3d_at (pick trs) c
          | None => Some dflt
          end) xforms.

(** Set animation on [transformNode]: [xforms] holds the transform at each
    of [times]. *)
Definition _SetTransformAnim (transformNode : MObject)
    (xforms : list GfMatrix4d) (times : list double) (context : ContextPtr)
    : Prog bool :=
  if negb (bool_decide (length xforms = length times)) then Ret false
  else match xforms with
  | [] => Ret true
  | front :: _ =>
    let numSamples := length times in
    if bool_decide (1 < numSamples)%nat then
      for_all (indexed (zip MayaTokens.translates
                          (zip MayaTokens.rotates MayaTokens.scales)))
        (fun '(c, (translate, (rotate, scale))) =>
           translates ← lift (channel c (Float64.of_Z 0) (fun trs => trs.1.1) xforms);
           rotates ← lift (channel c (Float64.of_Z 0) (fun trs => trs.1.2) xforms);
           scales ← lift (channel c (Float64.of_Z 1) (fun trs => trs.2) xforms);
           REQUIRE _SetAnimPlugData transformNode translate translates times context;
           REQUIRE _SetAnimPlugData transformNode rotate rotates times context;
           REQUIRE _SetAnimPlugData transformNode scale scales times context;
           Ret true)
    else
      match ConvertUsdMatrixToComponents front with
      | Some (t, r, s) =>
          for_all (indexed (zip MayaTokens.translates
                              (zip MayaTokens.rotates MayaTokens.scales)))
            (fun '(c, (translate, (rotate, scale))) =>
               tc ← lift (GfVec3d_at t c);
               rc ← lift (GfVec3d_at r c);
               sc ← lift (GfVec3d_at s c);
               CHECK _ ← Util_setPlugValue transformNode translate (VDouble tc);
               CHECK _ ← Util_setPlugValue transformNode rotate (VDouble rc);
               CHECK _ ← Util_setPlugValue transformNode scale (VDouble sc);
               Ret true)
      | None => Ret true
      end
  end.

Definition _GetJointAnimTimeSamples (skelQuery : UsdSkelSkeletonQuery)
    (args : PxrUsdMayaPrimReaderArgs) : list double :=
  let times :=
    if GetReadAnimData args then
      match GetAnimQuery skelQuery with
      | Some animQuery =>
          if HasCustomFrameRange args
          then GetJointTransformTimeSamplesInInterval animQuery
                 (GetStartTime args) (GetEndTime args)
          else GetJointTransformTimeSamples animQuery
      | None => []
      end
    else [] in
  match times with
  | [] => [EarliestTime]
  | _ => times
  end.

(** The body of the loop of [_CreateJointNodes], for the joint [name] at
    index [i] of the joint order. *)
Definition create_joint (skelPath : SdfPath) (context : ContextPtr) (i : Z)
    (name : TfToken) (jointNodes : list MObject)
    : Prog (bool * list MObject) :=
  let jointPath := SdfPath_of_token name in
  if IsEmpty jointPath then Ret (true, jointNodes)
  else
    let absJointPath := AppendPath skelPath jointPath in
    found ← deref context
              (call (Context_GetMayaNode (GetParentPath absJointPath) true));
    let parentJoint := r_obj found in
    if isNull parentJoint then Ret (false, jointNodes)
    else
      created ← call (TranslatorUtil_CreateNode absJointPath
                        MayaTokens.jointType parentJoint context);
      jointNodes ← lift (set_index jointNodes i (r_obj created));
      Ret (r_status created, jointNodes).

(** Create joint nodes for each joint in the joint order of [skelQuery];
    [jointNodes] is the vector the caller passes in, and the result holds
    it as the function leaves it. *)
Definition _CreateJointNodes (skelQuery : UsdSkelSkeletonQuery)
    (skelPath : SdfPath) (context : ContextPtr) (jointNodes : list MObject)
    : Prog (bool * list MObject) :=
  let jointNames := GetJointOrder skelQuery in
  let numJoints := length jointNames in
  let jointNodes := resize numJoints kNullObj jointNodes in
  for_each (indexed jointNames)
    (fun '(i, name) => create_joint skelPath context i name)
    jointNodes.

(** [0.1] as a double: 7205759403792794 * 2^-56. *)
Definition double_0_1 : double := S754_finite false 7205759403792794 (-56).

(** [parent >= 0 && static_cast<size_t>(parent) < numJoints]. *)
Definition valid_parent (parent : Z) (numJoints : nat) : bool :=
  bool_decide (0 <= parent) && bool_decide (parent < Z.of_nat numJoints).

(** The body of the first loop of [_SetJointRadii], for joint [i]: the
    radius kept for its parent becomes a tenth of the length of the bone
    from the parent to [i], and the parent counts one more child. *)
Definition bone_step (skelQuery : UsdSkelSkeletonQuery) (numJoints : nat)
    (restXforms : list GfMatrix4d) (i : Z) (state : list float * list Z)
    : option (list float * list Z) :=
  let '(radii, childCounts) := state in
  xform ← at_index restXforms i;
  let pivot := ExtractTranslation xform in
  parent ← GetParent skelQuery i;
  if valid_parent parent numJoints then
    parentXform ← at_index restXforms parent;
    let parentPivot := ExtractTranslation parentXform in
    let length := GetLength (GfVec3d_minus pivot parentPivot) in
    let radius := Float64.mul length double_0_1 in
    radii ← set_index radii parent (Float64.to_float radius);
    count ← at_index childCounts parent;
    childCounts ← set_index childCounts parent (count + 1);
    Some (radii, childCounts)
  else Some (radii, childCounts).

(** The first loop of [_SetJointRadii]: a radius and a child count per
    joint. *)
Definition bone_radii (skelQuery : UsdSkelSkeletonQuery) (numJoints : nat)
    (restXforms : list GfMatrix4d) : option (list float * list Z) :=
  for_range numJoints 0 (bone_step skelQuery numJoints restXforms)
    (replicate numJoints (Float32.of_Z 1), replicate numJoints 0).

(** The radius the second loop resolves for joint [i]. *)
Definition resolved_radius (skelQuery : UsdSkelSkeletonQuery) (numJoints : nat)
    (radii : list float) (childCounts : list Z) (i : Z) : option double :=
  count ← at_index childCounts i;
  if bool_decide (0 < count) then
    r ← at_index radii i;
    Some (Float64.of_float (Float32.div r (Float32.of_Z count)))
  else
    parent ← GetParent skelQuery i;
    if valid_parent parent numJoints
    then Float64.of_float <$> at_index radii parent
    else Some (Float64.of_Z 1).

(** Set the radius of joint nodes in proportion to the average length of
    each child bone. *)
Definition _SetJointRadii (skelQuery : UsdSkelSkeletonQuery)
    (jointNodes : list MObject) (restXforms : list GfMatrix4d) : Prog bool :=
  let numJoints := length jointNodes in
  '(radii, childCounts) ← lift (bone_radii skelQuery numJoints restXforms);
  done ← for_each (indexed jointNodes)
    (fun '(i, node) radii =>
       attached ← call (MFn_setObject FnDependencyNode node);
       if r_status attached then
         radius ← lift (resolved_radius skelQuery numJoints radii childCounts i);
         radii ← lift (set_index radii i (Float64.to_float radius));
         set ← call (Util_setPlugValue node MayaTokens.radius (VDouble radius));
         Ret (r_status set, radii)
       else Ret (true, radii))
    radii;
  Ret done.1.

(** Set rest state properties of [jointNodes] from the joints of
    [skelQuery]. *)
Definition _CopyJointRestStatesFromSkel (skelQuery : UsdSkelSkeletonQuery)
    (jointNodes : list MObject) : Prog bool :=
  let numJoints := length jointNodes in
  match ComputeJointSkelTransforms skelQuery Default true with
  | None => Ret false
  | Some restXforms =>
      if negb (bool_decide (length restXforms = numJoints)) then Ret false
      else
        REQUIRE for_all (indexed jointNodes)
          (fun '(i, node) =>
             attached ← call (MFn_setObject FnDependencyNode node);
             if r_status attached then
               xform ← lift (at_index restXforms i);
               CHECK _ ← Util_setPlugMatrix node MayaTokens.bindPose xform;
               CHECK _ ← Util_setPlugValue node
                           MayaTokens.segmentScaleCompensate (VBool false);
               Ret true
             else Ret true);
        REQUIRE _SetJointRadii skelQuery jointNodes restXforms;
        Ret true
  end.

(** Apply animation (joints and root anim transform) from [skelQuery] onto
    [jointNodes]. *)
Definition _CopyAnimFromSkel (skelQuery : UsdSkelSkeletonQuery)
    (skelTransform : MObject) (jointNodes : list MObject)
    (args : PxrUsdMayaPrimReaderArgs) (context : ContextPtr) : Prog bool :=
  let usdTimes := _GetJointAnimTimeSamples skelQuery args in
  let mayaTimes := usdTimes in
  REQUIRE match GetAnimQuery skelQuery with
          | Some animQuery =>
              let xforms :=
                (fun t => default GfMatrix4d_identity
                            (ComputeAnimTransform skelQuery (TimeCode t)))
                  <$> usdTimes in
              CHECK _ ← MFn_setObject FnDependencyNode skelTransform;
              REQUIRE _SetTransformAnim skelTransform xforms mayaTimes context;
              Ret true
          | None => Ret true
          end;
  match mapM (fun t => ComputeJointLocalTransforms skelQuery (TimeCode t) false)
             usdTimes with
  | None => Ret false
  | Some samples =>
      for_all (indexed jointNodes)
        (fun '(jointIdx, node) =>
           attached ← call (MFn_setObject FnDependencyNode node);
           if negb (r_status attached) then Ret true
           else
             xforms ← lift (mapM (fun sample => at_index sample jointIdx) samples);
             REQUIRE _SetTransformAnim node xforms mayaTimes context;
             Ret true)
  end.

(** [PxrUsdMayaTranslatorSkel::CreateJoints]; [joints] is [None] for a null
    pointer, and the result holds the vector as the function leaves it. *)
Definition CreateJoints (skelQuery : UsdSkelSkeletonQuery)
    (parentNode : MObject) (args : PxrUsdMayaPrimReaderArgs)
    (context : ContextPtr) (joints : option (list MObject))
    : Prog (bool * option (list MObject)) :=
  if negb (sq_valid skelQuery) then Ret (false, joints)
  else match joints with
  | None => Ret (false, None)
  | Some jointVector =>
      let skelPath := AppendChild (GetPrimPath skelQuery) MayaTokens.Skeleton in
      created ← call (TranslatorUtil_CreateNode skelPath MayaTokens.transformType
                        parentNode context);
      if negb (r_status created) then Ret (false, Some jointVector)
      else
        let skelTransform := r_obj created in
        '(ok, jointVector) ← _CreateJointNodes skelQuery skelPath context jointVector;
        if negb ok then Ret (false, Some jointVector)
        else
          ok ← (REQUIRE _CopyJointRestStatesFromSkel skelQuery jointVector;
                _CopyAnimFromSkel skelQuery skelTransform jointVector args context);
          Ret (ok, Some jointVector)
  end.

(** The absolute paths of the joints of the joint order that have a path,
    in joint order. *)
Definition joint_paths (skelQuery : UsdSkelSkeletonQuery) (skelPath : SdfPath)
    : list SdfPath :=
  omap (fun name =>
          let jointPath := SdfPath_of_token name in
          if IsEmpty jointPath then None
          else Some (AppendPath skelPath jointPath))
       (GetJointOrder skelQuery).

(** The entries of the vector [nodes] at the joints that have a path. *)
Definition joint_nodes (skelQuery : UsdSkelSkeletonQuery)
    (nodes : list MObject) : list MObject :=
  omap (fun '(i, name) =>
          if IsEmpty (SdfPath_of_token name) then None else at_index nodes i)
       (indexed (GetJointOrder skelQuery)).

(** The radius the documentation of [_SetJointRadii] describes for joint
    [i]: 0.1 times the average length of the bones to its children, the
    joints whose parent is [i]. *)
Definition child_bone_lengths (skelQuery : UsdSkelSkeletonQuery)
    (restXforms : list GfMatrix4d) (i : Z) : list double :=
  omap (fun '(child, xform) =>
          parent ← GetParent skelQuery child;
          pivot ← ExtractTranslation <$> at_index restXforms i;
          if bool_decide (parent = i)
          then Some (GetLength (GfVec3d_minus (ExtractTranslation xform) pivot))
          else None)
       (indexed restXforms).

Definition average_bone_radius (skelQuery : UsdSkelSkeletonQuery)
    (restXforms : list GfMatrix4d) (i : Z) : double :=
  let lengths := child_bone_lengths skelQuery restXforms i in
  Float64.mul double_0_1
    (Float64.div (foldl Float64.add (Float64.of_Z 0) lengths)
                 (Float64.of_Z (Z.of_nat (length lengths)))).

(** *** Bind pose *)

(** The per-joint wiring of [CreateBindPose], for joint [i] of [numJoints]
    on the dagPose node [bindPoseNode]. *)
Definition wire_joint (skelQuery : UsdSkelSkeletonQuery)
    (bindPoseNode : MObject) (numJoints : nat) (xforms : list GfMatrix4d)
    (i : Z) (joint : MObject) : Prog bool :=
  let members := Plug bindPoseNode MayaTokens.members in
  let world := Plug bindPoseNode MayaTokens.world in
  let worldMatrix := Plug bindPoseNode MayaTokens.worldMatrix in
  let xformMatrix := Plug bindPoseNode MayaTokens.xformMatrix in
  let parents := Plug bindPoseNode MayaTokens.parents in
  attached ← call (MFn_setObject FnDependencyNode joint);
  if r_status attached then
    CHECK _ ← MFnDependencyNode_findPlug joint MayaTokens.message;
    let jointMessage := Plug joint MayaTokens.message in
    CHECK _ ← MPlug_elementByLogicalIndex members (u32 i);
    let membersI := Element members (u32 i) in
    CHECK _ ← MDGModifier_connect jointMessage membersI;
    CHECK _ ← MFnDependencyNode_findPlug joint MayaTokens.bindPose;
    let jointBindPose := Plug joint MayaTokens.bindPose in
    CHECK _ ← MPlug_elementByLogicalIndex worldMatrix (u32 i);
    let worldMatrixI := Element worldMatrix (u32 i) in
    CHECK _ ← MDGModifier_connect jointBindPose worldMatrixI;
    CHECK _ ← MPlug_elementByLogicalIndex parents (u32 i);
    let parentsI := Element parents (u32 i) in
    parentIdx ← lift (GetParent skelQuery i);
    REQUIRE (if valid_parent parentIdx numJoints then
               CHECK _ ← MPlug_elementByLogicalIndex members (u32 parentIdx);
               let parentMember := Element members (u32 parentIdx) in
               CHECK _ ← MDGModifier_connect parentMember parentsI;
               Ret true
             else
               CHECK _ ← MDGModifier_connect world parentsI;
               Ret true);
    CHECK _ ← MPlug_elementByLogicalIndex xformMatrix (u32 i);
    let xformMatrixI := Element xformMatrix (u32 i) in
    xform ← lift (at_index xforms i);
    CHECK _ ← Util_setPlugMatrix_plug xform xformMatrixI;
    Ret true
  else Ret true.

(** [PxrUsdMayaTranslatorSkel::CreateBindPose]; [bindPoseNode] is [None]
    for a null pointer, and the result holds what the pointer refers to when
    the function leaves. *)
Definition CreateBindPose (skelQuery : UsdSkelSkeletonQuery)
    (joints : list MObject) (context : ContextPtr)
    (bindPoseNode : option MObject) : Prog (bool * option MObject) :=
  if negb (sq_valid skelQuery) then Ret (false, bindPoseNode)
  else match bindPoseNode with
  | None => Ret (false, None)
  | Some _ =>
      created ← call (MDGModifier_createNode MayaTokens.dagPoseType);
      let bindPoseNode := r_obj created in
      ok ← (if negb (r_status created) then Ret false
            else
              CHECK _ ← MDGModifier_renameNode bindPoseNode MayaTokens.bindPose;
              CHECK _ ← MFn_setObject FnDependencyNode bindPoseNode;
              name ← call (MFnDependencyNode_name bindPoseNode);
              _ ← deref context
                    (call (Context_RegisterNewMayaNode (r_name name) bindPoseNode));
              let numJoints := length joints in
              let size := u32 (Z.of_nat numJoints) in
              CHECK _ ← MFnDependencyNode_findPlug bindPoseNode MayaTokens.members;
              let members := Plug bindPoseNode MayaTokens.members in
              CHECK _ ← MPlug_setNumElements members size;
              CHECK _ ← MFnDependencyNode_findPlug bindPoseNode MayaTokens.world;
              CHECK _ ← MFnDependencyNode_findPlug bindPoseNode MayaTokens.worldMatrix;
              let worldMatrix := Plug bindPoseNode MayaTokens.worldMatrix in
              CHECK _ ← MPlug_setNumElements worldMatrix size;
              CHECK _ ← MFnDependencyNode_findPlug bindPoseNode MayaTokens.xformMatrix;
              let xformMatrix := Plug bindPoseNode MayaTokens.xformMatrix in
              CHECK _ ← MPlug_setNumElements xformMatrix size;
              CHECK _ ← MFnDependencyNode_findPlug bindPoseNode MayaTokens.parents;
              let parents := Plug bindPoseNode MayaTokens.parents in
              CHECK _ ← MPlug_setNumElements parents size;
              match ComputeJointLocalTransforms skelQuery Default true with
              | None => Ret false
              | Some xforms =>
                  REQUIRE for_all (indexed joints)
                    (fun '(i, joint) =>
                       wire_joint skelQuery bindPoseNode numJoints xforms i joint);
                  CHECK _ ← MDGModifier_doIt;
                  CHECK _ ← Util_setPlugValue bindPoseNode MayaTokens.bindPose
                              (VBool true);
                  Ret true
              end);
      Ret (ok, Some bindPoseNode)
  end.

(** *** Skin cluster *)

Definition _SetVaryingJointInfluences (meshFn : MObject) (skinCluster : MObject)
    (joints : list MObject) (indices : list Z) (weights : list float)
    (numInfluencesPerPoint : Z) (numPoints : Z) : Prog bool :=
  if bool_decide (length joints = 0%nat) then Ret true
  else
    CHECK _ ← MFnMesh_getPath meshFn;
    let dagPath := PathOfMesh meshFn in
    CHECK _ ← MFn_setObject FnSkinCluster skinCluster;
    let numJoints := u32 (Z.of_nat (length joints)) in
    vertOrderedWeights ←
      lift (SkinWeights.vertOrderedWeights numJoints indices weights
              numInfluencesPerPoint numPoints);
    let influenceIndices := SkinWeights.influenceIndices numJoints in
    let components := CompleteData numPoints in
    CHECK _ ← MFnSkinCluster_setWeights skinCluster dagPath components
                influenceIndices vertOrderedWeights false;
    Ret true.

Definition _ComputeAndSetJointInfluences (skinningQuery : UsdSkelSkinningQuery)
    (joints : list MObject) (skinCluster : MObject) (shapeToSkin : MObject)
    : Prog bool :=
  CHECK _ ← MFn_setObject FnMesh shapeToSkin;
  CHECK counted ← MFnMesh_numVertices shapeToSkin;
  let numPoints := u32 (r_num counted) in
  match ComputeVaryingJointInfluences skinningQuery numPoints with
  | Some (indices, weights) =>
      _SetVaryingJointInfluences shapeToSkin skinCluster joints indices weights
        (GetNumInfluencesPerComponent skinningQuery) numPoints
  | None => Ret false
  end.

(** Create a copy of mesh [inputMesh] beneath [parent], for use as an input
    mesh for deformers. *)
Definition _CreateRestMesh (inputMesh : MObject) (parent : MObject)
    : Prog (bool * MObject) :=
  attached ← call (MFn_setObject FnMesh inputMesh);
  if negb (r_status attached) then Ret (false, kNullObj)
  else
    copied ← call (MFnMesh_copy inputMesh parent);
    let restMesh := r_obj copied in
    ok ← (if negb (r_status copied) then Ret false
          else
            name ← call (MFnDependencyNode_name inputMesh);
            let restMeshName := (r_name name ++ "_rest")%string in
            CHECK _ ← MDGModifier_renameNode restMesh restMeshName;
            CHECK _ ← MDGModifier_doIt;
            CHECK _ ← Util_setPlugValue restMesh MayaTokens.intermediateObject
                        (VBool true);
            Ret true);
    Ret (ok, restMesh).

(** Clear any incoming connections on [plug]. *)
Definition _ClearIncomingConnections (plug : MPlug) : Prog bool :=
  connections ← call (MPlug_connectedTo plug true false);
  if r_status connections then
    REQUIRE for_all (r_plugs connections)
      (fun connection =>
         CHECK _ ← MDGModifier_disconnect plug connection; Ret true);
    CHECK _ ← MDGModifier_doIt;
    Ret true
  else Ret true.

(** Configure the transform node of a skinned object. *)
Definition _ConfigureSkinnedObjectTransform
    (skinningQuery : UsdSkelSkinningQuery) (transform : MObject) : Prog bool :=
  CHECK _ ← MFn_setObject FnDependencyNode transform;
  CHECK _ ← Util_setPlugValue transform MayaTokens.inheritsTransform
              (VBool false);
  match ConvertUsdMatrixToComponents (GetGeomBindTransform skinningQuery) with
  | Some (t, r, s) =>
      for_all [(t, MayaTokens.translates); (r, MayaTokens.rotates);
               (s, MayaTokens.scales)]
        (fun '(first, second) =>
           for_all (indexed second)
             (fun '(c, attr) =>
                CHECK _ ← MFnDependencyNode_findPlug transform attr;
                let plug := Plug transform attr in
                REQUIRE _ClearIncomingConnections plug;
                value ← lift (GfVec3d_at first c);
                CHECK _ ← MPlug_setValue plug (VDouble value);
                Ret true))
  | None => Ret true
  end.

(** The rigging of [CreateSkinCluster] once the mesh [shapeToSkin] below
    [shapeDagPath] has been resolved. *)
Definition rig_skin_cluster (skelQuery : UsdSkelSkeletonQuery)
    (skinningQuery : UsdSkelSkinningQuery) (joints : list MObject)
    (context : ContextPtr) (bindPose : MObject) (shapeDagPath : MDagPath)
    (shapeToSkin : MObject) : Prog bool :=
  CHECK found ← MDagPath_transform shapeDagPath;
  let parentTransform := r_obj found in
  made ← _CreateRestMesh shapeToSkin parentTransform;
  let restMesh := made.2 in
  if negb made.1 then Ret false
  else
  REQUIRE _ConfigureSkinnedObjectTransform skinningQuery parentTransform;
  CHECK created ← MDGModifier_createNode MayaTokens.skinClusterType;
  let skinCluster := r_obj created in
  CHECK created ← MDGModifier_createNode MayaTokens.groupIdType;
  let groupId := r_obj created in
  CHECK _ ← MDGModifier_renameNode groupId MayaTokens.skinClusterGroupId;
  CHECK created ← MDGModifier_createNode MayaTokens.groupPartsType;
  let groupParts := r_obj created in
  CHECK _ ← MDGModifier_renameNode groupParts MayaTokens.skinClusterGroupParts;
  CHECK _ ← MFn_setObject FnDependencyNode groupId;
  CHECK _ ← MFn_setObject FnDependencyNode groupParts;
  CHECK _ ← MFn_setObject FnDependencyNode restMesh;
  CHECK _ ← MFn_setObject FnDependencyNode shapeToSkin;
  CHECK _ ← MFn_setObject FnDependencyNode skinCluster;
  (* Register all new nodes on the context. *)
  name ← call (MFnDependencyNode_name restMesh);
  _ ← deref context (call (Context_RegisterNewMayaNode (r_name name) restMesh));
  name ← call (MFnDependencyNode_name skinCluster);
  _ ← deref context (call (Context_RegisterNewMayaNode (r_name name) skinCluster));
  name ← call (MFnDependencyNode_name groupId);
  _ ← deref context (call (Context_RegisterNewMayaNode (r_name name) groupId));
  name ← call (MFnDependencyNode_name groupParts);
  _ ← deref context (call (Context_RegisterNewMayaNode (r_name name) groupParts));
  (* set groupParts.inputComponents = vtx[*] *)
  let vertComponents := Complete true in
  CHECK _ ← MFnComponentListData_add vertComponents;
  let componentList := [vertComponents] in
  CHECK _ ← MFnDependencyNode_findPlug groupParts MayaTokens.inputComponents;
  let inputComponentsPlug := Plug groupParts MayaTokens.inputComponents in
  CHECK _ ← MPlug_setValue inputComponentsPlug (VComponentList componentList);
  (* Connect restMesh.outMesh -> groupParts->inputGeometry *)
  CHECK _ ← MFnDependencyNode_findPlug restMesh MayaTokens.outMesh;
  let restMeshOutMesh := Plug restMesh MayaTokens.outMesh in
  CHECK _ ← MFnDependencyNode_findPlug groupParts MayaTokens.inputGeometry;
  let groupPartsInputGeometry := Plug groupParts MayaTokens.inputGeometry in
  CHECK _ ← MDGModifier_connect restMeshOutMesh groupPartsInputGeometry;
  CHECK _ ← MFnDependencyNode_findPlug groupId MayaTokens.groupId;
  let groupIdGroupId := Plug groupId MayaTokens.groupId in
  (* Connect groupId.groupId -> groupParts.groupId *)
  CHECK _ ← MFnDependencyNode_findPlug groupParts MayaTokens.groupId;
  let groupPartsGroupId := Plug groupParts MayaTokens.groupId in
  CHECK _ ← MDGModifier_connect groupIdGroupId groupPartsGroupId;
  (* connect groupId.groupId ->
       shapeToSkin.instObjGroups[0].objectGroups[0].objectGroupId;
     the status of this connection is not checked *)
  CHECK _ ← MFnDependencyNode_findPlug shapeToSkin MayaTokens.instObjGroups;
  let instObjGroups := Plug shapeToSkin MayaTokens.instObjGroups in
  CHECK _ ← MPlug_elementByLogicalIndex instObjGroups 0;
  let instObjGroups0 := Element instObjGroups 0 in
  let objectGroups := Child instObjGroups0 MayaTokens.objectGroups in
  CHECK _ ← MPlug_elementByLogicalIndex objectGroups 0;
  let objectGroups0 := Element objectGroups 0 in
  let objectGroupId := Child objectGroups0 MayaTokens.objectGroupId in
  _ ← call (MDGModifier_connect groupIdGroupId objectGroupId);
  CHECK _ ← MFnDependencyNode_findPlug skinCluster MayaTokens.input;
  let skinClusterInput := Plug skinCluster MayaTokens.input in
  CHECK _ ← MPlug_setNumElements skinClusterInput 1;
  CHECK _ ← MPlug_elementByLogicalIndex skinClusterInput 0;
  let skinClusterInput0 := Element skinClusterInput 0 in
  (* groupParts.outputGeometry -> skinCluster.input[0].inputGeometry *)
  let skinClusterInputGeometry :=
    Child skinClusterInput0 MayaTokens.inputGeometry in
  CHECK _ ← MFnDependencyNode_findPlug groupParts MayaTokens.outputGeometry;
  let groupPartsOutputGeometry := Plug groupParts MayaTokens.outputGeometry in
  CHECK _ ← MDGModifier_connect groupPartsOutputGeometry skinClusterInputGeometry;
  (* Connect groupId.groupId -> skinCluster.input[0].groupId *)
  let skinClusterGroupId := Child skinClusterInput0 MayaTokens.groupId in
  CHECK _ ← MDGModifier_connect groupIdGroupId skinClusterGroupId;
  (* Connect skinCluster.outputGeometry[0] -> shapeToSkin.inMesh *)
  CHECK _ ← MFnDependencyNode_findPlug skinCluster MayaTokens.outputGeometry;
  let skinClusterOutputGeometry := Plug skinCluster MayaTokens.outputGeometry in
  CHECK _ ← MPlug_elementByLogicalIndex skinClusterOutputGeometry 0;
  let skinClusterOutputGeometry0 := Element skinClusterOutputGeometry 0 in
  CHECK _ ← MFnDependencyNode_findPlug shapeToSkin MayaTokens.inMesh;
  let shapeToSkinInMesh := Plug shapeToSkin MayaTokens.inMesh in
  CHECK _ ← MDGModifier_connect skinClusterOutputGeometry0 shapeToSkinInMesh;
  (* Connect joint_i.worldMatrix[0] -> skinCluster.matrix[i]
     Set skinCluster.bindPreMatrix[i] = joint_i_skel_rest_xform *)
  match ComputeJointSkelTransforms skelQuery Default true with
  | None => Ret false
  | Some restXforms =>
  let size := u32 (Z.of_nat (length joints)) in
  CHECK _ ← MFnDependencyNode_findPlug skinCluster MayaTokens.matrix;
  let skinClusterMatrix := Plug skinCluster MayaTokens.matrix in
  CHECK _ ← MPlug_setNumElements skinClusterMatrix size;
  CHECK _ ← MFnDependencyNode_findPlug skinCluster MayaTokens.bindPreMatrix;
  let bindPreMatrix := Plug skinCluster MayaTokens.bindPreMatrix in
  CHECK _ ← MPlug_setNumElements bindPreMatrix size;
  REQUIRE for_all (indexed joints)
    (fun '(i, joint) =>
       attached ← call (MFn_setObject FnDependencyNode joint);
       if r_status attached then
         (* findPlug is called without a status here; the check that
            follows tests the status of the last checked call *)
         _ ← call (MFnDependencyNode_findPlug joint MayaTokens.worldMatrix);
         let jointWorldMatrix := Plug joint MayaTokens.worldMatrix in
         CHECK _ ← MPlug_elementByLogicalIndex jointWorldMatrix 0;
         let jointWorldMatrix0 := Element jointWorldMatrix 0 in
         CHECK _ ← MPlug_elementByLogicalIndex skinClusterMatrix (u32 i);
         let skinClusterMatrixI := Element skinClusterMatrix (u32 i) in
         CHECK _ ← MDGModifier_connect jointWorldMatrix0 skinClusterMatrixI;
         CHECK _ ← MPlug_elementByLogicalIndex bindPreMatrix (u32 i);
         let bindPreMatrixI := Element bindPreMatrix (u32 i) in
         restXform ← lift (at_index restXforms i);
         CHECK _ ← Util_setPlugMatrix_plug (GetInverse restXform) bindPreMatrixI;
         Ret true
       else Ret true);
  (* Connect dagPose.message -> skinCluster.bindPose, if any bind pose exists. *)
  REQUIRE (if negb (isNull bindPose) then
             CHECK _ ← MFn_setObject FnDependencyNode bindPose;
             CHECK _ ← MFnDependencyNode_findPlug bindPose MayaTokens.message;
             let bindPoseMessage := Plug bindPose MayaTokens.message in
             CHECK _ ← MFnDependencyNode_findPlug skinCluster MayaTokens.bindPose;
             let skinClusterBindPose := Plug skinCluster MayaTokens.bindPose in
             CHECK _ ← MDGModifier_connect bindPoseMessage skinClusterBindPose;
             Ret true
           else Ret true);
  CHECK _ ← MDGModifier_doIt;
  CHECK _ ← Util_setPlugMatrix skinCluster MayaTokens.geomMatrix
              (GetGeomBindTransform skinningQuery);
  _ComputeAndSetJointInfluences skinningQuery joints skinCluster shapeToSkin
  end.

(** [PxrUsdMayaTranslatorSkel::CreateSkinCluster].  An invalid
    [skinningQuery] raises a coding error and the function goes on. *)
Definition CreateSkinCluster (skelQuery : UsdSkelSkeletonQuery)
    (skinningQuery : UsdSkelSkinningQuery) (joints : list MObject)
    (primToSkin : UsdPrim) (args : PxrUsdMayaPrimReaderArgs)
    (context : ContextPtr) (bindPose : MObject) : Prog bool :=
  if negb (sq_valid skelQuery) then Ret false
  else
  let coding_error := negb (skq_valid skinningQuery) in
  if negb (prim_valid primToSkin) then Ret false
  else
  (* Resolve the input mesh. *)
  found ← deref context (call (Context_GetMayaNode (GetPath primToSkin) false));
  let objToSkin := r_obj found in
  if isNull objToSkin then Ret true
  else
  CHECK _ ← MDagPath_getAPathTo objToSkin;
  CHECK _ ← MDagPath_extendToShape (PathTo objToSkin);
  let shapeDagPath := ShapeBelow (PathTo objToSkin) in
  CHECK node ← MDagPath_node shapeDagPath;
  let shapeToSkin := r_obj node in
  type ← call (MObject_apiType shapeToSkin);
  if negb (bool_decide (r_type type = kMesh)) then Ret true
  else
  rig_skin_cluster skelQuery skinningQuery joints context bindPose
    shapeDagPath shapeToSkin.

(** *** What a run can do

    [exec p trace out]: the program [p] asks the calls of [trace], is given
    the replies recorded there, and ends with [Some r] when it returns [r]
    or with [None] when it leaves defined behaviour. *)
Inductive exec {R : Type} : Prog R -> list Event -> option R -> Prop :=
| exec_Ret (r : R) : exec (Ret r) [] (Some r)
| exec_Call (c : HostCall) (k : Reply -> Prog R) (reply : Reply)
    (trace : list Event) (out : option R) :
    exec (k reply) trace out -> exec (Call c k) ((c, reply) :: trace) out
| exec_Undefined : exec Undefined [] None.

(** The programs whose calls all satisfy [P]. *)
Inductive calls_only {R : Type} (P : HostCall -> Prop) : Prog R -> Prop :=
| calls_only_Ret (r : R) : calls_only P (Ret r)
| calls_only_Call (c : HostCall) (k : Reply -> Prog R) :
    P c -> (forall reply, calls_only P (k reply)) -> calls_only P (Call c k)
| calls_only_Undefined : calls_only P Undefined.

(** *** Reading a trace *)

(** The nodes made by [PxrUsdMayaTranslatorUtil::CreateNode] with type
    [type]: path, parent and new node of every successful call. *)
Definition created_nodes (type : MString) (trace : list Event)
    : list (SdfPath * MObject * MObject) :=
  omap (fun e : Event =>
          match e.1 with
          | TranslatorUtil_CreateNode path nodeTypeName parentNode _ =>
              if String.eqb nodeTypeName type && r_status e.2
              then Some (path, parentNode, r_obj e.2) else None
          | _ => None
          end) trace.

(** The lookups [context->GetMayaNode(path, true)] and their results. *)
Definition ancestor_lookups (trace : list Event) : list (SdfPath * MObject) :=
  omap (fun e : Event =>
          match e.1 with
          | Context_GetMayaNode path true => Some (path, r_obj e.2)
          | _ => None
          end) trace.

(** The nodes made by [MDGModifier::createNode]: type and new node. *)
Definition dg_created (trace : list Event) : list (MString * MObject) :=
  omap (fun e : Event =>
          match e.1 with
          | MDGModifier_createNode type =>
              if r_status e.2 then Some (type, r_obj e.2) else None
          | _ => None
          end) trace.

(** The renamings, source-to-destination connections and matrix plug
    values that succeeded. *)
Definition renamed (trace : list Event) : list (MObject * MString) :=
  omap (fun e : Event =>
          match e.1 with
          | MDGModifier_renameNode node name =>
              if r_status e.2 then Some (node, name) else None
          | _ => None
          end) trace.

Definition connections (trace : list Event) : list (MPlug * MPlug) :=
  omap (fun e : Event =>
          match e.1 with
          | MDGModifier_connect src dst =>
              if r_status e.2 then Some (src, dst) else None
          | _ => None
          end) trace.

Definition matrices_set (trace : list Event) : list (MPlug * GfMatrix4d) :=
  omap (fun e : Event =>
          match e.1 with
          | Util_setPlugMatrix_plug m plug =>
              if r_status e.2 then Some (plug, m) else None
          | _ => None
          end) trace.

(** The objects [MFnDependencyNode] was attached to, with the outcome. *)
Definition attached (trace : list Event) : list (MObject * bool) :=
  omap (fun e : Event =>
          match e.1 with
          | MFn_setObject FnDependencyNode o => Some (o, r_status e.2)
          | _ => None
          end) trace.

(** The double values set on attributes of nodes. *)
Definition doubles_set (attr : MString) (trace : list Event)
    : list (MObject * double) :=
  omap (fun e : Event =>
          match e.1 with
          | Util_setPlugValue node a (VDouble d) =>
              if String.eqb a attr && r_status e.2
              then Some (node, d) else None
          | _ => None
          end) trace.

(** The weight arrays [MFnSkinCluster::setWeights] has set, with their
    influence indices. *)
Definition weights_set (trace : list Event) : list (list Z * list double) :=
  omap (fun e : Event =>
          match e.1 with
          | MFnSkinCluster_setWeights _ _ _ influenceIndices weights _ =>
              if r_status e.2 then Some (influenceIndices, weights) else None
          | _ => None
          end) trace.

(** The two requests [_CreateJointNodes] makes: a lookup in the reader
    context and the creation of a node for a path. *)
Definition joint_request (c : HostCall) : bool :=
  match c with
  | TranslatorUtil_CreateNode _ _ _ _ | Context_GetMayaNode _ _ => true
  | _ => false
  end.

(** Programs that neither look up the context for an ancestor nor create a
    node for a path. *)
Definition no_joint_request {R : Type} (p : Prog R) : Prop :=
  calls_only (fun c => joint_request c = false) p.

(** "One joint node per entry of the joint order": as many joints were
    created as the joint order has entries. *)
Definition one_joint_per_entry (skelQuery : UsdSkelSkeletonQuery)
    (trace : list Event) : Prop :=
  length (created_nodes MayaTokens.jointType trace) =
  length (GetJointOrder skelQuery).

(** The plug that stands for the parent of joint [i] on the dagPose node:
    the member slot of the parent joint, or [world] for a joint without a
    valid parent. *)
Definition parent_plug (skelQuery : UsdSkelSkeletonQuery)
    (bindPose : MObject) (numJoints : nat) (i : Z) : MPlug :=
  match GetParent skelQuery i with
  | Some parentIdx =>
      if valid_parent parentIdx numJoints
      then Element (Plug bindPose MayaTokens.members) parentIdx
      else Plug bindPose MayaTokens.world
  | None => Plug bindPose MayaTokens.world
  end.

(** The connections, source first, that [CreateBindPose] makes for joint
    [i] on the dagPose node [bindPose]: the joint to its member and world
    matrix slots, and the parent plug to its parent slot. *)
Definition bind_pose_connections (skelQuery : UsdSkelSkeletonQuery)
    (bindPose : MObject) (numJoints : nat) (i : Z) (joint : MObject)
    : list (MPlug * MPlug) :=
  [(Plug joint MayaTokens.message,
    Element (Plug bindPose MayaTokens.members) i);
   (Plug joint MayaTokens.bindPose,
    Element (Plug bindPose MayaTokens.worldMatrix) i);
   (parent_plug skelQuery bindPose numJoints i,
    Element (Plug bindPose MayaTokens.parents) i)].

(** The matrix it sets for joint [i]: the local rest transform of the
    joint on slot [i] of [xformMatrix]. *)
Definition bind_pose_matrices (bindPose : MObject) (xforms : list GfMatrix4d)
    (i : Z) : list (MPlug * GfMatrix4d) :=
  match at_index xforms i with
  | Some xform => [(Element (Plug bindPose MayaTokens.xformMatrix) i, xform)]
  | None => []
  end.

(** What is done for the joints of a list, given which of them
    [MFnDependencyNode] could be attached to. *)
Definition for_attached_from {A : Type} (k : Z) (joints : list MObject)
    (accepted : list bool) (f : Z -> MObject -> list A) : list A :=
  concat ((fun '(i, joint, ok) => if ok : bool then f i joint else [])
            <$> zip (indexed_from k joints) accepted).

Definition for_attached {A : Type} (joints : list MObject)
    (accepted : list bool) (f : Z -> MObject -> list A) : list A :=
  for_attached_from 0 joints accepted f.

(** Two plugs are connected, in one direction or the other. *)
Definition connected (trace : list Event) (a b : MPlug) : Prop :=
  In (a, b) (connections trace) \/ In (b, a) (connections trace).

(** "For each joint i < n": every joint of the list is wired to the
    dagPose node, whatever the direction of the connections. *)
Definition every_joint_wired (skelQuery : UsdSkelSkeletonQuery)
    (joints : list MObject) (bindPose : MObject) (xforms : list GfMatrix4d)
    (trace : list Event) : Prop :=
  forall i joint, at_index joints i = Some joint ->
    connected trace (Plug joint MayaTokens.message)
      (Element (Plug bindPose MayaTokens.members) i) /\
    connected trace (Plug joint MayaTokens.bindPose)
      (Element (Plug bindPose MayaTokens.worldMatrix) i) /\
    (exists xform,
        at_index xforms i = Some xform /\
        In (Element (Plug bindPose MayaTokens.xformMatrix) i, xform)
           (matrices_set trace)) /\
    connected trace (Element (Plug bindPose MayaTokens.parents) i)
      (parent_plug skelQuery bindPose (length joints) i).

(** Calls that create a node in the Maya scene. *)
Definition creates_node (c : HostCall) : bool :=
  match c with
  | TranslatorUtil_CreateNode _ _ _ _ | MDGModifier_createNode _
  | MFnMesh_copy _ _ | MFnAnimCurve_create _ => true
  | _ => false
  end.

End Translator.

Arguments Ret {sdf gf R} r.
Arguments Call {sdf gf R} c k.
Arguments Undefined {sdf gf R}.

Create HintDb skel.
#[export] Hint Constructors exec calls_only : skel.

(** ** A sample host

    A small instance of the libraries and of the host, to run the translator
    on concrete skeletons: paths are lists of element names, matrices are
    pure translations, and the host creates a fresh node at every request
    and keeps the registry of the reader context. *)

Module Sample.

Fixpoint split_slash (s cur : string) : list string :=
  match s with
  | EmptyString => [cur]
  | String c rest =>
      if Ascii.eqb c "/"%char then cur :: split_slash rest EmptyString
      else split_slash rest (cur ++ String c EmptyString)%string
  end.

(** [None] is the empty path. *)
Definition Path : Type := option (list string).

#[export] Instance sdf : SdfPathOps := {|
  SdfPath := Path;
  SdfPath_of_token token :=
    if String.eqb token EmptyString then None
    else Some (split_slash token EmptyString);
  IsEmpty path := match path with None => true | Some _ => false end;
  AppendPath path suffix :=
    match path, suffix with
    | Some a, Some b => Some (a ++ b)
    | _, _ => None
    end;
  AppendChild path name :=
    match path with Some a => Some (a ++ [name]) | None => None end;
  GetParentPath path :=
    match path with
    | Some ((_ :: _) as a) => Some (removelast a)
    | _ => None
    end
|}.

Definition minus (a b : GfVec3d) : GfVec3d :=
  mkGfVec3d (Float64.sub (gx a) (gx b)) (Float64.sub (gy a) (gy b))
            (Float64.sub (gz a) (gz b)).

(** [GfVec3d::GetLength]: the square root of the dot product. *)
Definition length (v : GfVec3d) : double :=
  Float64.sqrt
    (Float64.add (Float64.add (Float64.mul (gx v) (gx v))
                              (Float64.mul (gy v) (gy v)))
                 (Float64.mul (gz v) (gz v))).

Definition vec (x y z : Z) : GfVec3d :=
  mkGfVec3d (Float64.of_Z x) (Float64.of_Z y) (Float64.of_Z z).

(** A matrix that is a pure translation is given by its translation. *)
#[export] Instance gf : GfOps := {|
  GfMatrix4d := GfVec3d;
  GfMatrix4d_identity := vec 0 0 0;
  ExtractTranslation m := m;
  GetInverse m := minus (vec 0 0 0) m;
  GfVec3d_minus := minus;
  GetLength := length;
  ConvertUsdMatrixToComponents m := Some (m, vec 0 0 0, vec 1 1 1)
|}.

Record World : Type := mkWorld {
  next : positive;
  registry : list (Path * MObject)
}.

Definition Path_eqb (a b : Path) : bool :=
  bool_decide (a = b :> option (list string)).

Definition registered (w : World) (path : Path) : option MObject :=
  snd <$> List.find (fun entry => Path_eqb entry.1 path) (registry w).

(** [GetMayaNode]: the node registered for the path or, with
    [findAncestors], for its nearest registered ancestor; the null object
    when there is none. *)
Fixpoint GetMayaNode (fuel : nat) (w : World) (path : Path)
    (findAncestors : bool) : MObject :=
  match path with
  | None => kNullObj
  | Some _ =>
      match registered w path with
      | Some node => node
      | None =>
          match fuel with
          | O => kNullObj
          | S fuel' =>
              if findAncestors
              then GetMayaNode fuel' w (GetParentPath path) findAncestors
              else kNullObj
          end
      end
  end.

Definition ok (status : bool) (o : MObject) : Reply :=
  mkReply status o EmptyString 0 [] kMesh.

Definition host (c : @HostCall sdf gf) (w : World)
    : Reply * World :=
  let fresh := MNode (next w) in
  let grown := mkWorld (Pos.succ (next w)) (registry w) in
  match c with
  | Context_GetMayaNode path findAncestors =>
      (ok true
          (GetMayaNode (List.length (default [] path)) w path findAncestors),
       w)
  | TranslatorUtil_CreateNode path _ _ context =>
      (ok true fresh,
       match context with
       | theContext =>
           mkWorld (Pos.succ (next w)) ((path, fresh) :: registry w)
       | nullContext => grown
       end)
  | MDGModifier_createNode _ | MFnMesh_copy _ _ | MFnAnimCurve_create _ =>
      (ok true fresh, grown)
  | MFn_setObject _ o => (ok (negb (isNull o)) o, w)
  | _ => (ok true kNullObj, w)
  end.

(** The world before an import: the prim [/Model] has the node 1. *)
Definition world0 : World :=
  mkWorld 2 [(Some ["Model"%string], MNode 1)].

(** A skeleton on [/Model] whose rest transforms, in skeleton space and
    local, are the translations [xforms]. *)
Definition skeleton (jointOrder : list TfToken) (parents : list Z)
    (xforms : list GfVec3d) : UsdSkelSkeletonQuery := {|
  sq_valid := true;
  GetPrimPath := Some ["Model"%string];
  GetJointOrder := jointOrder;
  GetParents := parents;
  GetAnimQuery := None;
  ComputeJointSkelTransforms _ _ := Some xforms;
  ComputeJointLocalTransforms _ _ := Some xforms;
  ComputeAnimTransform _ := None
|}.

(** A joint at the origin with two children, at distances 1 and 3. *)
Definition fork_xforms : list GfVec3d := [vec 0 0 0; vec 1 0 0; vec 3 0 0].
Definition fork : UsdSkelSkeletonQuery :=
  skeleton ["a"; "a/b"; "a/c"]%string [-1; 0; 0] fork_xforms.

(** A skeleton whose second joint token is not a path. *)
Definition gap : UsdSkelSkeletonQuery :=
  skeleton ["a"; ""; "a/b"]%string [-1; -1; 0] fork_xforms.

Definition args0 : PxrUsdMayaPrimReaderArgs := {|
  GetReadAnimData := false;
  HasCustomFrameRange := false;
  GetStartTime := Float64.of_Z 0;
  GetEndTime := Float64.of_Z 0
|}.

(** The joints [CreateJoints] leaves for [gap], and the world after it. *)
Definition gap_joints : list MObject := [MNode 3; kNullObj; MNode 4].

Definition after_gap_joints : World :=
  match run host (CreateJoints gap (MNode 1) args0 theContext (Some []))
            world0 with
  | Some (_, w, _) => w
  | None => world0
  end.

Definition mesh_prim : UsdPrim := {|
  prim_valid := true;
  GetPath := Some ["Model"; "Mesh"]%string
|}.

Definition invalid_skinning_query : UsdSkelSkinningQuery := {|
  skq_valid := false;
  ComputeVaryingJointInfluences _ := None;
  GetNumInfluencesPerComponent := 0;
  GetGeomBindTransform := vec 0 0 0
|}.

End Sample.

(** ** More of what a trace records *)

Section TraceReaders.
Context {sdf : SdfPathOps} {gf : GfOps}.

(** The animation curves [MFnAnimCurve::create] has made, each with the
    plug it drives, and the keys [addKeys] has put on curves. *)
Definition curves_created (trace : list Event) : list (MPlug * MObject) :=
  omap (fun e : Event =>
          match e.1 with
          | MFnAnimCurve_create plug =>
              if r_status e.2 then Some (plug, r_obj e.2) else None
          | _ => None
          end) trace.

Definition keys_added (trace : list Event)
    : list (MObject * list double * list double) :=
  omap (fun e : Event =>
          match e.1 with
          | MFnAnimCurve_addKeys curve times values =>
              if r_status e.2 then Some (curve, times, values) else None
          | _ => None
          end) trace.

(** The plugs made keyable. *)
Definition made_keyable (trace : list Event) : list MPlug :=
  omap (fun e : Event =>
          match e.1 with
          | MPlug_setKeyable plug true =>
              if r_status e.2 then Some plug else None
          | _ => None
          end) trace.

(** The nodes registered with the reader context, with the name they were
    registered under. *)
Definition registrations (trace : list Event) : list (MString * MObject) :=
  omap (fun e : Event =>
          match e.1 with
          | Context_RegisterNewMayaNode name node => Some (name, node)
          | _ => None
          end) trace.

(** The attribute values [PxrUsdMayaUtil::setPlugValue] has set, the
    matrices [setPlugMatrix] has set on attributes of nodes, and the values
    [MPlug::setValue] has set on plugs. *)
Definition values_set (trace : list Event)
    : list (MObject * MString * PlugValue) :=
  omap (fun e : Event =>
          match e.1 with
          | Util_setPlugValue node attr v =>
              if r_status e.2 then Some (node, attr, v) else None
          | _ => None
          end) trace.


Definition plug_values (trace : list Event) : list (MPlug * PlugValue) :=
  omap (fun e : Event =>
          match e.1 with
          | MPlug_setValue plug v =>
              if r_status e.2 then Some (plug, v) else None
          | _ => None
          end) trace.

(** The disconnections that succeeded, as the arguments of
    [MDGModifier::disconnect], and the array plugs that were sized. *)
Definition disconnections (trace : list Event) : list (MPlug * MPlug) :=
  omap (fun e : Event =>
          match e.1 with
          | MDGModifier_disconnect a b =>
              if r_status e.2 then Some (a, b) else None
          | _ => None
          end) trace.

Definition sized (trace : list Event) : list (MPlug * Z) :=
  omap (fun e : Event =>
          match e.1 with
          | MPlug_setNumElements plug n =>
              if r_status e.2 then Some (plug, n) else None
          | _ => None
          end) trace.


(** How often [MDGModifier::doIt] succeeded. *)
Definition applied (trace : list Event) : nat :=
  length (omap (fun e : Event =>
                  match e.1 with
                  | MDGModifier_doIt => if r_status e.2 then Some e else None
                  | _ => None
                  end) trace).








(** The attributes [_ConfigureSkinnedObjectTransform] writes, in the order
    it writes them: the three translations, the three rotations, the three
    scales. *)
Definition configured_channels (t r s : GfVec3d)
    : list (MString * option double) :=
  concat
    ((fun '(first, second) =>
        (fun '(c, attr) => (attr, GfVec3d_at first c)) <$> indexed second)
       <$> [(t, MayaTokens.translates); (r, MayaTokens.rotates);
            (s, MayaTokens.scales)]).

(** The joints whose parent is [p], among the joints [k], ..., [k+m-1]. *)
Definition children_in (skelQuery : UsdSkelSkeletonQuery) (p k m : Z)
    : list Z :=
  filter (fun i => GetParent skelQuery i = Some p) (seqZ k m).

(** A tenth of the length of the bone from joint [p] to joint [i], as the
    [float] the first loop of [_SetJointRadii] stores. *)
Definition bone_radius (restXforms : list GfMatrix4d) (p i : Z)
    : option float :=
  xform ← at_index restXforms i;
  parentXform ← at_index restXforms p;
  Some (Float64.to_float
          (Float64.mul
             (GetLength (GfVec3d_minus (ExtractTranslation xform)
                           (ExtractTranslation parentXform)))
             double_0_1)).


(** Programs that stay inside defined behaviour whatever the host
    answers. *)
Inductive defined {R : Type} : Prog R -> Prop :=
| defined_Ret (r : R) : defined (Ret r)
| defined_Call (c : HostCall) (k : Reply -> Prog R) :
    (forall reply, defined (k reply)) -> defined (Call c k).

(** Programs that go on in the same way whatever the host answers to the
    calls in [Q]. *)
Inductive ignores {R : Type} (Q : HostCall -> bool) : Prog R -> Prop :=
| ignores_Ret (r : R) : ignores Q (Ret r)
| ignores_Call (c : HostCall) (k : Reply -> Prog R) :
    (Q c = true -> forall reply reply', k reply = k reply') ->
    (forall reply, ignores Q (k reply)) -> ignores Q (Call c k)
| ignores_Undefined : ignores Q Undefined.

(** A trace with the answers to the calls in [Q] replaced by [reply]. *)
Definition answered (Q : HostCall -> bool) (reply : Reply)
    (trace : list Event) : list Event :=
  (fun e : Event => if Q e.1 then (e.1, reply) else e) <$> trace.

(** The connection of the group id to the object group of the skinned
    shape, [instObjGroups[0].objectGroups[0].objectGroupId]. *)
Definition object_group_connection (c : HostCall) : bool :=
  match c with
  | MDGModifier_connect _ (Child (Element (Child (Element (Plug _ a) 0) b) 0) d) =>
      String.eqb a MayaTokens.instObjGroups &&
      String.eqb b MayaTokens.objectGroups &&
      String.eqb d MayaTokens.objectGroupId
  | _ => false
  end.




End TraceReaders.

(** ** A sample scene with a mesh

    The sample host with more of Maya behind it: every transform has a
    shape, a mesh has two vertices, nodes are called after their handle, and
    [translateX] has one incoming connection. *)

Module Scene.

#[local] Existing Instance Sample.sdf.
#[local] Existing Instance Sample.gf.

Definition shape_of (o : MObject) : MObject :=
  match o with
  | MNode n => MNode (n~0)
  | kNullObj => kNullObj
  end.

Definition name_of (o : MObject) : MString :=
  match o with
  | MNode n => if Pos.eqb n 20 then "mesh"%string else "node"%string
  | kNullObj => EmptyString
  end.

Definition driver : MPlug := Plug (MNode 99) "output"%string.

Definition host (c : @HostCall Sample.sdf Sample.gf) (w : Sample.World)
    : Reply * Sample.World :=
  match c with
  | MDagPath_node (ShapeBelow (PathTo o)) => (Sample.ok true (shape_of o), w)
  | MDagPath_transform (ShapeBelow (PathTo o)) => (Sample.ok true o, w)
  | MFnMesh_numVertices _ => (mkReply true kNullObj EmptyString 2 [] kMesh, w)
  | MFnDependencyNode_name o =>
      (mkReply true kNullObj (name_of o) 0 [] kMesh, w)
  | MPlug_connectedTo (Plug _ attr) true false =>
      (mkReply true kNullObj EmptyString 0
         (if String.eqb attr "translateX" then [driver] else []) kMesh, w)
  | MPlug_isKeyable _ => (Sample.ok false kNullObj, w)
  | _ => Sample.host c w
  end.

(** The world after the import of a mesh: [/Model] has the node 1 and
    [/Model/Mesh] the transform 10, whose shape is the node 20. *)
Definition world : Sample.World :=
  Sample.mkWorld 30
    [(Some ["Model"; "Mesh"]%string, MNode 10);
     (Some ["Model"%string], MNode 1)].

(** Two joints, and two points with two influences each. *)
Definition joints : list MObject := [MNode 3; MNode 4].

Definition pair : UsdSkelSkeletonQuery :=
  Sample.skeleton ["a"; "a/b"]%string [-1; 0]
    [Sample.vec 0 0 0; Sample.vec 1 0 0].

Definition skinning : UsdSkelSkinningQuery := {|
  skq_valid := true;
  ComputeVaryingJointInfluences numPoints :=
    if numPoints =? 2
    then Some ([0; 1; 1; -1],
               (fun n => Float32.ratio n 4) <$> [1; 3; 4; 0])
    else None;
  GetNumInfluencesPerComponent := 2;
  GetGeomBindTransform := Sample.vec 5 6 7
|}.



End Scene.

(** * Properties of the edge-identification mixins *)

Section EdgeIdFacts.
Import EdgeId.

(** The constants: [pickRadius] is the correctly rounded quotient 1/50 and
    [1 - pickRadius] the correctly rounded 49/50. *)
Lemma pickRadius_nearest :
  pickRadius = Float32.div (Float32.of_Z 1) (Float32.of_Z 50).
Proof. vm_compute. reflexivity. Qed.

Lemma delHigh_nearest :
  FragmentRect.delHigh = Float32.div (Float32.of_Z 49) (Float32.of_Z 50).
Proof. vm_compute. reflexivity. Qed.

(** Within half a unit in the last place of 1/50, over the integers:
    |50 m - 2^29| <= 25 for the mantissa m of [pickRadius]. *)
Lemma pickRadius_half_ulp :
  match pickRadius with
  | S754_finite false m e =>
      e = -29 /\ 2 * Z.abs (50 * Z.pos m - 2 ^ 29) <= 50
  | _ => False
  end.
Proof. simpl. split; [reflexivity | vm_compute; discriminate]. Qed.

(** Sample fragments. *)
Example bary_near_edge_0 :
  FragmentBary.GetPrimitiveEdgeId (mkvec2 (Float32.ratio 1 2) (Float32.ratio 1 100)) = 0.
Proof. vm_compute. reflexivity. Qed.

Example bary_near_edge_1 :
  FragmentBary.GetPrimitiveEdgeId (mkvec2 (Float32.ratio 1 2) (Float32.ratio 49 100)) = 1.
Proof. vm_compute. reflexivity. Qed.

Example bary_near_edge_2 :
  FragmentBary.GetPrimitiveEdgeId (mkvec2 (Float32.ratio 1 100) (Float32.ratio 1 2)) = 2.
Proof. vm_compute. reflexivity. Qed.

Example bary_corner_prefers_edge_0 :
  FragmentBary.GetPrimitiveEdgeId (mkvec2 (Float32.ratio 1 100) (Float32.ratio 1 100)) = 0.
Proof. vm_compute. reflexivity. Qed.

Example bary_interior :
  FragmentBary.GetPrimitiveEdgeId (mkvec2 (Float32.ratio 1 3) (Float32.ratio 1 3)) = -1 /\
  FragmentBary.IsFragmentOnEdge (mkvec2 (Float32.ratio 1 3) (Float32.ratio 1 3)) = false.
Proof. split; vm_compute; reflexivity. Qed.

Example bary_nan :
  FragmentBary.GetPrimitiveEdgeId (mkvec2 S754_nan (Float32.ratio 1 3)) = -1 /\
  FragmentBary.IsFragmentOnEdge (mkvec2 S754_nan (Float32.ratio 1 3)) = false.
Proof. split; vm_compute; reflexivity. Qed.

Example rect_edges :
  let uv (xn yn : Z) := mkvec2 (Float32.ratio xn 100) (Float32.ratio yn 100) in
  FragmentRect.GetPrimitiveEdgeId <$>
    [uv 50 1; uv 99 50; uv 50 99; uv 1 50; uv 50 50; uv 99 1] =
  [0; 1; 2; 3; -1; 0].
Proof. vm_compute. reflexivity. Qed.

(** C1: in EdgeId.Fragment.Bary the input expands to
    (x,y,z) = (1 - u - v, u, v) and the edge id is 0 if z < pickRadius,
    else 1 if x < pickRadius, else 2 if y < pickRadius, else -1. *)
Theorem bary_edge_id_priority (gsBaryCoord : vec2) :
  let u := v2x gsBaryCoord in
  let v := v2y gsBaryCoord in
  let x := Float32.sub (Float32.sub (Float32.of_Z 1) u) v in
  let y := u in
  let z := v in
  let below c := Float32.ltb c pickRadius in
  let id := FragmentBary.GetPrimitiveEdgeId gsBaryCoord in
  FragmentBary.ExpandBaryCoord gsBaryCoord = mkvec3 x y z /\
  pickRadius = Float32.div (Float32.of_Z 2) (Float32.of_Z 100) /\
  (below z = true -> id = 0) /\
  (below z = false -> below x = true -> id = 1) /\
  (below z = false -> below x = false -> below y = true -> id = 2) /\
  (below z = false -> below x = false -> below y = false -> id = -1).
Proof.
  cbv zeta.
  unfold FragmentBary.GetPrimitiveEdgeId, FragmentBary.ExpandBaryCoord.
  cbn [v3x v3y v3z].
  split; [reflexivity|].
  split; [vm_compute; reflexivity|].
  repeat split; intros; repeat match goal with H : _ = _ |- _ => rewrite H end;
    reflexivity.
Qed.

(** C2: in EdgeId.Fragment.Rect the edge id is 0 if uv.y < delLow, else 1
    if uv.x > delHigh, else 2 if uv.y > delHigh, else 3 if uv.x < delLow,
    else -1, with delLow = pickRadius = 0.02 and delHigh = 1 - delLow
    (which is the float 0.98). *)
Theorem rect_edge_id_priority (gsRect : vec2) :
  let uv := gsRect in
  let lo := pickRadius in
  let hi := Float32.sub (Float32.of_Z 1) lo in
  let id := FragmentRect.GetPrimitiveEdgeId gsRect in
  FragmentRect.delLow = lo /\ FragmentRect.delHigh = hi /\
  lo = Float32.div (Float32.of_Z 2) (Float32.of_Z 100) /\
  hi = Float32.div (Float32.of_Z 98) (Float32.of_Z 100) /\
  (Float32.ltb (v2y uv) lo = true -> id = 0) /\
  (Float32.ltb (v2y uv) lo = false -> Float32.gtb (v2x uv) hi = true ->
   id = 1) /\
  (Float32.ltb (v2y uv) lo = false -> Float32.gtb (v2x uv) hi = false ->
   Float32.gtb (v2y uv) hi = true -> id = 2) /\
  (Float32.ltb (v2y uv) lo = false -> Float32.gtb (v2x uv) hi = false ->
   Float32.gtb (v2y uv) hi = false -> Float32.ltb (v2x uv) lo = true ->
   id = 3) /\
  (Float32.ltb (v2y uv) lo = false -> Float32.gtb (v2x uv) hi = false ->
   Float32.gtb (v2y uv) hi = false -> Float32.ltb (v2x uv) lo = false ->
   id = -1).
Proof.
  cbv zeta. unfold FragmentRect.GetPrimitiveEdgeId.
  change FragmentRect.delLow with pickRadius.
  change FragmentRect.delHigh
    with (Float32.sub (Float32.of_Z 1) pickRadius).
  split; [reflexivity|]. split; [reflexivity|].
  split; [vm_compute; reflexivity|]. split; [vm_compute; reflexivity|].
  generalize (Float32.sub (Float32.of_Z 1) pickRadius) as hi.
  intros hi.
  repeat split; intros; repeat match goal with H : _ = _ |- _ => rewrite H end;
    reflexivity.
Qed.

Lemma bary_tests_agree : tests_agree FragmentBary.mixin.
Proof.
  intros gs. cbn [Inputs IsFragmentOnEdge GetPrimitiveEdgeId
                  FragmentBary.mixin] in *.
  unfold FragmentBary.IsFragmentOnEdge, FragmentBary.GetPrimitiveEdgeId.
  unfold any3, lessThan3, splat3. cbn [b3x b3y b3z v3x v3y v3z].
  destruct (Float32.ltb (v3z _) _), (Float32.ltb (v3x _) _),
    (Float32.ltb (v3y _) _); cbn; split; intros; congruence.
Qed.

Lemma rect_tests_agree : tests_agree FragmentRect.mixin.
Proof.
  intros gs. cbn [Inputs IsFragmentOnEdge GetPrimitiveEdgeId
                  FragmentRect.mixin] in *.
  unfold FragmentRect.IsFragmentOnEdge, FragmentRect.GetPrimitiveEdgeId.
  unfold any2, lessThan2, greaterThan2, splat2. cbn [b2x b2y v2x v2y].
  change FragmentRect.delLow with pickRadius.
  change FragmentRect.delHigh
    with (Float32.sub (Float32.of_Z 1) pickRadius).
  generalize (Float32.sub (Float32.of_Z 1) pickRadius) as hi. intros hi.
  destruct (Float32.ltb (v2y gs) pickRadius),
    (Float32.gtb (v2x gs) hi), (Float32.gtb (v2y gs) hi),
    (Float32.ltb (v2x gs) pickRadius); cbn; split; intros; congruence.
Qed.

(** C3: in both EdgeId.Fragment.Bary and EdgeId.Fragment.Rect,
    IsFragmentOnEdge() is true exactly when GetPrimitiveEdgeId() differs
    from -1, for every input coordinate. *)
Theorem edge_tests_agree :
  (forall gsBaryCoord : vec2,
      FragmentBary.IsFragmentOnEdge gsBaryCoord = true <->
      FragmentBary.GetPrimitiveEdgeId gsBaryCoord <> -1) /\
  (forall gsRect : vec2,
      FragmentRect.IsFragmentOnEdge gsRect = true <->
      FragmentRect.GetPrimitiveEdgeId gsRect <> -1).
Proof. split; [exact bary_tests_agree | exact rect_tests_agree]. Qed.

(** C9: for index 0, 1 or 2 the array access of GetBaryCoord is in bounds
    and ExpandBaryCoord (GetBaryCoord index) is the unit barycentric vector
    with 1 at position index. *)
Theorem bary_coord_roundtrip (index : Z) :
  0 <= index <= 2 ->
  exists bc : vec2,
    GeometryBary.GetBaryCoord index = Some bc /\
    FragmentBary.ExpandBaryCoord bc = bary_basis index.
Proof.
  intros H.
  assert (index = 0 \/ index = 1 \/ index = 2) as [->|[->| ->]] by lia;
    eexists; (split; [vm_compute; reflexivity | vm_compute; reflexivity]).
Qed.

Lemma bary_coord_roundtrip_witness :
  0 <= 1 <= 2 /\
  exists bc : vec2,
    GeometryBary.GetBaryCoord 1 = Some bc /\
    FragmentBary.ExpandBaryCoord bc = bary_basis 1.
Proof. split; [lia | apply (bary_coord_roundtrip 1); lia]. Defined.

(** C10: in EdgeId.Fragment.BaryFallback, GetPrimitiveEdgeId() is -1 and
    IsFragmentOnEdge() is false for every fragment. *)
Theorem bary_fallback_never_on_edge
    (fragment : @Inputs FragmentBaryFallback.mixin) :
  @GetPrimitiveEdgeId FragmentBaryFallback.mixin fragment = -1 /\
  @IsFragmentOnEdge FragmentBaryFallback.mixin fragment = false.
Proof. split; reflexivity. Qed.

End EdgeIdFacts.

(** * Properties of the skin cluster weights *)

Section SkinWeightsFacts.
Import SkinWeights.

Lemma u32_small (z : Z) : 0 <= z < 2 ^ 32 -> u32 z = z.
Proof. intros H. unfold u32. apply Z.mod_small. exact H. Qed.

Lemma at_index_Some {T} (a : list T) (i : Z) :
  0 <= i < Z.of_nat (length a) -> exists v, at_index a i = Some v.
Proof.
  intros H. unfold at_index. rewrite bool_decide_eq_true_2 by lia.
  apply lookup_lt_is_Some_2. lia.
Qed.

Lemma at_index_set_eq {T} (a a' : list T) (i : Z) (v : T) :
  set_index a i v = Some a' -> at_index a' i = Some v.
Proof.
  unfold set_index, at_index. intros H.
  case_bool_decide as Hi; [|discriminate]. injection H as <-.
  rewrite bool_decide_eq_true_2 by lia.
  apply list_lookup_insert_eq. lia.
Qed.

Lemma at_index_set_ne {T} (a a' : list T) (i j : Z) (v : T) :
  set_index a i v = Some a' -> 0 <= j -> i <> j ->
  at_index a' j = at_index a j.
Proof.
  unfold set_index, at_index. intros H Hj Hne.
  case_bool_decide as Hi; [|discriminate]. injection H as <-.
  rewrite bool_decide_eq_true_2 by lia.
  apply list_lookup_insert_ne. lia.
Qed.

Lemma set_index_length {T} (a a' : list T) (i : Z) (v : T) :
  set_index a i v = Some a' -> length a' = length a.
Proof.
  unfold set_index. intros H.
  case_bool_decide; [|discriminate]. injection H as <-.
  apply length_insert.
Qed.

Lemma flat_index_inj (J pt j pt' j' : Z) :
  0 <= j < J -> 0 <= j' < J -> pt * J + j = pt' * J + j' ->
  pt = pt' /\ j = j'.
Proof.
  intros Hj Hj' H.
  assert (Hq : pt = pt').
  { assert (Hd : forall p i, 0 <= i < J -> (p * J + i) / J = p).
    { intros p i Hi. rewrite Z.div_add_l by lia.
      rewrite Z.div_small by lia. lia. }
    rewrite <- (Hd pt j Hj), <- (Hd pt' j' Hj'), H. reflexivity. }
  subst pt'. split; [reflexivity | lia].
Qed.

Context (indices : list Z) (weights : list float).
Context (K J P : Z).

Local Abbreviation selected := (SkinWeights.selected indices weights K).
Local Abbreviation step := (SkinWeights.step indices weights K).

Lemma foldl_step_omap (pt j : Z) (cs : list Z) (a : double) :
  foldl (step pt j) a cs = foldl Float64.add a (omap (selected pt j) cs).
Proof.
  revert a. induction cs as [|c cs IH]; intros a; [reflexivity|].
  cbn [foldl omap list_omap]. unfold step at 2.
  destruct (selected pt j c) as [w|]; cbn [foldl]; apply IH.
Qed.

Hypothesis HK : 0 <= K.
Hypothesis HJ : 0 <= J.
Hypothesis HPJ : P * J < 2 ^ 32.
Hypothesis HPK : P * K < 2 ^ 32.
Hypothesis Hindices : Z.of_nat (length indices) = P * K.
Hypothesis Hweights : Z.of_nat (length weights) = P * K.
Hypothesis Hint : Forall (fun i => - 2 ^ 31 <= i < 2 ^ 31) indices.

Lemma accumulate_spec (pt c : Z) (vw : list double) :
  0 <= pt < P -> 0 <= c < K -> Z.of_nat (length vw) = P * J ->
  exists vw',
    accumulate indices weights K J pt c vw = Some vw' /\
    length vw' = length vw /\
    forall pt' j, 0 <= pt' < P -> 0 <= j < J ->
      at_index vw' (pt' * J + j) =
      if bool_decide (pt' = pt)
      then (fun old => step pt j old c) <$> at_index vw (pt' * J + j)
      else at_index vw (pt' * J + j).
Proof.
  intros Hpt Hc Hvw.
  assert (HptK : 0 <= pt * K) by nia.
  assert (Hslot : pt * K + c < P * K) by nia.
  assert (HKle : K <= P * K) by nia.
  assert (HptJ : 0 <= pt * J) by nia.
  assert (Hrow : pt * J + J <= P * J) by nia.
  unfold accumulate.
  rewrite (u32_small K) by lia. rewrite (u32_small (pt * K)) by lia.
  rewrite (u32_small c) by lia. rewrite (u32_small (pt * K + c)) by lia.
  destruct (at_index_Some indices (pt * K + c)) as [jointIdx Hidx]; [lia|].
  destruct (at_index_Some weights (pt * K + c)) as [w Hw]; [lia|].
  rewrite Hidx. cbn [mbind option_bind].
  assert (Hrange : - 2 ^ 31 <= jointIdx < 2 ^ 31).
  { unfold at_index in Hidx. case_bool_decide; [|discriminate].
    eapply (proj1 (Forall_lookup _ _) Hint); eassumption. }
  destruct (bool_decide (0 <= jointIdx) && bool_decide (u32 jointIdx < J))
    eqn:Htest.
  - apply andb_true_iff in Htest as [H0 HltJ].
    apply bool_decide_eq_true_1 in H0. apply bool_decide_eq_true_1 in HltJ.
    rewrite (u32_small jointIdx) in * by lia.
    rewrite Hw. cbn [mbind option_bind].
    rewrite (u32_small (pt * J)) by lia.
    rewrite (u32_small (pt * J + jointIdx)) by lia.
    destruct (at_index_Some vw (pt * J + jointIdx)) as [old Hold]; [lia|].
    rewrite Hold. cbn [mbind option_bind].
    destruct (set_index vw (pt * J + jointIdx)
                (Float64.add old (Float64.of_float w))) as [vw'|] eqn:Hset.
    2:{ unfold set_index in Hset.
        rewrite bool_decide_eq_true_2 in Hset by lia. discriminate. }
    exists vw'. split; [reflexivity|].
    split; [eapply set_index_length; eassumption|].
    intros pt' j Hpt' Hj.
    destruct (decide (pt' * J + j = pt * J + jointIdx)) as [Heq|Hne].
    + apply flat_index_inj in Heq as [-> ->]; [|lia..].
      rewrite bool_decide_eq_true_2 by reflexivity.
      rewrite (at_index_set_eq _ _ _ _ Hset), Hold. cbn.
      unfold step, selected. rewrite Hidx. cbn.
      rewrite bool_decide_eq_true_2 by reflexivity. rewrite Hw. reflexivity.
    + assert (0 <= pt' * J) by nia.
      rewrite (at_index_set_ne _ _ _ _ _ Hset) by lia.
      destruct (decide (pt' = pt)) as [->|Hp];
        [rewrite bool_decide_eq_true_2 by reflexivity
        |rewrite bool_decide_eq_false_2 by assumption; reflexivity].
      assert (jointIdx <> j) by (intros ->; apply Hne; reflexivity).
      unfold step, selected. rewrite Hidx. cbn.
      rewrite bool_decide_eq_false_2 by assumption.
      destruct (at_index vw (pt * J + j)); reflexivity.
  - exists vw. split; [reflexivity|]. split; [reflexivity|].
    intros pt' j Hpt' Hj.
    destruct (decide (pt' = pt)) as [->|Hp];
      [rewrite bool_decide_eq_true_2 by reflexivity
      |rewrite bool_decide_eq_false_2 by assumption; reflexivity].
    assert (jointIdx <> j).
    { intros ->. apply andb_false_iff in Htest as [H|H];
        apply bool_decide_eq_false_1 in H; [lia|].
      rewrite u32_small in H by lia. lia. }
    unfold step, selected. rewrite Hidx. cbn.
    rewrite bool_decide_eq_false_2 by assumption.
    destruct (at_index vw (pt * J + j)); reflexivity.
Qed.

Lemma influence_slots_spec (pt : Z) (n : nat) :
  0 <= pt < P ->
  forall (c0 : Z) (vw : list double),
    0 <= c0 -> c0 + Z.of_nat n <= K -> Z.of_nat (length vw) = P * J ->
    exists vw',
      for_range n c0 (accumulate indices weights K J pt) vw = Some vw' /\
      length vw' = length vw /\
      forall pt' j, 0 <= pt' < P -> 0 <= j < J ->
        at_index vw' (pt' * J + j) =
        if bool_decide (pt' = pt)
        then (fun old => foldl (step pt j) old (seqZ c0 (Z.of_nat n)))
               <$> at_index vw (pt' * J + j)
        else at_index vw (pt' * J + j).
Proof.
  intros Hpt. induction n as [|n IH]; intros c0 vw Hc0 Hn Hvw.
  - exists vw. split; [reflexivity|]. split; [reflexivity|].
    intros pt' j _ _. case_bool_decide; [|reflexivity].
    destruct (at_index vw (pt' * J + j)); reflexivity.
  - cbn [for_range].
    destruct (accumulate_spec pt c0 vw) as (vw1 & -> & Hlen1 & Hat1);
      [lia..|].
    destruct (IH (c0 + 1) vw1) as (vw' & Hrun & Hlen' & Hat'); [lia..|].
    exists vw'. split; [exact Hrun|]. split; [congruence|].
    intros pt' j Hpt' Hj.
    rewrite (Hat' pt' j Hpt' Hj), (Hat1 pt' j Hpt' Hj).
    case_bool_decide; [|reflexivity].
    rewrite (seqZ_cons c0 (Z.of_nat (S n))) by lia.
    replace (Z.pred (Z.of_nat (S n))) with (Z.of_nat n) by lia.
    replace (Z.succ c0) with (c0 + 1) by lia.
    destruct (at_index vw (pt' * J + j)); reflexivity.
Qed.

Lemma all_points_spec (n : nat) :
  forall (p0 : Z) (vw : list double),
    0 <= p0 -> p0 + Z.of_nat n <= P -> Z.of_nat (length vw) = P * J ->
    exists vw',
      for_range n p0
        (fun pt => for_range (Z.to_nat K) 0
                     (accumulate indices weights K J pt)) vw = Some vw' /\
      length vw' = length vw /\
      forall pt' j, 0 <= pt' < P -> 0 <= j < J ->
        at_index vw' (pt' * J + j) =
        if bool_decide (p0 <= pt' < p0 + Z.of_nat n)
        then (fun old => foldl (step pt' j) old (seqZ 0 K))
               <$> at_index vw (pt' * J + j)
        else at_index vw (pt' * J + j).
Proof.
  induction n as [|n IH]; intros p0 vw Hp0 Hn Hvw.
  - exists vw. split; [reflexivity|]. split; [reflexivity|].
    intros pt' j _ _. rewrite bool_decide_eq_false_2 by lia. reflexivity.
  - cbn [for_range].
    destruct (influence_slots_spec p0 (Z.to_nat K) ltac:(lia) 0 vw)
      as (vw1 & -> & Hlen1 & Hat1); [lia..|].
    rewrite Z2Nat.id in Hat1 by lia.
    destruct (IH (p0 + 1) vw1) as (vw' & Hrun & Hlen' & Hat'); [lia..|].
    exists vw'. split; [exact Hrun|]. split; [congruence|].
    intros pt' j Hpt' Hj.
    rewrite (Hat' pt' j Hpt' Hj), (Hat1 pt' j Hpt' Hj).
    destruct (decide (pt' = p0)) as [->|Hne].
    + rewrite bool_decide_eq_false_2 by lia.
      rewrite bool_decide_eq_true_2 by reflexivity.
      rewrite bool_decide_eq_true_2 by lia. reflexivity.
    + rewrite (bool_decide_eq_false_2 (pt' = p0)) by assumption.
      destruct (decide (p0 + 1 <= pt' < p0 + 1 + Z.of_nat n)).
      * rewrite !bool_decide_eq_true_2 by lia. reflexivity.
      * rewrite !bool_decide_eq_false_2 by lia. reflexivity.
Qed.

Lemma vertOrderedWeights_spec :
  0 <= P ->
  exists vw,
    vertOrderedWeights J indices weights K P = Some vw /\
    Z.of_nat (length vw) = P * J /\
    forall pt j, 0 <= pt < P -> 0 <= j < J ->
      at_index vw (pt * J + j) =
      Some (influence_sum indices weights K pt j).
Proof.
  intros HP. unfold vertOrderedWeights.
  assert (HPJ0 : 0 <= P * J) by nia.
  rewrite (u32_small (P * J)) by lia.
  set (init := replicate _ _).
  assert (Hinit : Z.of_nat (length init) = P * J).
  { unfold init. rewrite length_replicate. lia. }
  destruct (all_points_spec (Z.to_nat P) 0 init) as (vw & Hrun & Hlen & Hat);
    [lia..|].
  exists vw. split; [exact Hrun|]. split; [congruence|].
  intros pt j Hpt Hj. rewrite (Hat pt j Hpt Hj).
  rewrite bool_decide_eq_true_2 by lia.
  assert (Hfl : 0 <= pt * J + j < P * J) by nia.
  unfold at_index at 1. rewrite bool_decide_eq_true_2 by lia.
  unfold init. rewrite lookup_replicate_2 by lia. cbn [fmap option_fmap option_map].
  rewrite foldl_step_omap. reflexivity.
Qed.

Lemma accumulate_out_of_range (pt c jointIdx : Z) (vw : list double) :
  0 <= pt < P -> 0 <= c < K ->
  at_index indices (pt * K + c) = Some jointIdx ->
  jointIdx < 0 \/ J <= jointIdx ->
  accumulate indices weights K J pt c vw = Some vw.
Proof.
  intros Hpt Hc Hidx Hout.
  assert (HptK : 0 <= pt * K) by nia.
  assert (Hslot : pt * K + c < P * K) by nia.
  assert (HKle : K <= P * K) by nia.
  unfold accumulate.
  rewrite (u32_small K) by lia. rewrite (u32_small (pt * K)) by lia.
  rewrite (u32_small c) by lia. rewrite (u32_small (pt * K + c)) by lia.
  rewrite Hidx. cbn [mbind option_bind].
  assert (Hrange : - 2 ^ 31 <= jointIdx < 2 ^ 31).
  { unfold at_index in Hidx. case_bool_decide; [|discriminate].
    eapply (proj1 (Forall_lookup _ _) Hint); eassumption. }
  destruct (decide (0 <= jointIdx)) as [Hpos|Hneg].
  - rewrite (u32_small jointIdx) by lia.
    rewrite (bool_decide_eq_false_2 (jointIdx < J)) by lia.
    rewrite andb_false_r. reflexivity.
  - rewrite (bool_decide_eq_false_2 (0 <= jointIdx)) by lia. reflexivity.
Qed.

End SkinWeightsFacts.

(** * Properties of the translator *)

Section TranslatorFacts.
Context {sdf : SdfPathOps} {gf : GfOps}.

(** ** Runs *)

Lemma run_exec {W R : Type} (host : HostCall -> W -> Reply * W) (p : Prog R) :
  forall w r w' trace,
    run host p w = Some (r, w', trace) -> exec p trace (Some r).
Proof.
  induction p as [r0|c k IH|]; intros w r w' trace Hrun; cbn in Hrun.
  - injection Hrun as <- <- <-. auto with skel.
  - destruct (host c w) as [reply w1].
    destruct (run host (k reply) w1) as [[[r1 w2] tr1]|] eqn:Hk; [|discriminate].
    injection Hrun as <- <- <-. eauto with skel.
  - discriminate.
Qed.

Lemma exec_Ret_inv {R : Type} (r : R) trace out :
  exec (Ret r) trace out -> trace = [] /\ out = Some r.
Proof. inversion 1. split; reflexivity. Qed.

Lemma exec_Call_inv {R : Type} c (k : Reply -> Prog R) trace out :
  exec (Call c k) trace out ->
  exists reply rest, trace = (c, reply) :: rest /\ exec (k reply) rest out.
Proof. inversion 1; subst. eauto. Qed.

Lemma exec_Undefined_inv {R : Type} trace (out : option R) :
  exec Undefined trace out -> trace = [] /\ out = None.
Proof. inversion 1. split; reflexivity. Qed.

Lemma exec_bind_inv {A B : Type} (p : Prog A) (f : A -> Prog B) trace out :
  exec (bind p f) trace out ->
  (exec p trace None /\ out = None) \/
  exists a tr1 tr2,
    exec p tr1 (Some a) /\ exec (f a) tr2 out /\ trace = tr1 ++ tr2.
Proof.
  revert trace. induction p as [a|c k IH|]; intros trace H; cbn in H.
  - right. exists a, [], trace. repeat split; [constructor | exact H].
  - apply exec_Call_inv in H as (reply & rest & -> & H).
    destruct (IH reply rest H) as [[Hn ->]|(a & tr1 & tr2 & H1 & H2 & ->)].
    + left. split; [constructor; exact Hn | reflexivity].
    + right. exists a, ((c, reply) :: tr1), tr2.
      repeat split; [constructor; exact H1 | exact H2].
  - apply exec_Undefined_inv in H as [-> ->]. left. split; [constructor|reflexivity].
Qed.

Lemma exec_bind_Some {A B : Type} (p : Prog A) (f : A -> Prog B) trace b :
  exec (bind p f) trace (Some b) ->
  exists a tr1 tr2,
    exec p tr1 (Some a) /\ exec (f a) tr2 (Some b) /\ trace = tr1 ++ tr2.
Proof.
  intros H. apply exec_bind_inv in H as [[_ H]|H]; [discriminate | exact H].
Qed.

Lemma exec_checked_true c (k : Reply -> Prog bool) trace :
  exec (checked c k) trace (Some true) ->
  exists reply rest,
    trace = (c, reply) :: rest /\ r_status reply = true /\
    exec (k reply) rest (Some true).
Proof.
  intros H. apply exec_Call_inv in H as (reply & rest & -> & H).
  exists reply, rest. destruct (r_status reply); [auto|].
  apply exec_Ret_inv in H as [_ H]. discriminate.
Qed.

Lemma exec_require_true (p k : Prog bool) trace :
  exec (require p k) trace (Some true) ->
  exists tr1 tr2,
    exec p tr1 (Some true) /\ exec k tr2 (Some true) /\ trace = tr1 ++ tr2.
Proof.
  intros H. apply exec_bind_Some in H as (ok & tr1 & tr2 & H1 & H2 & ->).
  destruct ok; [eauto|]. apply exec_Ret_inv in H2 as [_ H2]. discriminate.
Qed.

Lemma exec_lift_Some {A : Type} (o : option A) trace a :
  exec (lift o) trace (Some a) -> o = Some a /\ trace = [].
Proof.
  destruct o as [a'|]; cbn; intros H.
  - apply exec_Ret_inv in H as [-> H]. injection H as ->. auto.
  - apply exec_Undefined_inv in H as [_ H]. discriminate.
Qed.

Lemma exec_for_all_true {A : Type} (l : list A) (body : A -> Prog bool) trace :
  exec (for_all l body) trace (Some true) ->
  exists traces,
    Forall2 (fun a tr => exec (body a) tr (Some true)) l traces /\
    trace = concat traces.
Proof.
  revert trace. induction l as [|a l IH]; intros trace H; cbn in H.
  - apply exec_Ret_inv in H as [-> _]. exists []. split; [constructor|reflexivity].
  - apply exec_bind_Some in H as (ok & tr1 & tr2 & H1 & H2 & ->).
    destruct ok; [|apply exec_Ret_inv in H2 as [_ H2]; discriminate].
    destruct (IH _ H2) as (traces & HF & ->).
    exists (tr1 :: traces). split; [constructor; assumption | reflexivity].
Qed.

(** ** Which calls a program makes *)

Lemma calls_only_bind {A B : Type} P (p : Prog A) (f : A -> Prog B) :
  calls_only P p -> (forall a, calls_only P (f a)) -> calls_only P (bind p f).
Proof.
  intros Hp Hf. induction Hp as [a|c k Hc Hk IH|]; cbn.
  - apply Hf.
  - constructor; [exact Hc | exact IH].
  - constructor.
Qed.

Lemma calls_only_checked P c (k : Reply -> Prog bool) :
  P c -> (forall reply, calls_only P (k reply)) -> calls_only P (checked c k).
Proof.
  intros Hc Hk. constructor; [exact Hc|]. intros reply.
  destruct (r_status reply); [apply Hk | constructor].
Qed.

Lemma calls_only_require P (p k : Prog bool) :
  calls_only P p -> calls_only P k -> calls_only P (require p k).
Proof.
  intros Hp Hk. apply calls_only_bind; [exact Hp|].
  intros [|]; [exact Hk | constructor].
Qed.

Lemma calls_only_call P c : P c -> calls_only P (call c).
Proof. intros Hc. constructor; [exact Hc|]. intros reply. constructor. Qed.

Lemma calls_only_lift {A : Type} P (o : option A) : calls_only P (lift o).
Proof. destruct o; constructor. Qed.

Lemma calls_only_deref {R : Type} P context (p : Prog R) :
  calls_only P p -> calls_only P (deref context p).
Proof. intros Hp. destruct context; [constructor | exact Hp]. Qed.

Lemma calls_only_for_all {A : Type} P (l : list A) (body : A -> Prog bool) :
  (forall a, calls_only P (body a)) -> calls_only P (for_all l body).
Proof.
  intros Hb. induction l as [|a l IH]; cbn; [constructor|].
  apply calls_only_bind; [apply Hb|]. intros [|]; [exact IH | constructor].
Qed.

Lemma calls_only_for_each {A S : Type} P (l : list A)
    (body : A -> S -> Prog (bool * S)) (s : S) :
  (forall a s', calls_only P (body a s')) -> calls_only P (for_each l body s).
Proof.
  intros Hb. revert s. induction l as [|a l IH]; intros s; cbn; [constructor|].
  apply calls_only_bind; [apply Hb|].
  intros [[|] s']; cbn; [apply IH | constructor].
Qed.

Lemma exec_calls_only {R : Type} P (p : Prog R) trace out :
  calls_only P p -> exec p trace out -> Forall (fun e : Event => P e.1) trace.
Proof.
  intros Hp H. induction H as [r|c k reply trace out H IH|].
  - constructor.
  - inversion Hp as [|c' k' Hc Hk|]; subst. constructor; [exact Hc|].
    apply IH, Hk.
  - constructor.
Qed.

(** One step of a proof that a program makes only calls in [P]. *)
Ltac calls_only_step :=
  lazymatch goal with
  | |- calls_only _ (Ret _) => constructor
  | |- calls_only _ Undefined => constructor
  | |- calls_only _ (mbind _ _) => unfold mbind, Prog_bind
  | |- calls_only _ (bind _ _) => apply calls_only_bind; [|intros ?]
  | |- calls_only _ (checked _ _) =>
      apply calls_only_checked; [reflexivity | intros ?]
  | |- calls_only _ (require _ _) => apply calls_only_require
  | |- calls_only _ (call _) => apply calls_only_call; reflexivity
  | |- calls_only _ (lift _) => apply calls_only_lift
  | |- calls_only _ (deref _ _) => apply calls_only_deref
  | |- calls_only _ (for_all _ _) => apply calls_only_for_all; intros ?
  | |- calls_only _ (for_each _ _ _) => apply calls_only_for_each; intros ? ?
  | |- calls_only _ (if ?b then _ else _) => destruct b
  | |- calls_only _ (match ?x with _ => _ end) => destruct x
  | |- calls_only _ ((match ?x with _ => _ end) _) => destruct x
  end.

Lemma _SetAnimPlugData_no_joint_request depNode attr values times context :
  no_joint_request (_SetAnimPlugData depNode attr values times context).
Proof.
  unfold no_joint_request, _SetAnimPlugData. repeat calls_only_step.
Qed.

Lemma _SetTransformAnim_no_joint_request transformNode xforms times context :
  no_joint_request (_SetTransformAnim transformNode xforms times context).
Proof.
  pose proof _SetAnimPlugData_no_joint_request as Hanim.
  unfold no_joint_request in *. unfold _SetTransformAnim.
  repeat (first [apply Hanim | calls_only_step]).
Qed.

Lemma _SetJointRadii_no_joint_request skelQuery jointNodes restXforms :
  no_joint_request (_SetJointRadii skelQuery jointNodes restXforms).
Proof.
  unfold no_joint_request, _SetJointRadii. repeat calls_only_step.
Qed.

Lemma _CopyJointRestStatesFromSkel_no_joint_request skelQuery jointNodes :
  no_joint_request (_CopyJointRestStatesFromSkel skelQuery jointNodes).
Proof.
  pose proof _SetJointRadii_no_joint_request as Hradii.
  unfold no_joint_request in *. unfold _CopyJointRestStatesFromSkel.
  repeat (first [apply Hradii | calls_only_step]).
Qed.

Lemma _CopyAnimFromSkel_no_joint_request skelQuery skelTransform jointNodes
    args context :
  no_joint_request
    (_CopyAnimFromSkel skelQuery skelTransform jointNodes args context).
Proof.
  pose proof _SetTransformAnim_no_joint_request as Hanim.
  unfold no_joint_request in *. unfold _CopyAnimFromSkel.
  repeat (first [apply Hanim | calls_only_step]).
Qed.

(** ** Creating joints *)

Lemma created_nodes_app type (a b : list Event) :
  created_nodes type (a ++ b) = created_nodes type a ++ created_nodes type b.
Proof. apply omap_app. Qed.

Lemma ancestor_lookups_app (a b : list Event) :
  ancestor_lookups (a ++ b) = ancestor_lookups a ++ ancestor_lookups b.
Proof. apply omap_app. Qed.

Lemma no_joint_request_trace type (trace : list Event) :
  Forall (fun e : Event => joint_request e.1 = false) trace ->
  created_nodes type trace = [] /\ ancestor_lookups trace = [].
Proof.
  induction 1 as [|[c reply] trace Hc _ [IH1 IH2]]; [split; reflexivity|].
  unfold created_nodes, ancestor_lookups in *. cbn [omap list_omap].
  rewrite IH1, IH2. destruct c; try discriminate Hc; split; reflexivity.
Qed.

Lemma indexed_from_In {A : Type} (l : list A) (k i : Z) (a : A) :
  In (i, a) (indexed_from k l) -> k <= i < k + Z.of_nat (length l).
Proof.
  revert k. induction l as [|b l IH]; intros k; cbn; [intros []|].
  intros [H|H]; [injection H as <- <-; lia|]. apply IH in H. lia.
Qed.

(** What one iteration of the loop of [_CreateJointNodes] can do. *)
Lemma create_joint_inv skelPath context i name nodes trace out :
  exec (create_joint skelPath context i name nodes) trace out ->
  let path := SdfPath_of_token name in
  let lookup := Context_GetMayaNode (GetParentPath (AppendPath skelPath path)) true in
  (IsEmpty path = true /\ trace = [] /\ out = Some (true, nodes)) \/
  (IsEmpty path = false /\ context = nullContext /\ trace = [] /\ out = None) \/
  (IsEmpty path = false /\ context = theContext /\
   exists found,
     (isNull (r_obj found) = true /\ trace = [(lookup, found)] /\
      out = Some (false, nodes)) \/
     (isNull (r_obj found) = false /\
      exists created,
        trace = [(lookup, found);
                 (TranslatorUtil_CreateNode (AppendPath skelPath path)
                    MayaTokens.jointType (r_obj found) context, created)] /\
        out = (fun nodes' => (r_status created, nodes'))
                <$> set_index nodes i (r_obj created))).
Proof.
  intros H path lookup. unfold create_joint in H. fold path in H.
  destruct (IsEmpty path) eqn:Hempty.
  { apply exec_Ret_inv in H as [-> ->]. left. auto. }
  right. destruct context; cbn [deref] in H.
  { unfold mbind, Prog_bind in H. cbn [bind] in H.
    apply exec_Undefined_inv in H as [-> ->]. left. auto. }
  right. split; [reflexivity|]. split; [reflexivity|].
  unfold mbind, Prog_bind, call in H. cbn [bind] in H.
  apply exec_Call_inv in H as (found & rest & -> & H). exists found.
  destruct (isNull (r_obj found)) eqn:Hnull.
  { apply exec_Ret_inv in H as [-> ->]. left. auto. }
  right. split; [reflexivity|].
  apply exec_Call_inv in H as (created & rest' & -> & H). exists created.
  destruct (set_index nodes i (r_obj created)) as [nodes'|]; cbn in H |- *.
  - apply exec_Ret_inv in H as [-> ->]. auto.
  - apply exec_Undefined_inv in H as [-> ->]. auto.
Qed.

Lemma create_joint_null skelPath context i name nodes trace out :
  exec (create_joint skelPath context i name nodes) trace out ->
  (exists e, In e (ancestor_lookups trace) /\ isNull e.2 = true) ->
  out = Some (false, nodes).
Proof.
  intros H (e & Hin & Hnull). apply create_joint_inv in H.
  destruct H as [(_ & -> & _)|[(_ & _ & -> & _)|(_ & _ & found & H)]];
    [destruct Hin..|].
  destruct H as [(_ & _ & ->)|(Hfound & created & -> & _)]; [reflexivity|].
  cbn in Hin. destruct Hin as [<-|[]]. cbn in Hnull. congruence.
Qed.

Lemma create_joint_true skelPath context i name nodes trace nodes' :
  exec (create_joint skelPath context i name nodes) trace (Some (true, nodes')) ->
  let path := SdfPath_of_token name in
  (IsEmpty path = true /\ nodes' = nodes /\
   created_nodes MayaTokens.jointType trace = [] /\
   ancestor_lookups trace = []) \/
  (IsEmpty path = false /\
   exists parent node,
     isNull parent = false /\
     set_index nodes i node = Some nodes' /\
     created_nodes MayaTokens.jointType trace =
       [(AppendPath skelPath path, parent, node)] /\
     ancestor_lookups trace =
       [(GetParentPath (AppendPath skelPath path), parent)]).
Proof.
  intros H path. apply create_joint_inv in H. fold path in H.
  destruct H as [(He & -> & H)|[(_ & _ & _ & H)|(He & _ & found & H)]];
    [|discriminate|].
  { injection H as <-. left. auto. }
  right. split; [exact He|].
  destruct H as [(_ & _ & H)|(Hfound & created & -> & H)]; [discriminate|].
  destruct (set_index nodes i (r_obj created)) as [nodes1|] eqn:Hset;
    [|discriminate].
  cbn in H. injection H as Hok <-.
  exists (r_obj found), (r_obj created).
  split; [exact Hfound|]. split; [exact Hset|].
  unfold created_nodes, ancestor_lookups. cbn. rewrite <- Hok. auto.
Qed.

Lemma at_index_negative {T : Type} (a : list T) (i : Z) :
  i < 0 -> at_index a i = None.
Proof. intros H. unfold at_index. rewrite bool_decide_eq_false_2 by lia. reflexivity. Qed.

Lemma at_index_set_other {T : Type} (a a' : list T) (i j : Z) (v : T) :
  set_index a i v = Some a' -> i <> j -> at_index a' j = at_index a j.
Proof.
  intros Hset Hne. destruct (decide (0 <= j)) as [Hj|Hj].
  - eapply at_index_set_ne; eassumption.
  - rewrite !at_index_negative by lia. reflexivity.
Qed.

(** A lookup that finds no parent ends the loop with [false]. *)
Lemma joint_loop_null skelPath context names :
  forall k nodes trace out,
    exec (for_each (indexed_from k names)
            (fun '(i, name) => create_joint skelPath context i name) nodes)
         trace out ->
    (exists e, In e (ancestor_lookups trace) /\ isNull e.2 = true) ->
    exists nodes', out = Some (false, nodes').
Proof.
  induction names as [|name names IH]; intros k nodes trace out H Hnull;
    cbn [indexed_from for_each] in H.
  - apply exec_Ret_inv in H as [-> _]. destruct Hnull as (e & [] & _).
  - apply exec_bind_inv in H as [[H ->]|(r & tr1 & tr2 & H1 & H2 & ->)].
    + apply create_joint_null in H; [discriminate | exact Hnull].
    + destruct Hnull as (e & Hin & He). rewrite ancestor_lookups_app in Hin.
      apply in_app_or in Hin as [Hin|Hin].
      * apply create_joint_null in H1; [|eauto]. injection H1 as ->.
        cbn in H2. apply exec_Ret_inv in H2 as [_ ->]. eauto.
      * destruct r as [[|] nodes1]; cbn in H2.
        -- eapply IH; eauto.
        -- apply exec_Ret_inv in H2 as [-> _]. destruct Hin.
Qed.

(** A loop that ends with [true] has created, in order, one joint for
    every name that is a path. *)
Lemma joint_loop_true skelPath context names :
  forall k nodes trace nodes',
    0 <= k ->
    exec (for_each (indexed_from k names)
            (fun '(i, name) => create_joint skelPath context i name) nodes)
         trace (Some (true, nodes')) ->
    let made := created_nodes MayaTokens.jointType trace in
    length nodes' = length nodes /\
    (fun m => m.1.1) <$> made =
      omap (fun name =>
              let jointPath := SdfPath_of_token name in
              if IsEmpty jointPath then None
              else Some (AppendPath skelPath jointPath)) names /\
    ancestor_lookups trace = (fun m => (GetParentPath m.1.1, m.1.2)) <$> made /\
    Forall (fun m => isNull m.1.2 = false) made /\
    (fun m => m.2) <$> made =
      omap (fun '(i, name) =>
              if IsEmpty (SdfPath_of_token name) then None
              else at_index nodes' i) (indexed_from k names) /\
    (forall j, j < k -> at_index nodes' j = at_index nodes j) /\
    (forall i name, In (i, name) (indexed_from k names) ->
       IsEmpty (SdfPath_of_token name) = true ->
       at_index nodes' i = at_index nodes i).
Proof.
  induction names as [|name names IH]; intros k nodes trace nodes' Hk H;
    cbn [indexed_from for_each] in H.
  - apply exec_Ret_inv in H as [-> H]. injection H as <-. cbn.
    repeat split; try reflexivity; try constructor.
  - apply exec_bind_Some in H as ([ok nodes1] & tr1 & tr2 & H1 & H2 & ->).
    destruct ok; cbn in H2;
      [|apply exec_Ret_inv in H2 as [_ H2]; discriminate].
    apply IH in H2; [|lia].
    destruct H2 as (Hlen & Hpaths & Hlook & Hparents & Hnodes & Hbelow & Hskip).
    cbv zeta. rewrite created_nodes_app, ancestor_lookups_app.
    cbn [indexed_from omap list_omap].
    assert (Hk' : at_index nodes' k = at_index nodes1 k) by (apply Hbelow; lia).
    apply create_joint_true in H1.
    destruct H1 as [(He & -> & -> & ->)|
                    (He & parent & node & Hparent & Hset & -> & ->)];
      rewrite He; cbn [app fmap list_fmap].
    + split; [exact Hlen|]. split; [exact Hpaths|]. split; [exact Hlook|].
      split; [exact Hparents|]. split; [exact Hnodes|].
      split; [intros j Hj; apply Hbelow; lia|].
      intros i name' [Heq|Hin] Hempty.
      * injection Heq as <- <-. exact Hk'.
      * exact (Hskip _ _ Hin Hempty).
    + rewrite Hk', (at_index_set_eq _ _ _ _ Hset).
      split; [rewrite Hlen; eapply set_index_length; eassumption|].
      split; [cbn; f_equal; exact Hpaths|].
      split; [cbn; f_equal; exact Hlook|].
      split; [constructor; [exact Hparent | exact Hparents]|].
      split; [cbn; f_equal; exact Hnodes|].
      split.
      * intros j Hj. rewrite Hbelow by lia.
        eapply at_index_set_other; [eassumption | lia].
      * intros i name' [Heq|Hin] Hempty.
        -- injection Heq as <- <-. congruence.
        -- rewrite (Hskip _ _ Hin Hempty).
           apply indexed_from_In in Hin.
           eapply at_index_set_other; [eassumption | lia].
Qed.

Lemma create_joints_tail_quiet skelQuery skelTransform jointNodes args context
    type trace out :
  exec (require (_CopyJointRestStatesFromSkel skelQuery jointNodes)
          (_CopyAnimFromSkel skelQuery skelTransform jointNodes args context))
       trace out ->
  created_nodes type trace = [] /\ ancestor_lookups trace = [].
Proof.
  intros H. apply no_joint_request_trace.
  eapply (exec_calls_only (fun c => joint_request c = false)); [|exact H].
  apply calls_only_require.
  - apply _CopyJointRestStatesFromSkel_no_joint_request.
  - apply _CopyAnimFromSkel_no_joint_request.
Qed.

(** C5, amended: for every valid skeleton query and non-null joints
    output, a CreateJoints that returns true leaves a joints vector as long
    as the joint order and has created exactly one Maya joint node per
    entry of the joint order whose token is a non-empty path, in joint
    order (entries with an empty path are skipped and keep their slot of the
    vector as it was); each joint is created under the non-null node the
    reader context returned for its parent path, looked up with
    findAncestors; and CreateJoints returns false when that lookup finds no
    node for some joint. *)
Theorem create_joints_creates_named_joints skelQuery parentNode args context
    jointVector trace out :
  sq_valid skelQuery = true ->
  exec (CreateJoints skelQuery parentNode args context (Some jointVector))
       trace out ->
  let skelPath := AppendChild (GetPrimPath skelQuery) MayaTokens.Skeleton in
  let numJoints := length (GetJointOrder skelQuery) in
  let made := created_nodes MayaTokens.jointType trace in
  ((exists e, In e (ancestor_lookups trace) /\ isNull e.2 = true) ->
   exists joints, out = Some (false, joints)) /\
  (forall joints, out = Some (true, joints) ->
   exists nodes,
     joints = Some nodes /\
     length nodes = numJoints /\
     (fun m => m.1.1) <$> made = joint_paths skelQuery skelPath /\
     (fun m => m.2) <$> made = joint_nodes skelQuery nodes /\
     ancestor_lookups trace =
       (fun m => (GetParentPath m.1.1, m.1.2)) <$> made /\
     Forall (fun m => isNull m.1.2 = false) made /\
     (forall i name,
        In (i, name) (indexed (GetJointOrder skelQuery)) ->
        IsEmpty (SdfPath_of_token name) = true ->
        at_index nodes i =
        at_index (resize numJoints kNullObj jointVector) i)).
Proof.
  intros Hvalid H skelPath numJoints made.
  unfold CreateJoints in H. rewrite Hvalid in H. cbn [negb] in H.
  fold skelPath in H. unfold mbind, Prog_bind, call in H. cbn [bind] in H.
  apply exec_Call_inv in H as (created & rest & Htrace & H).
  assert (Hmade : made = created_nodes MayaTokens.jointType rest).
  { unfold made. rewrite Htrace. reflexivity. }
  assert (Hlook : ancestor_lookups trace = ancestor_lookups rest).
  { rewrite Htrace. reflexivity. }
  rewrite Hlook, Hmade. clear Hlook Hmade Htrace made.
  destruct (r_status created); cbn [negb] in H.
  2:{ apply exec_Ret_inv in H as [-> ->].
      split; [intros (e & [] & _) | intros joints Hout; discriminate]. }
  apply exec_bind_inv in H as [[H ->]|([ok1 nodes] & tr1 & tr2 & H1 & H2 & ->)].
  { split; [|intros joints Hout; discriminate].
    intros Hnull. eapply joint_loop_null in H as (nodes' & Hout); [|exact Hnull].
    discriminate. }
  destruct ok1; cbn [negb] in H2.
  2:{ apply exec_Ret_inv in H2 as [-> ->]. rewrite app_nil_r.
      split; [eauto | intros joints Hout; discriminate]. }
  apply exec_bind_inv in H2 as [[H2 ->]|(ok2 & tr2a & tr2b & H2 & H3 & ->)].
  { destruct (create_joints_tail_quiet _ _ _ _ _ MayaTokens.jointType _ _ H2)
      as [_ Hquiet].
    split; [|intros joints Hout; discriminate].
    intros (e & Hin & He). rewrite ancestor_lookups_app, Hquiet, app_nil_r in Hin.
    eapply joint_loop_null in H1 as (nodes' & Hout); [|eauto]. discriminate. }
  apply exec_Ret_inv in H3 as [-> ->]. rewrite app_nil_r.
  destruct (create_joints_tail_quiet _ _ _ _ _ MayaTokens.jointType _ _ H2)
    as [Hq1 Hq2].
  rewrite created_nodes_app, ancestor_lookups_app, Hq1, Hq2, !app_nil_r.
  split.
  { intros Hnull. eapply joint_loop_null in H1 as (nodes' & Hout); [|exact Hnull].
    discriminate. }
  intros joints Hout. injection Hout as -> <-.
  unfold _CreateJointNodes, indexed in H1.
  apply joint_loop_true in H1; [|lia].
  destruct H1 as (Hlen & Hpaths & Hlookups & Hparents & Hnodes & _ & Hskip).
  exists nodes. split; [reflexivity|].
  split; [rewrite Hlen; apply length_resize|].
  split; [exact Hpaths|]. split; [exact Hnodes|]. split; [exact Hlookups|].
  split; [exact Hparents | exact Hskip].
Qed.

(** ** The bind pose *)

Lemma attached_app (a b : list Event) :
  attached (a ++ b) = attached a ++ attached b.
Proof. apply omap_app. Qed.

Lemma dg_created_app (a b : list Event) :
  dg_created (a ++ b) = dg_created a ++ dg_created b.
Proof. apply omap_app. Qed.

Lemma renamed_app (a b : list Event) :
  renamed (a ++ b) = renamed a ++ renamed b.
Proof. apply omap_app. Qed.

Lemma connections_app (a b : list Event) :
  connections (a ++ b) = connections a ++ connections b.
Proof. apply omap_app. Qed.

Lemma matrices_set_app (a b : list Event) :
  matrices_set (a ++ b) = matrices_set a ++ matrices_set b.
Proof. apply omap_app. Qed.

(** Steps back through a run that ended with [true]. *)
Ltac checked_inv H :=
  let r := fresh "r" in
  let t := fresh "t" in
  let S := fresh "S" in
  apply exec_checked_true in H as (r & t & -> & S & H).

Ltac lift_inv H Heq :=
  let a := fresh "a" in
  let tA := fresh "tA" in
  let tB := fresh "tB" in
  let HL := fresh "HL" in
  apply exec_bind_Some in H as (a & tA & tB & HL & H & ->);
  apply exec_lift_Some in HL as [Heq ->].

Ltac rewrite_statuses :=
  repeat match goal with
         | Hs : r_status _ = true |- _ => rewrite Hs
         end.

(** What [CreateBindPose] does for one joint when it goes on. *)
Lemma wire_joint_true skelQuery bindPose numJoints xforms i joint trace :
  0 <= i < 2 ^ 32 -> Z.of_nat numJoints < 2 ^ 32 ->
  exec (wire_joint skelQuery bindPose numJoints xforms i joint) trace
       (Some true) ->
  exists ok : bool,
    attached trace = [(joint, ok)] /\
    dg_created trace = [] /\ renamed trace = [] /\
    connections trace =
      (if ok then bind_pose_connections skelQuery bindPose numJoints i joint
       else []) /\
    matrices_set trace =
      (if ok then bind_pose_matrices bindPose xforms i else []) /\
    (ok = true -> is_Some (at_index xforms i)).
Proof.
  intros Hi Hn H. unfold wire_joint in H. rewrite (u32_small i) in H by lia.
  unfold mbind, Prog_bind, call in H. cbn [bind] in H.
  apply exec_Call_inv in H as (attach & rest & -> & H).
  destruct (r_status attach) eqn:Hok.
  2:{ apply exec_Ret_inv in H as [-> _]. exists false.
      unfold attached. cbn. rewrite Hok. repeat split. discriminate. }
  do 7 checked_inv H.
  lift_inv H Hparent.
  apply exec_require_true in H as (tP & tR & HP & H & ->).
  checked_inv H. lift_inv H Hxform. checked_inv H.
  apply exec_Ret_inv in H as [-> _].
  exists true. unfold bind_pose_connections, parent_plug, bind_pose_matrices.
  rewrite Hparent, Hxform.
  destruct (valid_parent a numJoints) eqn:Hvalid.
  - unfold valid_parent in Hvalid.
    apply andb_true_iff in Hvalid as [Hp1 Hp2].
    apply bool_decide_eq_true_1 in Hp1. apply bool_decide_eq_true_1 in Hp2.
    rewrite (u32_small a) in HP by lia.
    do 2 checked_inv HP. apply exec_Ret_inv in HP as [-> _].
    unfold attached, dg_created, renamed, connections, matrices_set.
    cbn. rewrite Hok. rewrite_statuses. repeat split. eauto.
  - checked_inv HP. apply exec_Ret_inv in HP as [-> _].
    unfold attached, dg_created, renamed, connections, matrices_set.
    cbn. rewrite Hok. rewrite_statuses. repeat split. eauto.
Qed.

Lemma wire_joints_true skelQuery bindPose numJoints xforms joints :
  forall k traces,
    0 <= k -> k + Z.of_nat (length joints) <= 2 ^ 32 ->
    Z.of_nat numJoints < 2 ^ 32 ->
    Forall2 (fun a tr =>
               exec ((fun '(i, joint) =>
                        wire_joint skelQuery bindPose numJoints xforms i joint)
                       a) tr (Some true))
            (indexed_from k joints) traces ->
    exists accepted : list bool,
      length accepted = length joints /\
      attached (concat traces) = zip joints accepted /\
      dg_created (concat traces) = [] /\
      renamed (concat traces) = [] /\
      connections (concat traces) =
        for_attached_from k joints accepted
          (bind_pose_connections skelQuery bindPose numJoints) /\
      matrices_set (concat traces) =
        for_attached_from k joints accepted
          (fun i _ => bind_pose_matrices bindPose xforms i) /\
      Forall (fun '(i, _, ok) => ok = true -> is_Some (at_index xforms i))
             (zip (indexed_from k joints) accepted).
Proof.
  induction joints as [|joint joints IH]; intros k traces Hk Hlen Hn HF;
    cbn [indexed_from] in HF.
  - apply Forall2_nil_inv_l in HF as ->. exists []. cbn. repeat split.
    constructor.
  - apply Forall2_cons_inv_l in HF as (tr & traces' & H1 & HF & ->).
    cbn [length] in Hlen.
    apply wire_joint_true in H1; [|lia..].
    destruct H1 as (ok & Ha & Hd & Hr & Hc & Hm & Hx).
    apply IH in HF; [|lia..].
    destruct HF as (accepted & Hacc & Ha' & Hd' & Hr' & Hc' & Hm' & Hx').
    exists (ok :: accepted). split; [cbn; congruence|].
    unfold for_attached_from in *.
    cbn [concat indexed_from zip zip_with fmap list_fmap].
    rewrite attached_app, dg_created_app, renamed_app, connections_app,
      matrices_set_app.
    rewrite Ha, Hd, Hr, Hc, Hm, Ha', Hd', Hr', Hc', Hm'.
    repeat split. constructor; assumption.
Qed.

(** C6, amended: for every valid skeleton query and joint list of length
    n (below 2^32), a CreateBindPose that returns true has created one
    dagPose node, renamed 'bindPose', and, for each joint i < n that
    MFnDependencyNode could be attached to, has connected joint_i.message to
    bindPose.members[i] and joint_i.bindPose to bindPose.worldMatrix[i], set
    bindPose.xformMatrix[i] to the local rest transform of joint i, and
    connected bindPose.members[parent(i)] to bindPose.parents[i] when
    parent(i) is an index in [0, n) and bindPose.world to
    bindPose.parents[i] otherwise; nothing is connected or set for a joint
    that could not be attached (a null object). *)
Theorem create_bind_pose_wires_attached_joints skelQuery joints context
    bindPoseNode trace out :
  sq_valid skelQuery = true ->
  Z.of_nat (length joints) < 2 ^ 32 ->
  exec (CreateBindPose skelQuery joints context (Some bindPoseNode)) trace
       (Some (true, out)) ->
  exists (bindPose : MObject) (xforms : list GfMatrix4d)
         (accepted : list bool),
    out = Some bindPose /\
    dg_created trace = [(MayaTokens.dagPoseType, bindPose)] /\
    renamed trace = [(bindPose, MayaTokens.bindPose)] /\
    ComputeJointLocalTransforms skelQuery Default true = Some xforms /\
    length accepted = length joints /\
    attached trace = (bindPose, true) :: zip joints accepted /\
    connections trace =
      for_attached joints accepted
        (bind_pose_connections skelQuery bindPose (length joints)) /\
    matrices_set trace =
      for_attached joints accepted
        (fun i _ => bind_pose_matrices bindPose xforms i) /\
    Forall (fun '(i, _, ok) => ok = true -> is_Some (at_index xforms i))
           (zip (indexed joints) accepted).
Proof.
  intros Hvalid Hn H. unfold CreateBindPose in H.
  rewrite Hvalid in H. cbn [negb] in H.
  unfold mbind, Prog_bind, call in H. cbn [bind] in H.
  apply exec_Call_inv in H as (created & rest & -> & H).
  apply exec_bind_Some in H as (ok & tr1 & tr2 & H & Hret & ->).
  apply exec_Ret_inv in Hret as [-> Hret].
  injection Hret as Hok Hout. subst ok out. rewrite app_nil_r.
  destruct (r_status created) eqn:Hcreated; cbn [negb] in H;
    [|apply exec_Ret_inv in H as [_ H]; discriminate].
  do 2 checked_inv H.
  apply exec_Call_inv in H as (name & rest & -> & H).
  destruct context; cbn [deref bind] in H;
    [apply exec_Undefined_inv in H as [_ H]; discriminate|].
  apply exec_Call_inv in H as (registered & rest' & -> & H).
  do 9 checked_inv H.
  destruct (ComputeJointLocalTransforms skelQuery Default true)
    as [xforms|] eqn:Hxforms;
    [|apply exec_Ret_inv in H as [_ H]; discriminate].
  apply exec_require_true in H as (tL & tR & HL & H & ->).
  do 2 checked_inv H. apply exec_Ret_inv in H as [-> _].
  apply exec_for_all_true in HL as (traces & HF & ->).
  apply wire_joints_true in HF; [|lia..].
  destruct HF as (accepted & Hacc & Ha & Hd & Hr & Hc & Hm & Hx).
  exists (r_obj created), xforms, accepted.
  unfold for_attached, indexed.
  split; [reflexivity|].
  unfold attached, dg_created, renamed, connections, matrices_set in *.
  cbn. rewrite !omap_app. rewrite Ha, Hd, Hr, Hc, Hm.
  cbn. rewrite Hcreated. rewrite_statuses.
  rewrite !app_nil_r. repeat split; assumption.
Qed.

(** ** Skin cluster weights *)

(** C4: for every point pt < numPoints and joint j < numJoints the weight
    written at pt*numJoints + j is the sum, over the influence slots c of
    the point whose index is j, of weights[pt*numInfluencesPerPoint + c];
    slots whose joint index is negative or >= numJoints add nothing; with
    no joints the function returns true and sets no weights.  With joints,
    the function asks for the path of the mesh, attaches the skin cluster
    function set and calls setWeights once, for the complete vertex
    component of numPoints points, with the influence indices
    0..numJoints-1, this weight array and normalize = false; it stops with
    false at the first of these calls that fails and returns true when all
    three succeed.  The sizes are those of the caller
    (numPoints * numInfluencesPerPoint entries) and the unsigned products do
    not wrap around. *)
Theorem skin_weights_are_influence_sums
    (meshFn skinCluster : MObject) (joints : list MObject)
    (indices : list Z) (weights : list float)
    (numInfluencesPerPoint numPoints : Z) :
  let numJoints := Z.of_nat (length joints) in
  0 <= numInfluencesPerPoint -> 0 <= numPoints ->
  numJoints < 2 ^ 32 ->
  numPoints * numJoints < 2 ^ 32 ->
  numPoints * numInfluencesPerPoint < 2 ^ 32 ->
  Z.of_nat (length indices) = numPoints * numInfluencesPerPoint ->
  Z.of_nat (length weights) = numPoints * numInfluencesPerPoint ->
  Forall (fun i => - 2 ^ 31 <= i < 2 ^ 31) indices ->
  let program :=
    _SetVaryingJointInfluences meshFn skinCluster joints indices weights
      numInfluencesPerPoint numPoints in
  (joints = [] ->
   forall trace out, exec program trace out -> trace = [] /\ out = Some true) /\
  exists vw : list double,
    SkinWeights.vertOrderedWeights numJoints indices weights
      numInfluencesPerPoint numPoints = Some vw /\
    Z.of_nat (length vw) = numPoints * numJoints /\
    (forall pt j, 0 <= pt < numPoints -> 0 <= j < numJoints ->
       at_index vw (pt * numJoints + j) =
       Some (SkinWeights.influence_sum indices weights numInfluencesPerPoint
               pt j)) /\
    (forall pt c jointIdx acc,
       0 <= pt < numPoints -> 0 <= c < numInfluencesPerPoint ->
       at_index indices (pt * numInfluencesPerPoint + c) = Some jointIdx ->
       jointIdx < 0 \/ numJoints <= jointIdx ->
       SkinWeights.accumulate indices weights numInfluencesPerPoint numJoints
         pt c acc = Some acc) /\
    (joints <> [] ->
     let calls (r1 r2 r3 : Reply) : list Event :=
       [(MFnMesh_getPath meshFn, r1);
        (MFn_setObject FnSkinCluster skinCluster, r2);
        (MFnSkinCluster_setWeights skinCluster (PathOfMesh meshFn)
           (CompleteData numPoints) (SkinWeights.influenceIndices numJoints)
           vw false, r3)] in
     (forall r1 r2 r3,
         r_status r1 = true -> r_status r2 = true -> r_status r3 = true ->
         exec program (calls r1 r2 r3) (Some true) /\
         weights_set (calls r1 r2 r3) =
           [(SkinWeights.influenceIndices numJoints, vw)]) /\
     forall trace out, exec program trace out ->
       (exists ok : bool,
           out = Some ok /\
           weights_set trace =
             (if ok then [(SkinWeights.influenceIndices numJoints, vw)]
              else [])) /\
       exists r1 r2 r3 : Reply,
         (r_status r1 = false /\ trace = take 1 (calls r1 r2 r3) /\
          out = Some false) \/
         (r_status r1 = true /\ r_status r2 = false /\
          trace = take 2 (calls r1 r2 r3) /\ out = Some false) \/
         (r_status r1 = true /\ r_status r2 = true /\
          trace = calls r1 r2 r3 /\ out = Some (r_status r3))).
Proof.
  intros J HK HP HJ32 HPJ HPK Hi Hw Hint program.
  assert (HJ : 0 <= J) by (unfold J; lia).
  split.
  { intros -> trace out H. apply exec_Ret_inv in H. exact H. }
  destruct (vertOrderedWeights_spec indices weights numInfluencesPerPoint J
              numPoints HK HJ HPJ HPK Hi Hw Hint HP) as (vw & Hvw & Hlen & Hat).
  exists vw. split; [exact Hvw|]. split; [exact Hlen|]. split; [exact Hat|].
  split.
  { intros pt c jointIdx acc Hpt Hc Hidx Hout.
    eapply accumulate_out_of_range; eassumption. }
  intros Hne calls.
  assert (Hprogram :
            program =
            checked (MFnMesh_getPath meshFn) (fun _ =>
            checked (MFn_setObject FnSkinCluster skinCluster) (fun _ =>
            checked (MFnSkinCluster_setWeights skinCluster (PathOfMesh meshFn)
                       (CompleteData numPoints)
                       (SkinWeights.influenceIndices J) vw false)
              (fun _ => Ret true)))).
  { unfold program, _SetVaryingJointInfluences.
    rewrite bool_decide_eq_false_2
      by (destruct joints; [congruence|discriminate]).
    fold J. rewrite (u32_small J) by lia.
    unfold mbind, Prog_bind. rewrite Hvw. reflexivity. }
  rewrite Hprogram. clear Hprogram. split.
  { intros r1 r2 r3 H1 H2 H3. split.
    - unfold calls, checked. constructor. rewrite H1.
      constructor. rewrite H2. constructor. rewrite H3. constructor.
    - unfold calls, weights_set. cbn. rewrite H3. reflexivity. }
  intros trace out H.
  apply exec_Call_inv in H as (r1 & tr1 & -> & H).
  destruct (r_status r1) eqn:H1.
  2:{ apply exec_Ret_inv in H as [-> ->].
      split; [exists false; split; reflexivity|].
      exists r1, r1, r1. left. auto. }
  apply exec_Call_inv in H as (r2 & tr2 & -> & H).
  destruct (r_status r2) eqn:H2.
  2:{ apply exec_Ret_inv in H as [-> ->].
      split; [exists false; split; reflexivity|].
      exists r1, r2, r2. right. left. auto. }
  apply exec_Call_inv in H as (r3 & tr3 & -> & H).
  assert (Hout : tr3 = [] /\ out = Some (r_status r3)).
  { destruct (r_status r3); apply exec_Ret_inv in H; exact H. }
  destruct Hout as [-> ->]. split.
  - exists (r_status r3). split; [reflexivity|].
    unfold weights_set. cbn. destruct (r_status r3); reflexivity.
  - exists r1, r2, r3. right. right. auto.
Qed.

(** ** Skin cluster: the checks on its arguments *)

Lemma create_skin_cluster_invalid_skel_query skelQuery skinningQuery joints
    primToSkin args context bindPose :
  sq_valid skelQuery = false ->
  CreateSkinCluster skelQuery skinningQuery joints primToSkin args context
    bindPose = Ret false.
Proof. intros H. unfold CreateSkinCluster. rewrite H. reflexivity. Qed.

Lemma create_skin_cluster_invalid_prim skelQuery skinningQuery joints
    primToSkin args context bindPose :
  sq_valid skelQuery = true -> prim_valid primToSkin = false ->
  CreateSkinCluster skelQuery skinningQuery joints primToSkin args context
    bindPose = Ret false.
Proof. intros H1 H2. unfold CreateSkinCluster. rewrite H1, H2. reflexivity. Qed.

(** With valid [skelQuery] and [primToSkin] the function first asks the
    context for the node of the prim; when there is none it returns true
    and has done nothing else. *)
Lemma create_skin_cluster_no_node skelQuery skinningQuery joints primToSkin
    args bindPose trace out :
  sq_valid skelQuery = true -> prim_valid primToSkin = true ->
  exec (CreateSkinCluster skelQuery skinningQuery joints primToSkin args
          theContext bindPose) trace out ->
  exists found rest,
    trace = (Context_GetMayaNode (GetPath primToSkin) false, found) :: rest /\
    (isNull (r_obj found) = true -> rest = [] /\ out = Some true).
Proof.
  intros Hsq Hprim H. unfold CreateSkinCluster in H.
  rewrite Hsq, Hprim in H. cbn [negb deref] in H.
  unfold mbind, Prog_bind, call in H. cbn [bind] in H.
  apply exec_Call_inv in H as (found & rest & -> & H).
  exists found, rest. split; [reflexivity|]. intros Hnull.
  rewrite Hnull in H. apply exec_Ret_inv in H. exact H.
Qed.

(** When the shape found below the node is not a mesh it returns true and
    has created nothing: the calls made are the five that resolve the
    shape and its type. *)
Lemma create_skin_cluster_not_mesh skelQuery skinningQuery joints primToSkin
    args bindPose trace out shape type :
  sq_valid skelQuery = true -> prim_valid primToSkin = true ->
  exec (CreateSkinCluster skelQuery skinningQuery joints primToSkin args
          theContext bindPose) trace out ->
  In (MObject_apiType shape, type) (take 5 trace) -> r_type type <> kMesh ->
  out = Some true /\ length trace = 5%nat /\
  Forall (fun e : Event => creates_node e.1 = false) trace.
Proof.
  intros Hsq Hprim H Hin Hty. unfold CreateSkinCluster in H.
  rewrite Hsq, Hprim in H. cbn [negb deref] in H.
  unfold mbind, Prog_bind, call in H. cbn [bind] in H.
  apply exec_Call_inv in H as (found & tr & -> & H).
  destruct (isNull (r_obj found)).
  { apply exec_Ret_inv in H as [-> _]. cbn in Hin.
    destruct Hin as [Hin|[]]. discriminate. }
  apply exec_Call_inv in H as (r1 & tr1 & -> & H).
  destruct (r_status r1).
  2:{ apply exec_Ret_inv in H as [-> _]. cbn in Hin.
      repeat (destruct Hin as [Hin|Hin]; [discriminate|]). destruct Hin. }
  apply exec_Call_inv in H as (r2 & tr2 & -> & H).
  destruct (r_status r2).
  2:{ apply exec_Ret_inv in H as [-> _]. cbn in Hin.
      repeat (destruct Hin as [Hin|Hin]; [discriminate|]). destruct Hin. }
  apply exec_Call_inv in H as (r3 & tr3 & -> & H).
  destruct (r_status r3).
  2:{ apply exec_Ret_inv in H as [-> _]. cbn in Hin.
      repeat (destruct Hin as [Hin|Hin]; [discriminate|]). destruct Hin. }
  cbn [bind] in H.
  apply exec_Call_inv in H as (type' & tr4 & -> & H).
  cbn in Hin.
  repeat (destruct Hin as [Hin|Hin]; [discriminate|]).
  destruct Hin as [Hin|[]]. injection Hin as <- <-.
  rewrite bool_decide_eq_false_2 in H by assumption. cbn [negb] in H.
  apply exec_Ret_inv in H as [-> ->].
  split; [reflexivity|]. split; [reflexivity|]. repeat constructor.
Qed.

(** C8 at a failing input: with a valid skelQuery and primToSkin and an
    invalid skinningQuery, CreateSkinCluster goes on after the coding error
    and, when the context has no node for the prim, returns true, where
    false is the result expected of an invalid skinningQuery. *)
Theorem create_skin_cluster_invalid_skinning_query skelQuery skinningQuery
    joints primToSkin args bindPose found :
  sq_valid skelQuery = true -> skq_valid skinningQuery = false ->
  prim_valid primToSkin = true -> isNull (r_obj found) = true ->
  exec (CreateSkinCluster skelQuery skinningQuery joints primToSkin args
          theContext bindPose)
       [(Context_GetMayaNode (GetPath primToSkin) false, found)] (Some true).
Proof.
  intros Hsq _ Hprim Hnull. unfold CreateSkinCluster.
  rewrite Hsq, Hprim. cbn [negb deref].
  unfold mbind, Prog_bind, call. cbn [bind].
  constructor. rewrite Hnull. constructor.
Qed.

End TranslatorFacts.

Lemma create_skin_cluster_invalid_skinning_query_witness :
  exec (CreateSkinCluster Sample.fork Sample.invalid_skinning_query []
          Sample.mesh_prim Sample.args0 theContext kNullObj)
       [(Context_GetMayaNode (GetPath Sample.mesh_prim) false,
         Sample.ok true kNullObj)] (Some true).
Proof.
  apply (create_skin_cluster_invalid_skinning_query Sample.fork
           Sample.invalid_skinning_query [] Sample.mesh_prim Sample.args0
           kNullObj (Sample.ok true kNullObj)); reflexivity.
Defined.

(** C5 as stated fails on a joint order with an entry that is not a path:
    CreateJoints returns true, the vector has three entries, and two joints
    were created. *)
Lemma create_joints_skips_empty_path :
  sq_valid Sample.gap = true /\
  exists w trace nodes,
    run Sample.host
        (CreateJoints Sample.gap (MNode 1) Sample.args0 theContext (Some []))
        Sample.world0 = Some ((true, Some nodes), w, trace) /\
    length nodes = 3%nat /\
    length (created_nodes MayaTokens.jointType trace) = 2%nat /\
    ~ one_joint_per_entry Sample.gap trace.
Proof.
  split; [reflexivity|]. eexists _, _, _. split; [reflexivity|].
  split; [reflexivity|]. split; [reflexivity|].
  unfold one_joint_per_entry. vm_compute. discriminate.
Qed.

Lemma create_joints_creates_named_joints_witness :
  exists trace nodes,
    exec (CreateJoints Sample.fork (MNode 1) Sample.args0 theContext (Some []))
         trace (Some (true, Some nodes)) /\
    length nodes = 3%nat /\
    (fun m => m.1.1) <$> created_nodes MayaTokens.jointType trace =
      joint_paths Sample.fork (Some ["Model"; "Skeleton"]%string).
Proof.
  eassert (Hrun : run Sample.host
                    (CreateJoints Sample.fork (MNode 1) Sample.args0
                       theContext (Some []))
                    Sample.world0 = Some ((true, _), _, _)) by reflexivity.
  apply run_exec in Hrun.
  destruct (create_joints_creates_named_joints Sample.fork _ _ _ _ _ _
              eq_refl Hrun) as [_ H].
  destruct (H _ eq_refl) as (nodes & Heq & Hlen & Hpaths & _).
  eexists _, nodes. rewrite <- Heq.
  split; [exact Hrun|]. split; [exact Hlen | exact Hpaths].
Defined.

(** C6 as stated fails on a joint list with a null object, as CreateJoints
    leaves for an entry of the joint order that is not a path: CreateBindPose
    returns true and has connected nothing to slot 1 of the dagPose node. *)
Lemma create_bind_pose_skips_null_joint :
  sq_valid Sample.gap = true /\
  (exists w trace,
      run Sample.host
          (CreateJoints Sample.gap (MNode 1) Sample.args0 theContext (Some []))
          Sample.world0 = Some ((true, Some Sample.gap_joints), w, trace)) /\
  exists w trace bindPose,
    run Sample.host
        (CreateBindPose Sample.gap Sample.gap_joints theContext (Some kNullObj))
        Sample.after_gap_joints = Some ((true, Some bindPose), w, trace) /\
    connections trace =
      for_attached Sample.gap_joints [true; false; true]
        (bind_pose_connections Sample.gap bindPose 3) /\
    (forall src dst, In (src, dst) (connections trace) ->
       dst <> Element (Plug bindPose MayaTokens.parents) 1 /\
       src <> Element (Plug bindPose MayaTokens.parents) 1) /\
    ~ every_joint_wired Sample.gap Sample.gap_joints bindPose
        Sample.fork_xforms trace.
Proof.
  split; [reflexivity|]. split; [eexists _, _; reflexivity|].
  eexists _, _, _. split; [reflexivity|].
  split; [reflexivity|]. split.
  - intros src dst H. vm_compute in H.
    repeat (destruct H as [H|H];
            [injection H as <- <-; split; discriminate|]).
    destruct H.
  - intros Hall. destruct (Hall 1 kNullObj eq_refl) as [[H|H] _];
      vm_compute in H;
      repeat (destruct H as [H|H]; [discriminate|]); destruct H.
Qed.

Lemma create_bind_pose_wires_attached_joints_witness :
  exists trace bindPose accepted,
    exec (CreateBindPose Sample.gap Sample.gap_joints theContext
            (Some kNullObj)) trace (Some (true, Some bindPose)) /\
    length accepted = 3%nat /\
    connections trace =
      for_attached Sample.gap_joints accepted
        (bind_pose_connections Sample.gap bindPose 3).
Proof.
  eassert (Hrun : run Sample.host
                    (CreateBindPose Sample.gap Sample.gap_joints theContext
                       (Some kNullObj))
                    Sample.after_gap_joints = Some ((true, Some _), _, _))
    by reflexivity.
  apply run_exec in Hrun.
  destruct (create_bind_pose_wires_attached_joints Sample.gap
              Sample.gap_joints theContext kNullObj _ _ eq_refl eq_refl Hrun)
    as (bindPose & xforms & accepted & Hout & _ & _ & _ & Hacc & _ & Hc & _).
  injection Hout as Hout. subst bindPose.
  eexists _, _, accepted.
  split; [exact Hrun|]. split; [exact Hacc | exact Hc].
Defined.

(** The same run on the sample host: no node is registered for
    [/Model/Mesh], and the result is true. *)
Lemma create_skin_cluster_invalid_skinning_query_run :
  run Sample.host
      (CreateSkinCluster Sample.fork Sample.invalid_skinning_query []
         Sample.mesh_prim Sample.args0 theContext kNullObj) Sample.world0 =
  Some (true, Sample.world0,
        [(Context_GetMayaNode (GetPath Sample.mesh_prim) false,
          Sample.ok true kNullObj)]).
Proof. reflexivity. Qed.

Lemma skin_weights_are_influence_sums_witness :
  let indices := [0; 1; 0; 0; 5; -1] in
  let weights :=
    (fun n => Float32.div (Float32.of_Z n) (Float32.of_Z 4)) <$>
      [1; 2; 3; 4; 5; 6] in
  exists (vw : list double) (w : Sample.World)
         (trace : list (@Event Sample.sdf Sample.gf)),
    SkinWeights.vertOrderedWeights 2 indices weights 3 2 = Some vw /\
    (forall pt j, 0 <= pt < 2 -> 0 <= j < 2 ->
       at_index vw (pt * 2 + j) =
       Some (SkinWeights.influence_sum indices weights 3 pt j)) /\
    run Sample.host
        (_SetVaryingJointInfluences (MNode 1) (MNode 2) [MNode 3; MNode 4]
           indices weights 3 2) Sample.world0 = Some (true, w, trace) /\
    trace =
      [(MFnMesh_getPath (MNode 1), Sample.ok true kNullObj);
       (MFn_setObject FnSkinCluster (MNode 2), Sample.ok true (MNode 2));
       (MFnSkinCluster_setWeights (MNode 2) (PathOfMesh (MNode 1))
          (CompleteData 2) [0; 1] vw false, Sample.ok true kNullObj)] /\
    weights_set trace = [([0; 1], vw)].
Proof.
  intros indices weights.
  destruct (skin_weights_are_influence_sums (sdf := Sample.sdf)
              (gf := Sample.gf) (MNode 1) (MNode 2) [MNode 3; MNode 4]
              indices weights 3 2)
    as [_ (vw & Hvw & _ & Hat & _ & Hrun)];
    [lia | lia | vm_compute; reflexivity | vm_compute; reflexivity
    | vm_compute; reflexivity | reflexivity | reflexivity
    | repeat constructor; vm_compute; congruence |].
  destruct (Hrun ltac:(discriminate)) as [Hlive _].
  destruct (Hlive (Sample.ok true kNullObj) (Sample.ok true (MNode 2))
              (Sample.ok true kNullObj) eq_refl eq_refl eq_refl)
    as [_ Hset].
  exists vw, Sample.world0. eexists.
  split; [exact Hvw|]. split; [exact Hat|].
  split; [|split; [reflexivity | exact Hset]].
  unfold _SetVaryingJointInfluences. cbn [length].
  rewrite bool_decide_eq_false_2 by discriminate.
  change (Z.of_nat (length [MNode 3; MNode 4])) with 2 in Hvw.
  change (u32 (Z.of_nat 2)) with 2.
  unfold mbind, Prog_bind. rewrite Hvw. reflexivity.
Defined.

(** ** Joint radii *)

(** [double_0_1] is the correctly rounded quotient 1/10. *)
Lemma double_0_1_nearest :
  double_0_1 = Float64.div (Float64.of_Z 1) (Float64.of_Z 10).
Proof. vm_compute. reflexivity. Qed.

(** The two rules for a joint without children: a joint with a valid
    parent takes the radius kept for the parent, another joint takes 1.0. *)
Lemma resolved_radius_leaf {sdf : SdfPathOps} {gf : GfOps} skelQuery numJoints
    radii childCounts i parent :
  at_index childCounts i = Some 0 ->
  GetParent skelQuery i = Some parent ->
  valid_parent parent numJoints = true ->
  resolved_radius skelQuery numJoints radii childCounts i =
  Float64.of_float <$> at_index radii parent.
Proof.
  intros Hcount Hparent Hvalid. unfold resolved_radius.
  rewrite Hcount. cbn. rewrite Hparent. cbn. rewrite Hvalid. reflexivity.
Qed.

Lemma resolved_radius_root {sdf : SdfPathOps} {gf : GfOps} skelQuery numJoints
    radii childCounts i parent :
  at_index childCounts i = Some 0 ->
  GetParent skelQuery i = Some parent ->
  valid_parent parent numJoints = false ->
  resolved_radius skelQuery numJoints radii childCounts i =
  Some (Float64.of_Z 1).
Proof.
  intros Hcount Hparent Hvalid. unfold resolved_radius.
  rewrite Hcount. cbn. rewrite Hparent. cbn. rewrite Hvalid. reflexivity.
Qed.

(** One iteration of the first loop replaces the radius kept for the
    parent, whatever it was, and adds one to its child count. *)
Lemma bone_step_overwrites {sdf : SdfPathOps} {gf : GfOps} skelQuery numJoints
    restXforms i radii childCounts radii' childCounts' parent :
  bone_step skelQuery numJoints restXforms i (radii, childCounts) =
    Some (radii', childCounts') ->
  GetParent skelQuery i = Some parent ->
  valid_parent parent numJoints = true ->
  exists xform parentXform,
    at_index restXforms i = Some xform /\
    at_index restXforms parent = Some parentXform /\
    at_index radii' parent =
      Some (Float64.to_float
              (Float64.mul
                 (GetLength (GfVec3d_minus (ExtractTranslation xform)
                               (ExtractTranslation parentXform)))
                 double_0_1)) /\
    at_index childCounts' parent =
      (fun n => n + 1) <$> at_index childCounts parent.
Proof.
  intros H Hparent Hvalid. unfold bone_step in H.
  destruct (at_index restXforms i) as [xform|]; [|discriminate].
  cbn [mbind option_bind] in H. rewrite Hparent in H.
  cbn [mbind option_bind] in H. rewrite Hvalid in H.
  destruct (at_index restXforms parent) as [parentXform|]; [|discriminate].
  cbn [mbind option_bind] in H.
  destruct (set_index radii parent _) as [radii1|] eqn:Hradii; [|discriminate].
  cbn [mbind option_bind] in H.
  destruct (at_index childCounts parent) as [count|] eqn:Hcount;
    [|discriminate].
  cbn [mbind option_bind] in H.
  destruct (set_index childCounts parent (count + 1)) as [counts1|] eqn:Hcounts;
    [|discriminate].
  injection H as <- <-. exists xform, parentXform.
  split; [reflexivity|]. split; [reflexivity|].
  split; [exact (at_index_set_eq _ _ _ _ Hradii)|].
  exact (at_index_set_eq _ _ _ _ Hcounts).
Qed.

(** C7 at a failing input: a joint at the origin with two children, at
    distances 1 and 3.  The average bone length is 2 and 0.1 times it is
    0.2, the radius the documentation of [_SetJointRadii] asks for;
    the code keeps the radius of the last child only, 0.3, and divides it
    by the number of children: every joint is given 0.15. *)
Theorem joint_radius_is_not_the_average :
  let nodes := [MNode 3; MNode 4; MNode 5] in
  let set := S754_finite false 5404319767592960 (-55) in
  let average := S754_finite false 7205759403792794 (-55) in
  (exists w trace,
      run Sample.host (_SetJointRadii Sample.fork nodes Sample.fork_xforms)
          Sample.world0 = Some (true, w, trace) /\
      doubles_set MayaTokens.radius trace =
        [(MNode 3, set); (MNode 4, set); (MNode 5, set)]) /\
  child_bone_lengths Sample.fork Sample.fork_xforms 0 =
    [Float64.of_Z 1; Float64.of_Z 3] /\
  average_bone_radius Sample.fork Sample.fork_xforms 0 = average /\
  average = Float64.mul double_0_1 (Float64.of_Z 2) /\
  set = Float64.of_float
          (Float32.div (Float64.to_float
                          (Float64.mul (Float64.of_Z 3) double_0_1))
                       (Float32.of_Z 2)) /\
  Float64.to_float set <> Float64.to_float average.
Proof.
  cbv zeta. split.
  { eexists _, _. split; reflexivity. }
  repeat split; try (vm_compute; reflexivity).
  vm_compute. discriminate.
Qed.

(** * More on the edge-identification mixins *)

Section EdgeIdRanges.
Import EdgeId.

(** [1 - pickRadius] as a binary32 number: 16441672 * 2^-24. *)
Lemma delHigh_value :
  FragmentRect.delHigh = S754_finite false 16441672 (-24).
Proof. vm_compute. reflexivity. Qed.

(** No coordinate is both below [delLow] and above [delHigh]: the two bands
    of a rectangle that lie along opposite edges do not meet. *)
Lemma rect_bands_disjoint (c : float) :
  Float32.ltb c FragmentRect.delLow && Float32.gtb c FragmentRect.delHigh =
  false.
Proof.
  rewrite delHigh_value. unfold FragmentRect.delLow, pickRadius.
  unfold Float32.ltb, Float32.gtb, SFltb, SFcompare.
  destruct c as [s| s | |s m e]; try reflexivity; try (destruct s; reflexivity).
  destruct s; [apply andb_false_r|].
  destruct (Z.compare_spec e (-29)) as [->|Hlt|Hgt].
  - apply andb_false_r.
  - destruct (Z.compare_spec (-24) e) as [Heq|Hlt'|Hgt'];
      [lia | lia | reflexivity].
  - reflexivity.
Qed.

(** X1: the edge id of a fragment of a triangle is -1, 0, 1 or 2 and that of
    a fragment of a quad is -1, 0, 1, 2 or 3, and each of these values is the
    id of some fragment. *)
Theorem edge_id_range :
  (forall k : Z,
      (exists gsBaryCoord, FragmentBary.GetPrimitiveEdgeId gsBaryCoord = k) <->
      -1 <= k <= 2) /\
  (forall k : Z,
      (exists gsRect, FragmentRect.GetPrimitiveEdgeId gsRect = k) <->
      -1 <= k <= 3).
Proof.
  split; intros k; split.
  - intros [gs <-]. unfold FragmentBary.GetPrimitiveEdgeId. cbv zeta.
    repeat match goal with |- context [if ?b then _ else _] => destruct b end;
      lia.
  - intros H.
    assert (k = -1 \/ k = 0 \/ k = 1 \/ k = 2) as [->|[->|[->| ->]]] by lia.
    + exists (mkvec2 (Float32.ratio 1 3) (Float32.ratio 1 3)).
      vm_compute. reflexivity.
    + exists (mkvec2 (Float32.ratio 1 2) (Float32.ratio 1 100)).
      vm_compute. reflexivity.
    + exists (mkvec2 (Float32.ratio 1 2) (Float32.ratio 49 100)).
      vm_compute. reflexivity.
    + exists (mkvec2 (Float32.ratio 1 100) (Float32.ratio 1 2)).
      vm_compute. reflexivity.
  - intros [gs <-]. unfold FragmentRect.GetPrimitiveEdgeId. cbv zeta.
    repeat match goal with |- context [if ?b then _ else _] => destruct b end;
      lia.
  - intros H.
    assert (k = -1 \/ k = 0 \/ k = 1 \/ k = 2 \/ k = 3)
      as [->|[->|[->|[->| ->]]]] by lia.
    + exists (mkvec2 (Float32.ratio 1 2) (Float32.ratio 1 2)).
      vm_compute. reflexivity.
    + exists (mkvec2 (Float32.ratio 1 2) (Float32.ratio 1 100)).
      vm_compute. reflexivity.
    + exists (mkvec2 (Float32.ratio 99 100) (Float32.ratio 1 2)).
      vm_compute. reflexivity.
    + exists (mkvec2 (Float32.ratio 1 2) (Float32.ratio 99 100)).
      vm_compute. reflexivity.
    + exists (mkvec2 (Float32.ratio 1 100) (Float32.ratio 1 2)).
      vm_compute. reflexivity.
Qed.

(** X2: in EdgeId.Fragment.Rect no coordinate is both below delLow and
    above delHigh, so the order of the tests matters at the corners only
    where two adjacent edges meet: edge 2 is reported exactly when
    uv.y > delHigh and not uv.x > delHigh, and edge 3 exactly when
    uv.x < delLow and uv.y is in neither band. *)
Theorem rect_opposite_edges_exclusive (gsRect : vec2) :
  let lo := FragmentRect.delLow in
  let hi := FragmentRect.delHigh in
  let x := v2x gsRect in
  let y := v2y gsRect in
  let id := FragmentRect.GetPrimitiveEdgeId gsRect in
  (forall c : float, Float32.ltb c lo && Float32.gtb c hi = false) /\
  (id = 0 <-> Float32.ltb y lo = true) /\
  (id = 1 <-> Float32.gtb x hi = true /\ Float32.ltb y lo = false) /\
  (id = 2 <-> Float32.gtb y hi = true /\ Float32.gtb x hi = false) /\
  (id = 3 <->
   Float32.ltb x lo = true /\ Float32.ltb y lo = false /\
   Float32.gtb y hi = false).
Proof.
  cbv zeta. split; [exact rect_bands_disjoint|].
  pose proof (rect_bands_disjoint (v2x gsRect)) as Hx.
  pose proof (rect_bands_disjoint (v2y gsRect)) as Hy.
  unfold FragmentRect.GetPrimitiveEdgeId. cbv zeta.
  destruct (Float32.ltb (v2y gsRect) FragmentRect.delLow),
    (Float32.gtb (v2x gsRect) FragmentRect.delHigh),
    (Float32.gtb (v2y gsRect) FragmentRect.delHigh),
    (Float32.ltb (v2x gsRect) FragmentRect.delLow);
    cbn in Hx, Hy; try discriminate;
    repeat split; intros; try congruence; try lia;
    repeat match goal with H : _ /\ _ |- _ => destruct H end;
    congruence.
Qed.

Lemma GetBaryCoord_load (index : Z) :
  GeometryBary.GetBaryCoord index =
  yz <$> array_load [Some (ivec3 1 0 0); Some (ivec3 0 1 0);
                     Some (ivec3 0 0 1)] index.
Proof. reflexivity. Qed.

(** X3: GetBaryCoord reads the array barys inside its bounds exactly for
    the indices 0, 1 and 2; for any other index the access is outside the
    array and neither GetBaryCoord nor the ProcessEdgeId built on it has a
    defined result. *)
Theorem bary_coord_defined_in_bounds_only (index : Z) (faceUV : vec2) :
  (is_Some (GeometryBary.GetBaryCoord index) <-> 0 <= index <= 2) /\
  GeometryBary.ProcessEdgeId index faceUV = GeometryBary.GetBaryCoord index.
Proof.
  split; [|reflexivity]. rewrite GetBaryCoord_load. unfold array_load.
  split.
  - intros [bc H]. case_bool_decide as H0; [|discriminate].
    destruct (decide (index <= 2)) as [|Hbig]; [lia|].
    destruct (Z.to_nat index) as [|[|[|n]]] eqn:Hn; [lia..|]. discriminate.
  - intros H.
    assert (index = 0 \/ index = 1 \/ index = 2) as [->|[->| ->]] by lia;
      eexists; reflexivity.
Qed.

End EdgeIdRanges.

(** * More on the skin cluster weights *)

Section SkinWeightsBounds.
Import SkinWeights.
Context {sdf : SdfPathOps} {gf : GfOps}.

Lemma omap_none {A B : Type} (f : A -> option B) (l : list A) :
  Forall (fun a => f a = None) l -> omap f l = [].
Proof.
  induction 1 as [|a l Ha _ IH]; [reflexivity|].
  cbn [omap list_omap]. rewrite Ha. exact IH.
Qed.

(** A loop that ends has run its body at every index. *)
Lemma for_range_Some_inv {S : Type} (body : Z -> S -> option S) (n : nat) :
  forall i s s',
    for_range n i body s = Some s' ->
    forall k, (k < n)%nat ->
      exists a b, body (i + Z.of_nat k) a = Some b.
Proof.
  induction n as [|n IH]; intros i s s' H k Hk; [lia|].
  cbn [for_range] in H. destruct (body i s) as [s1|] eqn:Hbody; [|discriminate].
  destruct k as [|k].
  - exists s, s1. rewrite Z.add_0_r. exact Hbody.
  - destruct (IH (i + 1) s1 s' H k) as (a & b & Hab); [lia|].
    exists a, b. rewrite <- Hab. f_equal. lia.
Qed.

(** X4: a joint that no influence slot of a point names gets the weight
    +0.0 for that point: the weight array starts at zero and only the slots
    of the point that name the joint add to its entry.  (Sizes as the
    caller passes them: numPoints * numInfluencesPerPoint indices and
    weights, unsigned products below 2^32.) *)
Theorem uninfluenced_joint_weight_zero (indices : list Z)
    (weights : list float) (numInfluencesPerPoint numJoints numPoints : Z)
    (pt j : Z) :
  0 <= numInfluencesPerPoint -> 0 <= numJoints ->
  numPoints * numJoints < 2 ^ 32 ->
  numPoints * numInfluencesPerPoint < 2 ^ 32 ->
  Z.of_nat (length indices) = numPoints * numInfluencesPerPoint ->
  Z.of_nat (length weights) = numPoints * numInfluencesPerPoint ->
  Forall (fun i => - 2 ^ 31 <= i < 2 ^ 31) indices ->
  0 <= pt < numPoints -> 0 <= j < numJoints ->
  (forall c, 0 <= c < numInfluencesPerPoint ->
     at_index indices (pt * numInfluencesPerPoint + c) <> Some j) ->
  exists vw : list double,
    vertOrderedWeights numJoints indices weights numInfluencesPerPoint
      numPoints = Some vw /\
    at_index vw (pt * numJoints + j) = Some (S754_zero false).
Proof.
  intros HK HJ HPJ HPK Hi Hw Hint Hpt Hj Hnone.
  destruct (vertOrderedWeights_spec indices weights numInfluencesPerPoint
              numJoints numPoints HK HJ HPJ HPK Hi Hw Hint)
    as (vw & Hvw & _ & Hat); [lia|].
  exists vw. split; [exact Hvw|]. rewrite (Hat pt j Hpt Hj). f_equal.
  unfold influence_sum, influences_of. rewrite omap_none; [reflexivity|].
  apply Forall_forall. intros c Hc. apply elem_of_seqZ in Hc.
  unfold selected.
  destruct (at_index indices (pt * numInfluencesPerPoint + c))
    as [jointIdx|] eqn:Hidx; [|reflexivity].
  cbn [mbind option_bind]. rewrite bool_decide_eq_false_2; [reflexivity|].
  intros ->. apply (Hnone c); [lia | exact Hidx].
Qed.

Lemma short_indices_undefined (numJoints : Z) (indices : list Z)
    (weights : list float) (numInfluencesPerPoint numPoints : Z) :
  0 < numInfluencesPerPoint -> 0 < numPoints ->
  numPoints * numInfluencesPerPoint < 2 ^ 32 ->
  Z.of_nat (length indices) < numPoints * numInfluencesPerPoint ->
  vertOrderedWeights numJoints indices weights numInfluencesPerPoint
    numPoints = None.
Proof.
  intros HK HP HPK Hshort.
  destruct (vertOrderedWeights _ _ _ _ _) as [vw|] eqn:Hvw; [|reflexivity].
  exfalso. unfold vertOrderedWeights in Hvw.
  destruct (for_range_Some_inv _ _ _ _ _ Hvw (Z.to_nat (numPoints - 1)))
    as (a & b & Hrow); [lia|].
  destruct (for_range_Some_inv _ _ _ _ _ Hrow
              (Z.to_nat (numInfluencesPerPoint - 1)))
    as (a' & b' & Hslot); [lia|].
  rewrite !Z2Nat.id, !Z.add_0_l in Hslot by lia.
  unfold accumulate in Hslot.
  set (pt := numPoints - 1) in *. set (c := numInfluencesPerPoint - 1) in *.
  assert (H0 : 0 <= pt * numInfluencesPerPoint) by (unfold pt; nia).
  assert (H1 : pt * numInfluencesPerPoint + c =
               numPoints * numInfluencesPerPoint - 1) by (unfold pt, c; nia).
  assert (H2 : numInfluencesPerPoint <= numPoints * numInfluencesPerPoint)
    by nia.
  rewrite (u32_small numInfluencesPerPoint) in Hslot by lia.
  rewrite (u32_small (pt * numInfluencesPerPoint)) in Hslot by lia.
  rewrite (u32_small c) in Hslot by (unfold c; lia).
  rewrite (u32_small (pt * numInfluencesPerPoint + c)) in Hslot by lia.
  destruct (at_index indices (pt * numInfluencesPerPoint + c))
    as [jointIdx|] eqn:Hidx; [|discriminate].
  unfold at_index in Hidx. case_bool_decide; [|discriminate].
  apply lookup_lt_Some in Hidx. lia.
Qed.

(** X5: the loop of _SetVaryingJointInfluences reads the indices of every
    influence slot of every point: when the index array has fewer than
    numPoints * numInfluencesPerPoint entries, an access is outside the
    array, the weight array has no defined value, and no run with at least
    one joint sets weights or returns true. *)
Theorem skin_weights_undefined_on_short_indices (meshFn skinCluster : MObject)
    (joints : list MObject) (indices : list Z) (weights : list float)
    (numInfluencesPerPoint numPoints : Z) :
  0 < numInfluencesPerPoint -> 0 < numPoints ->
  numPoints * numInfluencesPerPoint < 2 ^ 32 ->
  Z.of_nat (length indices) < numPoints * numInfluencesPerPoint ->
  (forall numJoints,
      vertOrderedWeights numJoints indices weights numInfluencesPerPoint
        numPoints = None) /\
  (joints <> [] ->
   forall trace out,
     exec (_SetVaryingJointInfluences meshFn skinCluster joints indices
             weights numInfluencesPerPoint numPoints) trace out ->
     out <> Some true /\ weights_set trace = []).
Proof.
  intros HK HP HPK Hshort.
  split; [intros J; apply short_indices_undefined; assumption|].
  intros Hne trace out H. unfold _SetVaryingJointInfluences in H.
  rewrite bool_decide_eq_false_2 in H
    by (destruct joints; [congruence|discriminate]).
  rewrite short_indices_undefined in H by assumption.
  unfold mbind, Prog_bind in H. cbn [lift bind] in H.
  apply exec_Call_inv in H as (r1 & tr1 & -> & H).
  destruct (r_status r1);
    [|apply exec_Ret_inv in H as [-> ->]; split; [discriminate|reflexivity]].
  apply exec_Call_inv in H as (r2 & tr2 & -> & H).
  destruct (r_status r2);
    [|apply exec_Ret_inv in H as [-> ->]; split; [discriminate|reflexivity]].
  apply exec_Undefined_inv in H as [-> ->].
  split; [discriminate|reflexivity].
Qed.

End SkinWeightsBounds.

Lemma uninfluenced_joint_weight_zero_witness :
  let indices := [0; 0; 1; -1] in
  let weights := (fun n => Float32.ratio n 4) <$> [1; 2; 3; 4] in
  exists vw : list double,
    SkinWeights.vertOrderedWeights 2 indices weights 2 2 = Some vw /\
    at_index vw (0 * 2 + 1) = Some (S754_zero false).
Proof.
  intros indices weights.
  apply (uninfluenced_joint_weight_zero indices weights 2 2 2 0 1);
    try lia; try reflexivity.
  - repeat constructor; vm_compute; congruence.
  - intros c Hc.
    assert (c = 0 \/ c = 1) as [->| ->] by lia; vm_compute; congruence.
Defined.

Lemma skin_weights_undefined_on_short_indices_witness :
  SkinWeights.vertOrderedWeights 1 [0] [Float32.of_Z 1; Float32.of_Z 1] 1 2 =
  None.
Proof.
  apply (skin_weights_undefined_on_short_indices (sdf := Sample.sdf)
           (gf := Sample.gf) (MNode 1) (MNode 2) [MNode 3] [0]
           [Float32.of_Z 1; Float32.of_Z 1] 1 2);
    [lia | lia | reflexivity | reflexivity].
Defined.

(** * More on the translator *)

Section TranslatorRuns.
Context {sdf : SdfPathOps} {gf : GfOps}.

(** ** Steps of a run *)

Ltac open_binds H := unfold mbind, Prog_bind, call in H; cbn [bind] in H.

Ltac step_call H :=
  let r := fresh "r" in
  let t := fresh "t" in
  apply exec_Call_inv in H as (r & t & -> & H).

Ltac step_checked H :=
  let r := fresh "r" in
  let t := fresh "t" in
  let S := fresh "S" in
  apply exec_checked_true in H as (r & t & -> & S & H).

Ltac step_lift H Heq :=
  let a := fresh "a" in
  let tA := fresh "tA" in
  let tB := fresh "tB" in
  let HL := fresh "HL" in
  apply exec_bind_Some in H as (a & tA & tB & HL & H & ->);
  apply exec_lift_Some in HL as [Heq ->].

Ltac step_require H HP :=
  let tP := fresh "tP" in
  let tR := fresh "tR" in
  apply exec_require_true in H as (tP & tR & HP & H & ->).

Ltac use_statuses :=
  repeat match goal with
         | Hs : r_status _ = true |- _ => rewrite Hs
         end.

Ltac only_step :=
  lazymatch goal with
  | |- calls_only _ (Ret _) => constructor
  | |- calls_only _ Undefined => constructor
  | |- calls_only _ (mbind _ _) => unfold mbind, Prog_bind
  | |- calls_only _ (bind _ _) => apply calls_only_bind; [|intros ?]
  | |- calls_only _ (checked _ _) =>
      apply calls_only_checked; [reflexivity | intros ?]
  | |- calls_only _ (require _ _) => apply calls_only_require
  | |- calls_only _ (call _) => apply calls_only_call; reflexivity
  | |- calls_only _ (lift _) => apply calls_only_lift
  | |- calls_only _ (deref _ _) => apply calls_only_deref
  | |- calls_only _ (for_all _ _) => apply calls_only_for_all; intros ?
  | |- calls_only _ (for_each _ _ _) => apply calls_only_for_each; intros ? ?
  | |- calls_only _ (if ?b then _ else _) => destruct b
  | |- calls_only _ (match ?x with _ => _ end) => destruct x
  | |- calls_only _ ((match ?x with _ => _ end) _) => destruct x
  end.

(** A reader that keeps some events of a trace is empty on a trace none of
    whose events it keeps. *)
Lemma omap_quiet {A : Type} (P : HostCall -> Prop) (h : Event -> option A)
    (trace : list Event) :
  (forall e : Event, P e.1 -> h e = None) ->
  Forall (fun e : Event => P e.1) trace -> omap h trace = [].
Proof.
  intros Hh HF. apply omap_none. eapply Forall_impl; [exact HF|].
  intros e He. apply Hh. exact He.
Qed.




(** ** Time samples *)

Lemma time_samples_fallback skelQuery args :
  GetReadAnimData args = false \/ GetAnimQuery skelQuery = None ->
  _GetJointAnimTimeSamples skelQuery args = [EarliestTime].
Proof.
  intros [H|H]; unfold _GetJointAnimTimeSamples; rewrite H;
    [reflexivity | destruct (GetReadAnimData args); reflexivity].
Qed.

(** X6: the time samples at which the joints are read are never empty:
    they are the samples of the animation query when animation is read,
    the skeleton has an animation query and the query has samples (in the
    custom frame range when there is one), and otherwise the single
    earliest time, the lowest finite double. *)
Theorem joint_anim_time_samples_never_empty skelQuery args :
  let times := _GetJointAnimTimeSamples skelQuery args in
  times <> [] /\
  (GetReadAnimData args = false \/ GetAnimQuery skelQuery = None ->
   times = [EarliestTime]) /\
  (forall animQuery,
     GetReadAnimData args = true ->
     GetAnimQuery skelQuery = Some animQuery ->
     let samples :=
       if HasCustomFrameRange args
       then GetJointTransformTimeSamplesInInterval animQuery
              (GetStartTime args) (GetEndTime args)
       else GetJointTransformTimeSamples animQuery in
     times = if bool_decide (samples = []) then [EarliestTime] else samples) /\
  EarliestTime =
    Float64.sub (Float64.of_Z 0)
      (binary_normalize Float64.prec Float64.emax (2 ^ 53 - 1) 971 false).
Proof.
  cbv zeta. split; [|split; [apply time_samples_fallback|split]].
  - unfold _GetJointAnimTimeSamples.
    destruct (if GetReadAnimData args then _ else _) eqn:H; discriminate.
  - intros animQuery Hread Hquery. unfold _GetJointAnimTimeSamples.
    rewrite Hread, Hquery.
    destruct (if HasCustomFrameRange args then _ else _); reflexivity.
  - vm_compute. reflexivity.
Qed.

(** ** Animation curves *)

Lemma set_anim_plug_data_true depNode attr values times context trace :
  exec (_SetAnimPlugData depNode attr values times context) trace (Some true) ->
  exists (keyable named : Reply) (curve : MObject),
    In (MPlug_isKeyable (Plug depNode attr), keyable) trace /\
    made_keyable trace =
      (if r_status keyable then [] else [Plug depNode attr]) /\
    curves_created trace = [(Plug depNode attr, curve)] /\
    keys_added trace = [(curve, times, values)] /\
    registrations trace =
      match context with
      | theContext => [(r_name named, curve)]
      | nullContext => []
      end /\
    values_set trace = [] /\
    (context = theContext ->
     In (MFnDependencyNode_name curve, named) trace).
Proof.
  intros H. unfold _SetAnimPlugData in H.
  step_checked H. open_binds H. step_call H.
  step_require H HK. do 2 step_checked H.
  exists r0.
  assert (Hkey : exists tK,
             tP = tK /\
             made_keyable tK =
               (if r_status r0 then [] else [Plug depNode attr]) /\
             curves_created tK = [] /\ keys_added tK = [] /\
             registrations tK = [] /\ values_set tK = []).
  { exists tP. split; [reflexivity|]. destruct (r_status r0).
    - apply exec_Ret_inv in HK as [-> _]. repeat split.
    - step_checked HK. apply exec_Ret_inv in HK as [-> _].
      unfold made_keyable. cbn. use_statuses. repeat split. }
  destruct Hkey as (tK & -> & Hk1 & Hk2 & Hk3 & Hk4 & Hk5).
  destruct context.
  - apply exec_Ret_inv in H as [-> _]. exists r0, (r_obj r1).
    split; [right; left; reflexivity|].
    unfold made_keyable, curves_created, keys_added, registrations,
      values_set in *.
    cbn. rewrite !omap_app, Hk1, Hk2, Hk3, Hk4, Hk5. cbn. use_statuses.
    rewrite !app_nil_r. repeat split. discriminate.
  - open_binds H. do 2 step_call H. apply exec_Ret_inv in H as [-> _].
    exists r3, (r_obj r1). split; [right; left; reflexivity|].
    split; [|split; [|split; [|split; [|split]]]].
    6:{ intros _. right. right. apply in_or_app. right.
        right. right. left. reflexivity. }
    all: unfold made_keyable, curves_created, keys_added, registrations,
      values_set in *.
    all: cbn; rewrite !omap_app, ?Hk1, ?Hk2, ?Hk3, ?Hk4, ?Hk5; cbn;
      use_statuses; rewrite ?app_nil_r; reflexivity.
Qed.

(** X7: a _SetAnimPlugData that returns true has made one animation curve
    on the plug of the attribute and put on it the given values keyed at
    the given times; it has made the plug keyable when, and only when, the
    plug was not; and it has registered the curve with the reader context,
    under the name of the curve, when there is a context, and has registered
    nothing when the context is null. *)
Theorem anim_plug_data_keys_one_curve depNode attr values times context
    trace :
  exec (_SetAnimPlugData depNode attr values times context) trace
       (Some true) ->
  exists (keyable named : Reply) (curve : MObject),
    In (MPlug_isKeyable (Plug depNode attr), keyable) trace /\
    made_keyable trace =
      (if r_status keyable then [] else [Plug depNode attr]) /\
    curves_created trace = [(Plug depNode attr, curve)] /\
    keys_added trace = [(curve, times, values)] /\
    registrations trace =
      match context with
      | theContext => [(r_name named, curve)]
      | nullContext => []
      end /\
    (context = theContext ->
     In (MFnDependencyNode_name curve, named) trace).
Proof.
  intros H.
  destruct (set_anim_plug_data_true _ _ _ _ _ _ H)
    as (keyable & named & curve & H1 & H2 & H3 & H4 & H5 & _ & H7).
  exists keyable, named, curve. auto 10.
Qed.

Lemma transform_axes :
  indexed (zip MayaTokens.translates
             (zip MayaTokens.rotates MayaTokens.scales)) =
  [(0, ("translateX", ("rotateX", "scaleX")));
   (1, ("translateY", ("rotateY", "scaleY")));
   (2, ("translateZ", ("rotateZ", "scaleZ")))]%string.
Proof. reflexivity. Qed.




(** ** A single time sample: plain values *)








(** ** Staying inside defined behaviour *)

Lemma defined_exec {R : Type} (p : Prog R) trace out :
  defined p -> exec p trace out -> out <> None.
Proof.
  intros Hp H. induction H as [r|c k reply trace out H IH|].
  - discriminate.
  - inversion Hp as [|c' k' Hk]; subst. apply IH, Hk.
  - inversion Hp.
Qed.

Lemma defined_bind {A B : Type} (p : Prog A) (f : A -> Prog B) :
  defined p -> (forall a, defined (f a)) -> defined (bind p f).
Proof.
  intros Hp Hf. induction Hp as [a|c k Hk IH]; cbn.
  - apply Hf.
  - constructor. exact IH.
Qed.

Lemma defined_checked c (k : Reply -> Prog bool) :
  (forall reply, defined (k reply)) -> defined (checked c k).
Proof.
  intros Hk. constructor. intros reply.
  destruct (r_status reply); [apply Hk | constructor].
Qed.

Lemma defined_require (p k : Prog bool) :
  defined p -> defined k -> defined (require p k).
Proof.
  intros Hp Hk. apply defined_bind; [exact Hp|].
  intros [|]; [exact Hk | constructor].
Qed.

Lemma defined_call c : defined (call c).
Proof. constructor. intros reply. constructor. Qed.

Lemma defined_lift {A : Type} (o : option A) : is_Some o -> defined (lift o).
Proof. intros [a ->]. constructor. Qed.

Lemma defined_for_all {A : Type} (l : list A) (body : A -> Prog bool) :
  Forall (fun a => defined (body a)) l -> defined (for_all l body).
Proof.
  induction 1 as [|a l Ha _ IH]; cbn; [constructor|].
  apply defined_bind; [exact Ha|]. intros [|]; [exact IH | constructor].
Qed.

Ltac defined_step :=
  lazymatch goal with
  | |- defined (Ret _) => constructor
  | |- defined (mbind _ _) => unfold mbind, Prog_bind
  | |- defined (bind _ _) => apply defined_bind; [|intros ?]
  | |- defined (checked _ _) => apply defined_checked; intros ?
  | |- defined (require _ _) => apply defined_require
  | |- defined (call _) => apply defined_call
  | |- defined (if ?b then _ else _) => destruct b
  | |- defined (match ?x with _ => _ end) => destruct x
  end.

Lemma GfVec3d_at_defined (v : GfVec3d) (c : Z) :
  0 <= c <= 2 -> is_Some (GfVec3d_at v c).
Proof.
  intros H. assert (c = 0 \/ c = 1 \/ c = 2) as [->|[->| ->]] by lia;
    eexists; reflexivity.
Qed.

Lemma channel_defined c dflt pick xforms :
  0 <= c <= 2 -> is_Some (channel c dflt pick xforms).
Proof.
  intros H. unfold channel. apply mapM_is_Some_2, Forall_forall.
  intros xform _. unfold compose.
  destruct (ConvertUsdMatrixToComponents xform);
    [apply GfVec3d_at_defined; exact H | eexists; reflexivity].
Qed.

Lemma _SetAnimPlugData_defined depNode attr values times context :
  defined (_SetAnimPlugData depNode attr values times context).
Proof. unfold _SetAnimPlugData. repeat defined_step. Qed.

Lemma _SetTransformAnim_defined node xforms times context :
  defined (_SetTransformAnim node xforms times context).
Proof.
  pose proof _SetAnimPlugData_defined as Hanim.
  unfold _SetTransformAnim.
  destruct (negb _); [constructor|].
  destruct xforms as [|front rest]; [constructor|].
  rewrite transform_axes.
  destruct (bool_decide _).
  - apply defined_for_all.
    repeat (constructor;
            [repeat (first [apply Hanim
                           | apply defined_lift, channel_defined; lia
                           | defined_step])|]).
    constructor.
  - destruct (ConvertUsdMatrixToComponents front) as [[[t r] s]|];
      [|constructor].
    apply defined_for_all.
    repeat (constructor;
            [repeat (first [apply defined_lift, GfVec3d_at_defined; lia
                           | defined_step])|]).
    constructor.
Qed.

Lemma _ClearIncomingConnections_defined plug :
  defined (_ClearIncomingConnections plug).
Proof.
  unfold _ClearIncomingConnections. repeat defined_step.
  apply defined_for_all, Forall_forall. intros connection _.
  repeat defined_step.
Qed.

Lemma _CreateRestMesh_defined inputMesh parent :
  defined (_CreateRestMesh inputMesh parent).
Proof. unfold _CreateRestMesh. repeat defined_step. Qed.

Lemma _ConfigureSkinnedObjectTransform_defined skinningQuery transform :
  defined (_ConfigureSkinnedObjectTransform skinningQuery transform).
Proof.
  pose proof _ClearIncomingConnections_defined as Hclear.
  unfold _ConfigureSkinnedObjectTransform. do 2 defined_step.
  destruct (ConvertUsdMatrixToComponents _) as [[[t r] s]|]; [|constructor].
  apply defined_for_all.
  repeat (constructor;
          [apply defined_for_all;
           repeat (constructor;
                   [repeat (first [apply Hclear
                                  | apply defined_lift, GfVec3d_at_defined; lia
                                  | defined_step])|]);
           constructor|]).
  constructor.
Qed.

(** X11: the helpers that set animation, clear connections, copy the rest
    mesh and configure the transform of the skinned object stay inside
    defined behaviour for every argument and every answer of the host: they
    index no array outside its bounds (the components 0, 1, 2 of a vector)
    and _SetAnimPlugData tests the context before it uses it; so every run
    of theirs returns true or false. *)
Theorem helpers_stay_defined :
  (forall depNode attr values times context,
      defined (_SetAnimPlugData depNode attr values times context)) /\
  (forall node xforms times context,
      defined (_SetTransformAnim node xforms times context)) /\
  (forall plug, defined (_ClearIncomingConnections plug)) /\
  (forall inputMesh parent, defined (_CreateRestMesh inputMesh parent)) /\
  (forall skinningQuery transform,
      defined (_ConfigureSkinnedObjectTransform skinningQuery transform)) /\
  (forall (p : Prog bool) trace out,
      defined p -> exec p trace out -> out = Some true \/ out = Some false).
Proof.
  split; [exact _SetAnimPlugData_defined|].
  split; [exact _SetTransformAnim_defined|].
  split; [exact _ClearIncomingConnections_defined|].
  split; [exact _CreateRestMesh_defined|].
  split; [exact _ConfigureSkinnedObjectTransform_defined|].
  intros p trace out Hp H. pose proof (defined_exec _ _ _ Hp H) as Hout.
  destruct out as [[|]|]; [left|right|]; congruence.
Qed.

(** ** A null reader context *)

Lemma create_joint_nodes_null_context names skelPath :
  forall k nodes trace out,
    Exists (fun name => IsEmpty (SdfPath_of_token name) = false) names ->
    exec (for_each (indexed_from k names)
            (fun '(i, name) => create_joint skelPath nullContext i name) nodes)
         trace out ->
    trace = [] /\ out = None.
Proof.
  induction names as [|name names IH]; intros k nodes trace out Hex H;
    [inversion Hex|].
  cbn [indexed_from for_each] in H. unfold create_joint at 1 in H.
  destruct (IsEmpty (SdfPath_of_token name)) eqn:Hempty.
  - cbn [bind fst snd] in H. eapply IH; [|exact H].
    inversion Hex; subst; [congruence | assumption].
  - cbn [deref] in H. open_binds H.
    apply exec_Undefined_inv in H. exact H.
Qed.

(** X12: the reader context is used without a test by CreateSkinCluster,
    CreateBindPose and _CreateJointNodes.  With a null context,
    CreateSkinCluster on valid arguments leaves defined behaviour before
    any call to Maya, CreateBindPose never returns true (it fails or
    dereferences the null context once the dagPose node is made), and
    _CreateJointNodes leaves defined behaviour at the first joint that has
    a path. *)
Theorem null_context_is_dereferenced :
  (forall skelQuery skinningQuery joints primToSkin args bindPose trace out,
      sq_valid skelQuery = true -> prim_valid primToSkin = true ->
      exec (CreateSkinCluster skelQuery skinningQuery joints primToSkin args
              nullContext bindPose) trace out ->
      trace = [] /\ out = None) /\
  (forall skelQuery joints bindPoseNode trace out,
      exec (CreateBindPose skelQuery joints nullContext bindPoseNode) trace
           out ->
      out = None \/ exists node, out = Some (false, node)) /\
  (forall skelQuery skelPath jointNodes trace out,
      Exists (fun name => IsEmpty (SdfPath_of_token name) = false)
             (GetJointOrder skelQuery) ->
      exec (_CreateJointNodes skelQuery skelPath nullContext jointNodes)
           trace out ->
      trace = [] /\ out = None).
Proof.
  split; [|split].
  - intros skelQuery skinningQuery joints primToSkin args bindPose trace out
      Hsq Hprim H.
    unfold CreateSkinCluster in H. rewrite Hsq, Hprim in H.
    cbn [negb deref] in H. open_binds H.
    apply exec_Undefined_inv in H. exact H.
  - intros skelQuery joints bindPoseNode trace out H.
    unfold CreateBindPose in H.
    destruct (negb (sq_valid skelQuery));
      [apply exec_Ret_inv in H as [_ ->]; eauto|].
    destruct bindPoseNode as [node|];
      [|apply exec_Ret_inv in H as [_ ->]; eauto].
    open_binds H. step_call H.
    destruct (negb (r_status r));
      [cbn [bind] in H; apply exec_Ret_inv in H as [_ ->]; eauto|].
    unfold checked in H. cbn [bind] in H. step_call H.
    destruct (r_status r0);
      [|cbn [bind] in H; apply exec_Ret_inv in H as [_ ->]; eauto].
    cbn [bind] in H. step_call H.
    destruct (r_status r1);
      [|cbn [bind] in H; apply exec_Ret_inv in H as [_ ->]; eauto].
    cbn [bind deref] in H. step_call H.
    apply exec_Undefined_inv in H as [_ ->]. left. reflexivity.
  - intros skelQuery skelPath jointNodes trace out Hex H.
    unfold _CreateJointNodes, indexed in H.
    eapply create_joint_nodes_null_context; eassumption.
Qed.

(** ** Joint radii: what the first loop keeps *)

Lemma children_in_nil skelQuery p k : children_in skelQuery p k 0 = [].
Proof. reflexivity. Qed.

Lemma children_in_cons skelQuery p k (m : nat) :
  children_in skelQuery p k (Z.of_nat (S m)) =
  if decide (GetParent skelQuery k = Some p)
  then k :: children_in skelQuery p (k + 1) (Z.of_nat m)
  else children_in skelQuery p (k + 1) (Z.of_nat m).
Proof.
  unfold children_in. rewrite seqZ_cons by lia.
  replace (Z.pred (Z.of_nat (S m))) with (Z.of_nat m) by lia.
  replace (Z.succ k) with (k + 1) by lia.
  rewrite filter_cons. reflexivity.
Qed.

Lemma bone_loop skelQuery (n : nat) restXforms p :
  0 <= p < Z.of_nat n ->
  forall (m : nat) k radii counts radii' counts',
    for_range m k (bone_step skelQuery n restXforms) (radii, counts) =
      Some (radii', counts') ->
    at_index counts' p =
      (fun x => x + Z.of_nat (length (children_in skelQuery p k (Z.of_nat m))))
        <$> at_index counts p /\
    at_index radii' p =
      match last (children_in skelQuery p k (Z.of_nat m)) with
      | Some child => bone_radius restXforms p child
      | None => at_index radii p
      end.
Proof.
  intros Hp. induction m as [|m IH]; intros k radii counts radii' counts' H.
  - cbn in H. injection H as <- <-. rewrite children_in_nil. cbn.
    split; [|reflexivity].
    destruct (at_index counts p); cbn; [f_equal; lia | reflexivity].
  - cbn [for_range] in H.
    destruct (bone_step skelQuery n restXforms k (radii, counts))
      as [[radii1 counts1]|] eqn:Hstep; [|discriminate].
    destruct (IH _ _ _ _ _ H) as [Hc Hr]. rewrite Hc, Hr. clear IH H Hc Hr.
    rewrite children_in_cons. unfold bone_step in Hstep.
    destruct (at_index restXforms k) as [xform|] eqn:Hxform; [|discriminate].
    cbn [mbind option_bind] in Hstep.
    destruct (GetParent skelQuery k) as [parent|] eqn:Hparent; [|discriminate].
    cbn [mbind option_bind] in Hstep.
    destruct (valid_parent parent n) eqn:Hvalid.
    + destruct (at_index restXforms parent) as [parentXform|] eqn:Hpx;
        [|discriminate].
      cbn [mbind option_bind] in Hstep.
      destruct (set_index radii parent _) as [radii2|] eqn:Hset;
        [|discriminate].
      cbn [mbind option_bind] in Hstep.
      destruct (at_index counts parent) as [count|] eqn:Hcount;
        [|discriminate].
      cbn [mbind option_bind] in Hstep.
      destruct (set_index counts parent (count + 1)) as [counts2|] eqn:Hset2;
        [|discriminate].
      injection Hstep as <- <-.
      destruct (decide (Some parent = Some p)) as [Heq|Hne].
      * injection Heq as ->.
        rewrite (at_index_set_eq _ _ _ _ Hset), (at_index_set_eq _ _ _ _ Hset2).
        rewrite Hcount, last_cons. cbn [length fmap option_fmap option_map].
        split; [f_equal; lia|].
        destruct (last _); [reflexivity|].
        unfold bone_radius. rewrite Hxform, Hpx. reflexivity.
      * assert (parent <> p) by congruence.
        rewrite (at_index_set_other _ _ _ _ _ Hset) by assumption.
        rewrite (at_index_set_other _ _ _ _ _ Hset2) by assumption.
        split; reflexivity.
    + injection Hstep as <- <-.
      destruct (decide (Some parent = Some p)) as [Heq|Hne]; [|split; reflexivity].
      injection Heq as ->. unfold valid_parent in Hvalid.
      rewrite !bool_decide_eq_true_2 in Hvalid by lia. discriminate.
Qed.

(** X13: what the first loop of _SetJointRadii keeps for joint p (among
    numJoints joints): the number of its children, the joints whose parent
    is p, and a tenth of the length of the bone to the last of them in joint
    order, as a float; the lengths of the bones to its other children are
    overwritten.  A joint without children keeps 1. *)
Theorem bone_radii_keep_last_child skelQuery (numJoints : nat) restXforms
    radii childCounts p :
  bone_radii skelQuery numJoints restXforms = Some (radii, childCounts) ->
  0 <= p < Z.of_nat numJoints ->
  let children := children_in skelQuery p 0 (Z.of_nat numJoints) in
  at_index childCounts p = Some (Z.of_nat (length children)) /\
  at_index radii p =
    match last children with
    | Some child => bone_radius restXforms p child
    | None => Some (Float32.of_Z 1)
    end.
Proof.
  intros H Hp children. unfold bone_radii in H.
  destruct (bone_loop skelQuery numJoints restXforms p Hp _ _ _ _ _ _ H)
    as [Hc Hr].
  fold children in Hc, Hr. rewrite Hc, Hr.
  assert (Hat : forall (T : Type) (v : T),
             at_index (replicate numJoints v) p = Some v).
  { intros T v. unfold at_index. rewrite bool_decide_eq_true_2 by lia.
    apply lookup_replicate_2. lia. }
  rewrite !Hat. split; reflexivity.
Qed.

(** ** Joint radii: what the second loop sets *)

Lemma radius_step_true skelQuery (n : nat) counts i node radii trace radii' :
  exec (attached ← call (MFn_setObject FnDependencyNode node);
        if r_status attached then
          radius ← lift (resolved_radius skelQuery n radii counts i);
          radii ← lift (set_index radii i (Float64.to_float radius));
          set ← call (Util_setPlugValue node MayaTokens.radius (VDouble radius));
          Ret (r_status set, radii)
        else Ret (true, radii)) trace (Some (true, radii')) ->
  exists ok : bool,
    attached trace = [(node, ok)] /\
    if ok then
      exists d,
        resolved_radius skelQuery n radii counts i = Some d /\
        set_index radii i (Float64.to_float d) = Some radii' /\
        doubles_set MayaTokens.radius trace = [(node, d)]
    else radii' = radii /\ doubles_set MayaTokens.radius trace = [].
Proof.
  intros H. open_binds H. step_call H.
  destruct (r_status r) eqn:Hok.
  - step_lift H Hd. step_lift H Hset. step_call H.
    apply exec_Ret_inv in H as [-> H]. injection H as Hs <-.
    exists true. unfold attached, doubles_set. cbn. rewrite Hok.
    split; [reflexivity|]. exists a. rewrite <- Hs. auto.
  - apply exec_Ret_inv in H as [-> H]. injection H as <-.
    exists false. unfold attached, doubles_set. cbn. rewrite Hok. auto.
Qed.

Lemma radii_loop skelQuery (n : nat) counts joints :
  forall k radii trace radii',
    0 <= k ->
    exec (for_each (indexed_from k joints)
            (fun '(i, node) radii =>
               attached ← call (MFn_setObject FnDependencyNode node);
               if r_status attached then
                 radius ← lift (resolved_radius skelQuery n radii counts i);
                 radii ← lift (set_index radii i (Float64.to_float radius));
                 set ← call (Util_setPlugValue node MayaTokens.radius
                               (VDouble radius));
                 Ret (r_status set, radii)
               else Ret (true, radii)) radii) trace (Some (true, radii')) ->
    exists (accepted : list bool) (ds : list double),
      length accepted = length joints /\ length ds = length joints /\
      attached trace = zip joints accepted /\
      doubles_set MayaTokens.radius trace =
        omap (fun '(joint, ok, d) => if ok : bool then Some (joint, d) else None)
             (zip (zip joints accepted) ds) /\
      forall (o : nat) d,
        ds !! o = Some d -> accepted !! o = Some true ->
        let i := k + Z.of_nat o in
        exists count,
          at_index counts i = Some count /\
          (0 < count ->
           (fun r => Float64.of_float (Float32.div r (Float32.of_Z count)))
             <$> at_index radii i = Some d) /\
          (count <= 0 ->
           exists p,
             GetParent skelQuery i = Some p /\
             if valid_parent p n then
               (if bool_decide (k <= p < i) &&
                   default false (accepted !! Z.to_nat (p - k))
                then (fun dp => Float64.of_float (Float64.to_float dp))
                       <$> ds !! Z.to_nat (p - k)
                else Float64.of_float <$> at_index radii p) = Some d
             else d = Float64.of_Z 1).
Proof.
  induction joints as [|joint joints IH]; intros k radii trace radii' Hk H;
    cbn [indexed_from for_each] in H.
  - apply exec_Ret_inv in H as [-> _]. exists [], []. cbn.
    repeat split. intros o d Hd. destruct o; discriminate.
  - apply exec_bind_Some in H as ([ok1 radii1] & tr1 & tr2 & H1 & H2 & ->).
    destruct ok1; cbn [fst snd] in H2;
      [|apply exec_Ret_inv in H2 as [_ H2]; discriminate].
    apply radius_step_true in H1 as (ok & Ha & Hstep).
    apply IH in H2 as (accepted & ds & Hlen & Hlen' & Ha' & Hd' & Hrule);
      [|lia].
    rewrite attached_app, Ha, Ha'.
    assert (Hother : forall j, j <> k -> at_index radii1 j = at_index radii j).
    { intros j Hj. destruct ok.
      - destruct Hstep as (d & _ & Hset & _).
        eapply at_index_set_other; [exact Hset | congruence].
      - destruct Hstep as [-> _]. reflexivity. }
    assert (Htail : forall (d0 : double) (o : nat) d,
               (d0 :: ds) !! S o = Some d ->
               (ok :: accepted) !! S o = Some true ->
               (ok = true -> at_index radii1 k = Some (Float64.to_float d0)) ->
               let i := k + Z.of_nat (S o) in
               exists count,
                 at_index counts i = Some count /\
                 (0 < count ->
                  (fun r => Float64.of_float (Float32.div r (Float32.of_Z count)))
                    <$> at_index radii i = Some d) /\
                 (count <= 0 ->
                  exists p,
                    GetParent skelQuery i = Some p /\
                    if valid_parent p n then
                      (if bool_decide (k <= p < i) &&
                          default false ((ok :: accepted) !! Z.to_nat (p - k))
                       then (fun dp => Float64.of_float (Float64.to_float dp))
                              <$> (d0 :: ds) !! Z.to_nat (p - k)
                       else Float64.of_float <$> at_index radii p) = Some d
                    else d = Float64.of_Z 1)).
    { intros d0 o d Hd Hacc Hk1 i. cbn in Hd, Hacc.
      destruct (Hrule o d Hd Hacc) as (count & Hcount & Hpos & Hleaf).
      replace (k + 1 + Z.of_nat o) with i in * by (unfold i; lia).
      exists count. split; [exact Hcount|]. split.
      - intros Hc. rewrite <- (Hother i) by (unfold i; lia). apply Hpos, Hc.
      - intros Hc. destruct (Hleaf Hc) as (p & Hp & Hval).
        exists p. split; [exact Hp|].
        destruct (valid_parent p n); [|exact Hval].
        destruct (decide (k + 1 <= p < i)) as [Hin|Hout].
        + rewrite bool_decide_eq_true_2 in Hval by assumption.
          rewrite bool_decide_eq_true_2 by lia.
          replace (Z.to_nat (p - k)) with (S (Z.to_nat (p - (k + 1)))) by lia.
          rewrite <- (Hother p) by lia. exact Hval.
        + rewrite bool_decide_eq_false_2 in Hval by assumption.
          cbn [andb] in Hval.
          destruct (decide (p = k)) as [->|Hne].
          * rewrite bool_decide_eq_true_2 by (unfold i; lia).
            replace (Z.to_nat (k - k)) with 0%nat by lia. cbn.
            destruct ok; cbn.
            -- rewrite Hk1 in Hval by reflexivity. exact Hval.
            -- rewrite <- Hval. f_equal. destruct Hstep as [-> _]. reflexivity.
          * rewrite bool_decide_eq_false_2 by lia. cbn [andb].
            rewrite <- (Hother p) by assumption. exact Hval. }
    destruct ok.
    + destruct Hstep as (d0 & Hres & Hset & Hd0).
      exists (true :: accepted), (d0 :: ds).
      split; [cbn; congruence|]. split; [cbn; congruence|].
      split; [reflexivity|]. split.
      { unfold doubles_set in *. rewrite omap_app, Hd0, Hd'. reflexivity. }
      intros [|o] d Hd Hacc.
      * cbn in Hd. injection Hd as <-. cbv zeta. rewrite Z.add_0_r.
        unfold resolved_radius in Hres.
        destruct (at_index counts k) as [count|]; [|discriminate].
        cbn [mbind option_bind] in Hres. exists count. split; [reflexivity|].
        destruct (decide (0 < count)) as [Hc|Hc].
        -- rewrite bool_decide_eq_true_2 in Hres by assumption.
           split; [|lia]. intros _.
           destruct (at_index radii k); [exact Hres | discriminate].
        -- rewrite bool_decide_eq_false_2 in Hres by assumption.
           split; [lia|]. intros _.
           destruct (GetParent skelQuery k) as [p|]; [|discriminate].
           cbn [mbind option_bind] in Hres. exists p. split; [reflexivity|].
           destruct (valid_parent p n); [|congruence].
           rewrite bool_decide_eq_false_2 by lia. exact Hres.
      * apply (Htail d0 o d Hd Hacc). intros _.
        eapply at_index_set_eq. exact Hset.
    + destruct Hstep as [-> Hd0].
      exists (false :: accepted), (Float64.of_Z 0 :: ds).
      split; [cbn; congruence|]. split; [cbn; congruence|].
      split; [reflexivity|]. split.
      { unfold doubles_set in *. rewrite omap_app, Hd0, Hd'. reflexivity. }
      intros [|o] d Hd Hacc; [discriminate|].
      apply (Htail (Float64.of_Z 0) o d Hd Hacc). discriminate.
Qed.

Lemma at_index_lookup {T : Type} (a : list T) (i : Z) :
  0 <= i -> at_index a i = a !! Z.to_nat i.
Proof. intros H. unfold at_index. rewrite bool_decide_eq_true_2 by lia. reflexivity. Qed.

(** X14: the radii a successful _SetJointRadii sets, on the joints
    MFnDependencyNode attaches to and in joint order.  With the radius and
    child count the first loop keeps for each joint: a joint with children
    gets the radius kept for it divided by the number of its children; a
    joint without children and without a valid parent gets 1.0; a joint
    without children gets the size of its parent, which is the radius set
    on the parent when the parent comes earlier in the joint order and was
    attached to, and the radius kept for the parent otherwise. *)
Theorem joint_radii_resolved skelQuery jointNodes restXforms trace :
  exec (_SetJointRadii skelQuery jointNodes restXforms) trace (Some true) ->
  let numJoints := length jointNodes in
  exists (radii : list float) (childCounts : list Z) (accepted : list bool)
         (set : list double),
    bone_radii skelQuery numJoints restXforms = Some (radii, childCounts) /\
    length accepted = numJoints /\ length set = numJoints /\
    attached trace = zip jointNodes accepted /\
    doubles_set MayaTokens.radius trace =
      omap (fun '(joint, ok, d) => if ok : bool then Some (joint, d) else None)
           (zip (zip jointNodes accepted) set) /\
    forall i d,
      at_index set i = Some d -> at_index accepted i = Some true ->
      exists count,
        at_index childCounts i = Some count /\
        (0 < count ->
         (fun r => Float64.of_float (Float32.div r (Float32.of_Z count)))
           <$> at_index radii i = Some d) /\
        (count <= 0 ->
         exists parent,
           GetParent skelQuery i = Some parent /\
           if valid_parent parent numJoints then
             (if bool_decide (parent < i) &&
                 default false (at_index accepted parent)
              then (fun dp => Float64.of_float (Float64.to_float dp))
                     <$> at_index set parent
              else Float64.of_float <$> at_index radii parent) = Some d
           else d = Float64.of_Z 1).
Proof.
  intros H numJoints. unfold _SetJointRadii in H. fold numJoints in H.
  unfold mbind at 1, Prog_bind at 1 in H. step_lift H Hbone.
  destruct a as [radii counts].
  unfold mbind at 1, Prog_bind at 1 in H.
  apply exec_bind_Some in H as ([ok radii'] & tr1 & tr2 & H & Hret & ->).
  apply exec_Ret_inv in Hret as [-> Hret]. cbn [fst] in Hret.
  injection Hret as <-. rewrite !app_nil_r. unfold indexed in H.
  apply radii_loop in H as (accepted & ds & Hlen & Hlen' & Ha & Hd & Hrule);
    [|lia].
  exists radii, counts, accepted, ds.
  split; [exact Hbone|]. split; [exact Hlen|]. split; [exact Hlen'|].
  split; [exact Ha|]. split; [exact Hd|].
  intros i d Hi Hacc.
  assert (H0 : 0 <= i).
  { destruct (decide (0 <= i)); [assumption|].
    rewrite at_index_negative in Hi by lia. discriminate. }
  rewrite at_index_lookup in Hi by assumption.
  rewrite at_index_lookup in Hacc by assumption.
  destruct (Hrule _ _ Hi Hacc) as (count & Hcount & Hpos & Hleaf).
  rewrite Z.add_0_l, Z2Nat.id in * by assumption.
  exists count. split; [exact Hcount|]. split; [exact Hpos|].
  intros Hc. destruct (Hleaf Hc) as (p & Hp & Hval).
  exists p. split; [exact Hp|].
  destruct (valid_parent p numJoints) eqn:Hvalid; [|exact Hval].
  unfold valid_parent in Hvalid. apply andb_true_iff in Hvalid as [Hp0 _].
  apply bool_decide_eq_true_1 in Hp0.
  rewrite Z.sub_0_r in Hval.
  rewrite (at_index_lookup accepted), (at_index_lookup ds) by assumption.
  destruct (decide (p < i)).
  - rewrite bool_decide_eq_true_2 in Hval by lia.
    rewrite bool_decide_eq_true_2 by lia. exact Hval.
  - rewrite bool_decide_eq_false_2 in Hval by lia.
    rewrite bool_decide_eq_false_2 by lia. exact Hval.
Qed.

(** ** Rest states of the joints *)







(** ** The skinned object: rest mesh and transform *)

Lemma clear_incoming_true plug trace :
  exec (_ClearIncomingConnections plug) trace (Some true) ->
  exists found : Reply,
    (if r_status found
     then exists rest done,
         trace = (MPlug_connectedTo plug true false, found) :: rest ++
                 [(MDGModifier_doIt, done)] /\
         r_status done = true /\
         Forall2 (fun connection (e : Event) =>
                    e.1 = MDGModifier_disconnect plug connection /\
                    r_status e.2 = true) (r_plugs found) rest
     else trace = [(MPlug_connectedTo plug true false, found)]).
Proof.
  intros H. unfold _ClearIncomingConnections in H. open_binds H.
  step_call H. exists r. destruct (r_status r); [|
    apply exec_Ret_inv in H as [-> _]; reflexivity].
  step_require H HL. step_checked H. apply exec_Ret_inv in H as [-> _].
  apply exec_for_all_true in HL as (traces & HF & ->).
  exists (concat traces), r0. split; [reflexivity|]. split; [assumption|].
  clear -HF. induction HF as [|connection tr plugs traces Hx _ IH];
    [constructor|].
  step_checked Hx. apply exec_Ret_inv in Hx as [-> _].
  cbn. constructor; [split; [reflexivity | assumption] | exact IH].
Qed.

Lemma disconnections_of plug (plugs : list MPlug) (rest : list Event) :
  Forall2 (fun connection (e : Event) =>
             e.1 = MDGModifier_disconnect plug connection /\
             r_status e.2 = true) plugs rest ->
  disconnections rest = (fun connection => (plug, connection)) <$> plugs /\
  plug_values rest = [] /\ values_set rest = [] /\ applied rest = 0%nat /\
  Forall (fun e : Event =>
            match e.1 with MDGModifier_disconnect _ _ => true | _ => false end
            = true) rest.
Proof.
  induction 1 as [|connection [c r] plugs rest [Hc Hr] _
                   (IH1 & IH2 & IH3 & IH4 & IH5)].
  - repeat split. constructor.
  - cbn in Hc, Hr. subst c.
    unfold disconnections, plug_values, values_set, applied in *.
    cbn. rewrite Hr, IH1, IH2, IH3. cbn in IH4 |- *.
    repeat split; [exact IH4|]. constructor; [reflexivity | exact IH5].
Qed.




Lemma configure_plug_true transform attr (first : GfVec3d) c trace :
  exec (checked (MFnDependencyNode_findPlug transform attr) (fun _ =>
        require (_ClearIncomingConnections (Plug transform attr))
          (value ← lift (GfVec3d_at first c);
           checked (MPlug_setValue (Plug transform attr) (VDouble value))
             (fun _ => Ret true)))) trace (Some true) ->
  exists value,
    GfVec3d_at first c = Some value /\
    plug_values trace = [(Plug transform attr, VDouble value)] /\
    values_set trace = [] /\
    Forall (fun d : MPlug * MPlug => d.1 = Plug transform attr)
           (disconnections trace).
Proof.
  intros H. step_checked H. step_require H HC.
  unfold mbind, Prog_bind in H. step_lift H Hv. step_checked H.
  apply exec_Ret_inv in H as [-> _]. exists a. split; [exact Hv|].
  apply clear_incoming_true in HC as (found & HC).
  assert (Hclear : plug_values tP = [] /\ values_set tP = [] /\
                   Forall (fun d : MPlug * MPlug => d.1 = Plug transform attr)
                          (disconnections tP)).
  { destruct (r_status found).
    - destruct HC as (rest & done & -> & _ & HF).
      apply disconnections_of in HF as (Hd & Hp & Hv' & _).
      unfold plug_values, values_set, disconnections in *. cbn.
      rewrite !omap_app, Hd, Hp, Hv'. cbn. rewrite app_nil_r.
      repeat split. apply Forall_fmap, Forall_forall. intros x _. reflexivity.
    - subst tP. repeat split. constructor. }
  destruct Hclear as (Hp & Hv' & Hd).
  unfold plug_values, values_set, disconnections in *. cbn.
  rewrite !omap_app, Hp, Hv'. cbn. use_statuses. rewrite app_nil_r.
  repeat split. exact Hd.
Qed.

Lemma configure_vector_true transform (first : GfVec3d) x y z trace :
  exec (for_all [(0, x); (1, y); (2, z)]
          (fun '(c, attr) =>
             checked (MFnDependencyNode_findPlug transform attr) (fun _ =>
             require (_ClearIncomingConnections (Plug transform attr))
               (value ← lift (GfVec3d_at first c);
                checked (MPlug_setValue (Plug transform attr) (VDouble value))
                  (fun _ => Ret true))))) trace (Some true) ->
  plug_values trace =
    [(Plug transform x, VDouble (gx first));
     (Plug transform y, VDouble (gy first));
     (Plug transform z, VDouble (gz first))] /\
  values_set trace = [] /\
  Forall (fun d : MPlug * MPlug =>
            exists attr, In attr [x; y; z] /\ d.1 = Plug transform attr)
         (disconnections trace).
Proof.
  intros H. apply exec_for_all_true in H as (traces & HF & ->).
  apply Forall2_cons_inv_l in HF as (tr0 & traces0 & H0 & HF & ->).
  apply Forall2_cons_inv_l in HF as (tr1 & traces1 & H1 & HF & ->).
  apply Forall2_cons_inv_l in HF as (tr2 & traces2 & H2 & HF & ->).
  apply Forall2_nil_inv_l in HF as ->.
  apply configure_plug_true in H0 as (v0 & Hv0 & Hp0 & Hs0 & Hd0).
  apply configure_plug_true in H1 as (v1 & Hv1 & Hp1 & Hs1 & Hd1).
  apply configure_plug_true in H2 as (v2 & Hv2 & Hp2 & Hs2 & Hd2).
  injection Hv0 as <-. injection Hv1 as <-. injection Hv2 as <-.
  unfold plug_values, values_set, disconnections in *. cbn [concat].
  rewrite !omap_app, Hp0, Hp1, Hp2, Hs0, Hs1, Hs2.
  split; [reflexivity|]. split; [reflexivity|].
  rewrite !Forall_app. cbn [omap list_omap].
  repeat split; try constructor;
    (eapply Forall_impl; [eassumption|]); intros d Hd; eexists;
    (split; [|exact Hd]); cbn; auto.
Qed.


(** X18: a _ConfigureSkinnedObjectTransform that returns true has set
    inheritsTransform to false on the transform and, when the geometry bind
    transform decomposes, has set translateX, translateY, translateZ, then
    rotateX, rotateY, rotateZ, then scaleX, scaleY, scaleZ, in this order,
    to the components of the translation, rotation and scale; the only
    plugs it disconnects anything from are these nine.  When the transform
    does not decompose it makes no call after setting inheritsTransform. *)
Theorem skinned_transform_configured skinningQuery transform trace :
  exec (_ConfigureSkinnedObjectTransform skinningQuery transform) trace
       (Some true) ->
  values_set trace = [(transform, MayaTokens.inheritsTransform, VBool false)] /\
  match ConvertUsdMatrixToComponents (GetGeomBindTransform skinningQuery) with
  | Some (t, r, s) =>
      mapM (fun '(attr, v) =>
              (fun d => (Plug transform attr, VDouble d)) <$> v)
           (configured_channels t r s) = Some (plug_values trace) /\
      Forall (fun d : MPlug * MPlug =>
                exists attr,
                  In attr (MayaTokens.translates ++ MayaTokens.rotates ++
                           MayaTokens.scales) /\
                  d.1 = Plug transform attr)
             (disconnections trace)
  | None => length trace = 2%nat
  end.
Proof.
  intros H. unfold _ConfigureSkinnedObjectTransform in H.
  do 2 step_checked H.
  destruct (ConvertUsdMatrixToComponents _) as [[[t r1] s]|].
  2:{ apply exec_Ret_inv in H as [-> _]. unfold values_set. cbn.
      use_statuses. split; reflexivity. }
  apply exec_for_all_true in H as (traces & HF & ->).
  apply Forall2_cons_inv_l in HF as (tr0 & traces0 & H0 & HF & ->).
  apply Forall2_cons_inv_l in HF as (tr1 & traces1 & H1 & HF & ->).
  apply Forall2_cons_inv_l in HF as (tr2 & traces2 & H2 & HF & ->).
  apply Forall2_nil_inv_l in HF as ->.
  apply configure_vector_true in H0 as (Hp0 & Hs0 & Hd0).
  apply configure_vector_true in H1 as (Hp1 & Hs1 & Hd1).
  apply configure_vector_true in H2 as (Hp2 & Hs2 & Hd2).
  unfold plug_values, values_set, disconnections in *. cbn.
  use_statuses. rewrite !omap_app, Hp0, Hp1, Hp2, Hs0, Hs1, Hs2.
  split; [reflexivity|]. split; [reflexivity|].
  rewrite !Forall_app. repeat split; try constructor;
    (eapply Forall_impl; [eassumption|]); intros d (attr & Hin & Hd);
    exists attr; (split; [|exact Hd]); cbn in Hin |- *; tauto.
Qed.

(** ** Joint influences of the skinned mesh *)



(** ** Answers that are not looked at *)

Lemma ignores_exec {R : Type} Q (p : Prog R) trace out reply :
  ignores Q p -> exec p trace out -> exec p (answered Q reply trace) out.
Proof.
  intros Hp H. induction H as [r|c k reply0 trace out H IH|].
  - constructor.
  - inversion Hp as [|c' k' Hq Hk|]; subst.
    unfold answered. cbn [fmap list_fmap fst].
    destruct (Q c) eqn:HQ.
    + constructor. rewrite (Hq eq_refl reply reply0). apply IH, Hk.
    + constructor. apply IH, Hk.
  - constructor.
Qed.

Lemma ignores_bind {A B : Type} Q (p : Prog A) (f : A -> Prog B) :
  ignores Q p -> (forall a, ignores Q (f a)) -> ignores Q (bind p f).
Proof.
  intros Hp Hf. induction Hp as [a|c k Hq Hk IH|]; cbn.
  - apply Hf.
  - constructor; [|exact IH].
    intros HQ reply reply'. rewrite (Hq HQ reply reply'). reflexivity.
  - constructor.
Qed.

Lemma ignores_checked Q c (k : Reply -> Prog bool) :
  Q c = false -> (forall reply, ignores Q (k reply)) ->
  ignores Q (checked c k).
Proof.
  intros HQ Hk. constructor; [congruence|]. intros reply.
  destruct (r_status reply); [apply Hk | constructor].
Qed.

Lemma ignores_require Q (p k : Prog bool) :
  ignores Q p -> ignores Q k -> ignores Q (require p k).
Proof.
  intros Hp Hk. apply ignores_bind; [exact Hp|].
  intros [|]; [exact Hk | constructor].
Qed.

Lemma ignores_call Q c : Q c = false -> ignores Q (call c).
Proof. intros HQ. constructor; [congruence|]. intros reply. constructor. Qed.

(** A call made for its effect only. *)
Lemma ignores_unused {R : Type} Q c (p : Prog R) :
  ignores Q p -> ignores Q (bind (call c) (fun _ => p)).
Proof. intros Hp. cbn. constructor; [reflexivity|]. intros _. exact Hp. Qed.

Lemma ignores_lift {A : Type} Q (o : option A) : ignores Q (lift o).
Proof. destruct o; constructor. Qed.

Lemma ignores_deref {R : Type} Q context (p : Prog R) :
  ignores Q p -> ignores Q (deref context p).
Proof. intros Hp. destruct context; [constructor | exact Hp]. Qed.

Lemma ignores_for_all {A : Type} Q (l : list A) (body : A -> Prog bool) :
  (forall a, ignores Q (body a)) -> ignores Q (for_all l body).
Proof.
  intros Hb. induction l as [|a l IH]; cbn; [constructor|].
  apply ignores_bind; [apply Hb|]. intros [|]; [exact IH | constructor].
Qed.

Ltac ignores_step :=
  lazymatch goal with
  | |- ignores _ (Ret _) => constructor
  | |- ignores _ Undefined => constructor
  | |- ignores _ (mbind _ _) => unfold mbind, Prog_bind
  | |- ignores _ (bind (call _) _) =>
      first [apply ignores_bind; [apply ignores_call; reflexivity | intros ?]
            | apply ignores_unused]
  | |- ignores _ (bind _ _) => apply ignores_bind; [|intros ?]
  | |- ignores _ (checked _ _) =>
      apply ignores_checked; [reflexivity | intros ?]
  | |- ignores _ (require _ _) => apply ignores_require
  | |- ignores _ (call _) => apply ignores_call; reflexivity
  | |- ignores _ (lift _) => apply ignores_lift
  | |- ignores _ (deref _ _) => apply ignores_deref
  | |- ignores _ (for_all _ _) => apply ignores_for_all; intros ?
  | |- ignores _ (if ?b then _ else _) => destruct b
  | |- ignores _ (match ?x with _ => _ end) => destruct x
  | |- ignores _ ((match ?x with _ => _ end) _) => destruct x
  end.

Lemma create_skin_cluster_ignores skelQuery skinningQuery joints primToSkin
    args context bindPose :
  ignores object_group_connection
    (CreateSkinCluster skelQuery skinningQuery joints primToSkin args context
       bindPose).
Proof.
  unfold CreateSkinCluster, rig_skin_cluster, _CreateRestMesh,
    _ConfigureSkinnedObjectTransform, _ClearIncomingConnections,
    _ComputeAndSetJointInfluences, _SetVaryingJointInfluences.
  repeat ignores_step.
Qed.

(** X20: CreateSkinCluster does not look at the answer to the connection
    of the group id to the object group of the skinned shape
    (instObjGroups[0].objectGroups[0].objectGroupId), the one call to Maya
    whose status it stores and never tests: with any other answer to that
    call, a failure included, the run makes the same calls and ends with
    the same result. *)
Theorem object_group_connection_is_unchecked skelQuery skinningQuery joints
    primToSkin args context bindPose trace out reply :
  exec (CreateSkinCluster skelQuery skinningQuery joints primToSkin args
          context bindPose) trace out ->
  exec (CreateSkinCluster skelQuery skinningQuery joints primToSkin args
          context bindPose)
       (answered object_group_connection reply trace) out.
Proof. apply ignores_exec, create_skin_cluster_ignores. Qed.

(** ** The skin cluster *)








(** ** The bind pose node *)

Lemma wire_joint_quiet skelQuery bindPose (numJoints : nat) xforms i joint
    trace out :
  exec (wire_joint skelQuery bindPose numJoints xforms i joint) trace out ->
  registrations trace = [] /\ sized trace = [] /\ values_set trace = [] /\
  applied trace = 0%nat.
Proof.
  intros H.
  assert (HF : Forall (fun e : Event =>
                         match e.1 with
                         | Context_RegisterNewMayaNode _ _
                         | MPlug_setNumElements _ _
                         | Util_setPlugValue _ _ _
                         | MDGModifier_doIt => false
                         | _ => true
                         end = true) trace).
  { eapply (exec_calls_only
              (fun c => match c with
                        | Context_RegisterNewMayaNode _ _
                        | MPlug_setNumElements _ _
                        | Util_setPlugValue _ _ _
                        | MDGModifier_doIt => false
                        | _ => true
                        end = true)); [|exact H].
    unfold wire_joint. repeat only_step. }
  unfold applied.
  assert (Hq : forall (A : Type) (h : Event -> option A),
             (forall e : Event,
                 match e.1 with
                 | Context_RegisterNewMayaNode _ _
                 | MPlug_setNumElements _ _
                 | Util_setPlugValue _ _ _
                 | MDGModifier_doIt => false
                 | _ => true
                 end = true -> h e = None) ->
             omap h trace = []).
  { intros A h Hh. apply omap_none. eapply Forall_impl; [exact HF|].
    intros e He. apply Hh, He. }
  repeat split; try (rewrite Hq; [reflexivity|]);
    try (apply Hq); intros [c r] Hc; destruct c; try discriminate Hc;
    reflexivity.
Qed.

Lemma wire_joints_quiet skelQuery bindPose (numJoints : nat) xforms
    (xs : list (Z * MObject)) (traces : list (list Event)) :
  Forall2 (fun a tr =>
             exec ((fun '(i, joint) =>
                      wire_joint skelQuery bindPose numJoints xforms i joint)
                     a) tr (Some true)) xs traces ->
  registrations (concat traces) = [] /\ sized (concat traces) = [] /\
  values_set (concat traces) = [] /\ applied (concat traces) = 0%nat.
Proof.
  induction 1 as [|[i joint] tr xs traces Hx _ (IH1 & IH2 & IH3 & IH4)];
    [repeat split|].
  apply wire_joint_quiet in Hx as (H1 & H2 & H3 & H4).
  unfold registrations, sized, values_set, applied in *. cbn [concat].
  rewrite !omap_app, H1, H2, H3, IH1, IH2, IH3.
  repeat split. rewrite length_app, H4, IH4. reflexivity.
Qed.

(** X22: besides the wiring of the joints, a CreateBindPose that returns
    true has registered the dagPose node with the reader context (so the
    context is not null), has sized the arrays members, worldMatrix,
    xformMatrix and parents of the node, in this order, to the number of
    joints, has applied its modifier once, and has set the attribute
    bindPose of the node to true as its last call. *)
Theorem create_bind_pose_registers_and_sizes skelQuery joints context
    bindPoseNode trace out :
  sq_valid skelQuery = true ->
  Z.of_nat (length joints) < 2 ^ 32 ->
  exec (CreateBindPose skelQuery joints context (Some bindPoseNode)) trace
       (Some (true, out)) ->
  exists (bindPose : MObject) (named set : Reply),
    out = Some bindPose /\ context = theContext /\
    In (MFnDependencyNode_name bindPose, named) trace /\
    registrations trace = [(r_name named, bindPose)] /\
    sized trace =
      (fun attr => (Plug bindPose attr, Z.of_nat (length joints)))
        <$> [MayaTokens.members; MayaTokens.worldMatrix;
             MayaTokens.xformMatrix; MayaTokens.parents] /\
    applied trace = 1%nat /\
    values_set trace = [(bindPose, MayaTokens.bindPose, VBool true)] /\
    last trace =
      Some (Util_setPlugValue bindPose MayaTokens.bindPose (VBool true), set).
Proof.
  intros Hvalid Hn H. unfold CreateBindPose in H.
  rewrite Hvalid in H. cbn [negb] in H.
  rewrite (u32_small (Z.of_nat (length joints))) in H by lia.
  open_binds H. step_call H.
  apply exec_bind_Some in H as (ok & tr1 & tr2 & H & Hret & ->).
  apply exec_Ret_inv in Hret as [-> Hret].
  injection Hret as Hok Hout. subst ok out. rewrite app_nil_r.
  destruct (r_status r) eqn:Hcreated; cbn [negb] in H;
    [|apply exec_Ret_inv in H as [_ H]; discriminate].
  do 2 step_checked H. step_call H.
  destruct context; cbn [deref bind] in H;
    [apply exec_Undefined_inv in H as [_ H]; discriminate|].
  step_call H. do 9 step_checked H.
  destruct (ComputeJointLocalTransforms skelQuery Default true)
    as [xforms|];
    [|apply exec_Ret_inv in H as [_ H]; discriminate].
  step_require H HL. do 2 step_checked H. apply exec_Ret_inv in H as [-> _].
  apply exec_for_all_true in HL as (traces & HF & ->).
  apply wire_joints_quiet in HF as (Hq1 & Hq2 & Hq3 & Hq4).
  exists (r_obj r), r2, r14.
  split; [reflexivity|]. split; [reflexivity|].
  split; [do 3 right; left; reflexivity|].
  unfold registrations, sized, values_set, applied in *.
  cbn [omap list_omap fst snd app]. rewrite !omap_app.
  rewrite Hq1, Hq2, Hq3. use_statuses.
  cbn [omap list_omap fst snd app fmap list_fmap length].
  apply length_zero_iff_nil in Hq4. rewrite Hq4. use_statuses.
  repeat split.
  rewrite !last_cons, last_app. reflexivity.
Qed.

(** ** The Skeleton transform and the joints vector *)

Lemma create_joint_length skelPath context i name nodes trace ok nodes' :
  exec (create_joint skelPath context i name nodes) trace (Some (ok, nodes')) ->
  length nodes' = length nodes.
Proof.
  intros H. apply create_joint_inv in H.
  destruct H as [(_ & _ & H)|[(_ & _ & _ & H)|(_ & _ & found & H)]];
    [injection H as _ <-; reflexivity | discriminate |].
  destruct H as [(_ & _ & H)|(_ & created & _ & H)];
    [injection H as _ <-; reflexivity|].
  destruct (set_index nodes i (r_obj created)) as [nodes1|] eqn:Hset;
    [|discriminate].
  cbn in H. injection H as _ <-. eapply set_index_length. exact Hset.
Qed.

Lemma joint_loop_length skelPath context names :
  forall k nodes trace ok nodes',
    exec (for_each (indexed_from k names)
            (fun '(i, name) => create_joint skelPath context i name) nodes)
         trace (Some (ok, nodes')) ->
    length nodes' = length nodes.
Proof.
  induction names as [|name names IH]; intros k nodes trace ok nodes' H;
    cbn [indexed_from for_each] in H.
  - apply exec_Ret_inv in H as [_ H]. injection H as _ <-. reflexivity.
  - apply exec_bind_Some in H as ([ok1 nodes1] & tr1 & tr2 & H1 & H2 & ->).
    apply create_joint_length in H1. destruct ok1; cbn [fst snd] in H2.
    + apply IH in H2. congruence.
    + apply exec_Ret_inv in H2 as [_ H2]. injection H2 as _ <-. exact H1.
Qed.

Lemma joint_loop_transforms skelPath context names :
  forall k nodes trace out,
    exec (for_each (indexed_from k names)
            (fun '(i, name) => create_joint skelPath context i name) nodes)
         trace out ->
    created_nodes MayaTokens.transformType trace = [].
Proof.
  intros k nodes trace out H.
  eapply (omap_quiet
            (fun c => match c with
                      | TranslatorUtil_CreateNode _ type _ _ =>
                          negb (String.eqb type MayaTokens.transformType)
                      | _ => true
                      end = true)).
  { intros [c r] Hc. destruct c; try reflexivity. cbn in Hc |- *.
    destruct (String.eqb nodeTypeName MayaTokens.transformType);
      [discriminate | reflexivity]. }
  eapply (exec_calls_only
            (fun c => match c with
                      | TranslatorUtil_CreateNode _ type _ _ =>
                          negb (String.eqb type MayaTokens.transformType)
                      | _ => true
                      end = true)); [|exact H].
  apply calls_only_for_each. intros [i name] s. unfold create_joint.
  repeat only_step.
Qed.

(** X23: CreateJoints checks its arguments before it calls Maya: with an
    invalid skeleton query or a null joints output it returns false and has
    done nothing.  Otherwise its first call creates the transform
    <skeleton prim>/Skeleton under the given parent node; when that fails
    it returns false at once and leaves the joints vector as it was; when
    it succeeds this is the only transform node the function makes, and
    whatever the result the joints vector is left with one entry per joint
    of the joint order. *)
Theorem create_joints_starts_with_skeleton_transform skelQuery parentNode args
    context joints trace out :
  exec (CreateJoints skelQuery parentNode args context joints) trace out ->
  let skelPath := AppendChild (GetPrimPath skelQuery) MayaTokens.Skeleton in
  (sq_valid skelQuery = false \/ joints = None ->
   trace = [] /\ out = Some (false, joints)) /\
  (forall jointVector,
      sq_valid skelQuery = true -> joints = Some jointVector ->
      exists created rest,
        trace =
          (TranslatorUtil_CreateNode skelPath MayaTokens.transformType
             parentNode context, created) :: rest /\
        if r_status created then
          created_nodes MayaTokens.transformType trace =
            [(skelPath, parentNode, r_obj created)] /\
          forall ok nodes,
            out = Some (ok, nodes) ->
            exists vector,
              nodes = Some vector /\
              length vector = length (GetJointOrder skelQuery)
        else rest = [] /\ out = Some (false, Some jointVector)).
Proof.
  intros H skelPath. unfold CreateJoints in H. fold skelPath in H. split.
  - intros [Hsq| ->].
    + rewrite Hsq in H. apply exec_Ret_inv in H. exact H.
    + destruct (negb (sq_valid skelQuery)); apply exec_Ret_inv in H; exact H.
  - intros jointVector Hsq ->. rewrite Hsq in H. cbn [negb] in H.
    open_binds H. step_call H. exists r, t. split; [reflexivity|].
    destruct (r_status r) eqn:Hcreated; cbn [negb] in H;
      [|apply exec_Ret_inv in H; exact H].
    apply exec_bind_inv in H
      as [[H ->]|([ok1 nodes1] & tr1 & tr2 & H1 & H2 & ->)].
    { split; [|intros ok nodes Hout; discriminate].
      unfold _CreateJointNodes, indexed in H.
      apply joint_loop_transforms in H.
      unfold created_nodes in *. cbn. rewrite Hcreated, H. reflexivity. }
    assert (Hlen : length nodes1 = length (GetJointOrder skelQuery)).
    { unfold _CreateJointNodes, indexed in H1.
      apply joint_loop_length in H1. rewrite H1. apply length_resize. }
    assert (Hloop : created_nodes MayaTokens.transformType tr1 = []).
    { unfold _CreateJointNodes, indexed in H1.
      eapply joint_loop_transforms. exact H1. }
    assert (Htail : created_nodes MayaTokens.transformType tr2 = [] /\
                    forall ok nodes,
                      out = Some (ok, nodes) -> nodes = Some nodes1).
    { destruct ok1; cbn [negb] in H2.
      - apply exec_bind_inv in H2
          as [[H2 ->]|(ok2 & tr2a & tr2b & H2 & H3 & ->)].
        + split; [|intros ok nodes Hout; discriminate].
          eapply create_joints_tail_quiet. exact H2.
        + apply exec_Ret_inv in H3 as [-> ->]. rewrite app_nil_r. split.
          * eapply create_joints_tail_quiet. exact H2.
          * intros ok nodes Hout. injection Hout as _ <-. reflexivity.
      - apply exec_Ret_inv in H2 as [-> ->]. split; [reflexivity|].
        intros ok nodes Hout. injection Hout as _ <-. reflexivity. }
    destruct Htail as [Htail Hout]. split.
    + unfold created_nodes in *. cbn. rewrite Hcreated, omap_app, Hloop, Htail.
      reflexivity.
    + intros ok nodes Ho. exists nodes1. split; [eapply Hout; exact Ho|].
      exact Hlen.
Qed.

(** ** Animation of the joints *)






End TranslatorRuns.

(** ** The properties above on the sample scenes *)

Section SampleRuns.
#[local] Existing Instance Sample.sdf.
#[local] Existing Instance Sample.gf.

Lemma anim_plug_data_keys_one_curve_witness :
  exists trace (keyable named : Reply) (curve : MObject),
    exec (_SetAnimPlugData (sdf := Sample.sdf) (gf := Sample.gf) (MNode 3) "translateX"
            [Float64.of_Z 5; Float64.of_Z 6] [Float64.of_Z 1; Float64.of_Z 2]
            theContext) trace (Some true) /\
    In (MPlug_isKeyable (Plug (MNode 3) "translateX"), keyable) trace /\
    made_keyable trace =
      (if r_status keyable then [] else [Plug (MNode 3) "translateX"]) /\
    curves_created trace = [(Plug (MNode 3) "translateX", curve)] /\
    keys_added trace =
      [(curve, [Float64.of_Z 1; Float64.of_Z 2],
        [Float64.of_Z 5; Float64.of_Z 6])] /\
    registrations trace = [(r_name named, curve)].
Proof.
  eassert (Hrun : run Scene.host
                    (_SetAnimPlugData (MNode 3) "translateX"
                       [Float64.of_Z 5; Float64.of_Z 6]
                       [Float64.of_Z 1; Float64.of_Z 2] theContext)
                    Scene.world = Some (true, _, _)) by reflexivity.
  apply run_exec in Hrun.
  destruct (anim_plug_data_keys_one_curve _ _ _ _ _ _ Hrun)
    as (keyable & named & curve & H1 & H2 & H3 & H4 & H5 & _).
  eexists _, keyable, named, curve. split; [exact Hrun|]. auto.
Defined.




Lemma bone_radii_keep_last_child_witness :
  exists radii childCounts,
    bone_radii Sample.fork 3 Sample.fork_xforms = Some (radii, childCounts) /\
    children_in Sample.fork 0 0 3 = [1; 2] /\
    at_index childCounts 0 = Some 2 /\
    at_index radii 0 = bone_radius Sample.fork_xforms 0 2.
Proof.
  eassert (Hrun : bone_radii Sample.fork 3 Sample.fork_xforms = Some (_, _))
    by (vm_compute; reflexivity).
  destruct (bone_radii_keep_last_child Sample.fork 3 Sample.fork_xforms _ _ 0
              Hrun ltac:(lia)) as [H1 H2].
  eexists _, _. split; [exact Hrun|]. split; [reflexivity|].
  split; [exact H1 | exact H2].
Defined.

Lemma joint_radii_resolved_witness :
  let nodes := [MNode 3; MNode 4; MNode 5] in
  exists trace (radii : list float) (childCounts : list Z)
         (accepted : list bool) (set : list double),
    exec (_SetJointRadii Sample.fork nodes Sample.fork_xforms) trace
         (Some true) /\
    bone_radii Sample.fork 3 Sample.fork_xforms = Some (radii, childCounts) /\
    length accepted = 3%nat /\ length set = 3%nat /\
    attached trace = zip nodes accepted /\
    doubles_set MayaTokens.radius trace =
      omap (fun '(joint, ok, d) => if ok : bool then Some (joint, d) else None)
           (zip (zip nodes accepted) set).
Proof.
  intros nodes.
  eassert (Hrun : run Sample.host
                    (_SetJointRadii Sample.fork nodes Sample.fork_xforms)
                    Sample.world0 = Some (true, _, _)) by reflexivity.
  apply run_exec in Hrun.
  destruct (joint_radii_resolved Sample.fork nodes Sample.fork_xforms _ Hrun)
    as (radii & counts & accepted & set & H1 & H2 & H3 & H4 & H5 & _).
  eexists _, radii, counts, accepted, set. split; [exact Hrun|]. auto.
Defined.




Lemma skinned_transform_configured_witness :
  exists trace,
    exec (_ConfigureSkinnedObjectTransform Scene.skinning (MNode 10)) trace
         (Some true) /\
    values_set trace =
      [(MNode 10, MayaTokens.inheritsTransform, VBool false)] /\
    mapM (fun '(attr, v) =>
            (fun d => (Plug (MNode 10) attr, VDouble d)) <$> v)
         (configured_channels (Sample.vec 5 6 7) (Sample.vec 0 0 0)
            (Sample.vec 1 1 1)) = Some (plug_values trace).
Proof.
  eassert (Hrun : run Scene.host
                    (_ConfigureSkinnedObjectTransform Scene.skinning (MNode 10))
                    Scene.world = Some (true, _, _)) by reflexivity.
  apply run_exec in Hrun.
  destruct (skinned_transform_configured _ _ _ Hrun) as [H1 [H2 _]].
  eexists. split; [exact Hrun|]. split; [exact H1 | exact H2].
Defined.


Lemma object_group_connection_is_unchecked_witness :
  exists trace,
    exec (CreateSkinCluster Scene.pair Scene.skinning Scene.joints
            Sample.mesh_prim Sample.args0 theContext (MNode 5)) trace
         (Some true) /\
    exec (CreateSkinCluster Scene.pair Scene.skinning Scene.joints
            Sample.mesh_prim Sample.args0 theContext (MNode 5))
         (answered object_group_connection (Sample.ok false kNullObj) trace)
         (Some true).
Proof.
  eassert (Hrun : run Scene.host
                    (CreateSkinCluster Scene.pair Scene.skinning Scene.joints
                       Sample.mesh_prim Sample.args0 theContext (MNode 5))
                    Scene.world = Some (true, _, _)) by reflexivity.
  apply run_exec in Hrun.
  eexists. split; [exact Hrun|].
  exact (object_group_connection_is_unchecked _ _ _ _ _ _ _ _ _
           (Sample.ok false kNullObj) Hrun).
Defined.


Lemma create_bind_pose_registers_and_sizes_witness :
  exists trace (bindPose : MObject) (named : Reply),
    exec (CreateBindPose Sample.gap Sample.gap_joints theContext
            (Some kNullObj)) trace (Some (true, Some bindPose)) /\
    registrations trace = [(r_name named, bindPose)] /\
    sized trace =
      (fun attr => (Plug bindPose attr, 3))
        <$> [MayaTokens.members; MayaTokens.worldMatrix;
             MayaTokens.xformMatrix; MayaTokens.parents] /\
    applied trace = 1%nat.
Proof.
  eassert (Hrun : run Sample.host
                    (CreateBindPose Sample.gap Sample.gap_joints theContext
                       (Some kNullObj))
                    Sample.after_gap_joints = Some ((true, Some _), _, _))
    by reflexivity.
  apply run_exec in Hrun.
  destruct (create_bind_pose_registers_and_sizes Sample.gap
              Sample.gap_joints theContext kNullObj _ _ eq_refl eq_refl Hrun)
    as (bindPose & named & set & Hout & _ & _ & H1 & H2 & H3 & _).
  injection Hout as Hout. subst bindPose.
  eexists _, _, named. split; [exact Hrun|]. auto.
Defined.

Lemma create_joints_starts_with_skeleton_transform_witness :
  exists trace nodes created rest,
    exec (CreateJoints Sample.fork (MNode 1) Sample.args0 theContext (Some []))
         trace (Some (true, nodes)) /\
    trace =
      (TranslatorUtil_CreateNode (Some ["Model"; "Skeleton"]%string)
         MayaTokens.transformType (MNode 1) theContext, created) :: rest /\
    exists vector, nodes = Some vector /\ length vector = 3%nat.
Proof.
  eassert (Hrun : run Sample.host
                    (CreateJoints Sample.fork (MNode 1) Sample.args0
                       theContext (Some []))
                    Sample.world0 = Some ((true, _), _, _)) by reflexivity.
  apply run_exec in Hrun.
  destruct (create_joints_starts_with_skeleton_transform Sample.fork _ _ _ _
              _ _ Hrun) as [_ H].
  destruct (H [] eq_refl eq_refl) as (created & rest & Htrace & Hrest).
  destruct (r_status created).
  - destruct Hrest as [_ Hvec].
    eexists _, _, created, rest. split; [exact Hrun|].
    split; [exact Htrace|]. exact (Hvec _ _ eq_refl).
  - destruct Hrest as [_ Hout]. discriminate Hout.
Defined.


End SampleRuns.
